(** * Facebook auto posting: the browser-automation drivers

    A shallow embedding of [facebook_playwright_bot.py],
    [facebook_selenium_bot.py] and of the [with] blocks of [main.py].

    The drivers are imperative code over a live browser.  The browser, the
    page and the filesystem are the environment [Env]: what is visible at a
    given instant, what the location is, which library call raises.  The bot
    itself is a computation in a state-and-exception monad over a [World]
    made of the clock (milliseconds) and the chronological log of what the
    bot did. *)

From Stdlib Require Import ZArith List String Ascii Bool Lia.
Import ListNotations.
Local Open Scope string_scope.
Local Open Scope Z_scope.

(** ** Strings as Python uses them *)

Module Py.

(** [sub in s] *)
Fixpoint str_in (sub s : string) : bool :=
  if String.prefix sub s then true
  else match s with
       | EmptyString => false
       | String _ s' => str_in sub s'
       end.

(** [s in l] for a list of strings *)
Definition mem (s : string) (l : list string) : bool :=
  existsb (String.eqb s) l.

Definition lower_ascii (c : ascii) : ascii :=
  let n := nat_of_ascii c in
  if (Nat.leb 65 n && Nat.leb n 90)%bool then ascii_of_nat (n + 32) else c.

(** [s.lower()]; bytes outside A-Z are kept (Hangul has no case). *)
Fixpoint lower (s : string) : string :=
  match s with
  | EmptyString => EmptyString
  | String c s' => String (lower_ascii c) (lower s')
  end.

Definition is_space (c : ascii) : bool :=
  let n := nat_of_ascii c in
  (Nat.eqb n 32 || (Nat.leb 9 n && Nat.leb n 13))%bool.

Fixpoint lstrip (s : string) : string :=
  match s with
  | EmptyString => EmptyString
  | String c s' => if is_space c then lstrip s' else s
  end.

Fixpoint rev_string (s acc : string) : string :=
  match s with
  | EmptyString => acc
  | String c s' => rev_string s' (String c acc)
  end.

Definition rstrip (s : string) : string :=
  rev_string (lstrip (rev_string s EmptyString)) EmptyString.

(** [s.strip()] *)
Definition strip (s : string) : string := rstrip (lstrip s).

(** truthiness of a string, a list and an int *)
Definition truthy (s : string) : bool :=
  match s with EmptyString => false | _ => true end.

Definition nonempty {A} (l : list A) : bool :=
  match l with [] => false | _ => true end.

(** [s.rsplit(c, 1)]: the parts before and after the last [c] *)
Fixpoint rsplit (c : ascii) (s : string) : option (string * string) :=
  match s with
  | EmptyString => None
  | String a s' =>
      match rsplit c s' with
      | Some (pre, post) => Some (String a pre, post)
      | None => if Ascii.eqb a c then Some (EmptyString, s') else None
      end
  end.

(** [Path(p).name] and [Path(p).suffix] *)
Definition name (p : string) : string :=
  match rsplit "/" p with Some (_, n) => n | None => p end.

Definition suffix (p : string) : string :=
  match rsplit "." (name p) with
  | Some (pre, post) =>
      if (truthy pre && truthy post)%bool then String "." post else EmptyString
  | None => EmptyString
  end.

(** [a or b] on ints *)
Definition or_int (a b : Z) : Z := if a =? 0 then b else a.

End Py.

(** ** Exceptions, actions, log *)

(** The exceptions the drivers name.  All of them derive from [Exception]. *)
Inductive exn :=
| TimeoutError            (* PlaywrightTimeoutError, selenium TimeoutException *)
| ClickIntercepted        (* ElementClickInterceptedException *)
| NoSuchElement           (* NoSuchElementException *)
| WebDriverError          (* WebDriverException *)
| RuntimeError
| ValueError
| OtherError.

Definition exn_eqb (a b : exn) : bool :=
  match a, b with
  | TimeoutError, TimeoutError | ClickIntercepted, ClickIntercepted
  | NoSuchElement, NoSuchElement | WebDriverError, WebDriverError
  | RuntimeError, RuntimeError | ValueError, ValueError
  | OtherError, OtherError => true
  | _, _ => false
  end.

(** What an element condition asks for: Playwright's [state="visible"],
    selenium's [presence_of_element_located] and [element_to_be_clickable]. *)
Inductive cond := Visible | Present | Clickable.

(** Calls into the browser library that act on the session. *)
Inductive action :=
| StartPlaywright                       (* sync_playwright().start() *)
| LaunchBrowser                         (* chromium.launch / webdriver.Chrome *)
| NewContext
| NewPage
| AddInitScript                         (* add_init_script / execute_script *)
| Goto (url : string)
| WaitLoadState                         (* wait_for_load_state("networkidle") *)
| Click (sel : string)                  (* element.click() *)
| ScriptClick (sel : string)            (* execute_script("arguments[0].click();", el) *)
| ClickNth (query : string) (i : nat)       (* click on the i-th element of a query *)
| ScriptClickNth (query : string) (i : nat)
| FindAncestor (query : string) (i : nat)   (* span.find_element(ancestor button) *)
| Query (query : string)                (* query_selector_all / find_elements *)
| FindElement (sel : string)            (* driver.find_element *)
| Clear (sel : string)
| Fill (sel text : string)              (* fill / send_keys *)
| TypeText (sel text : string)
| SetInputFiles (sel path : string)     (* set_input_files / send_keys on a file input *)
| Screenshot (path : string)
| CloseContext
| CloseBrowser
| StopPlaywright
| QuitDriver.

(** The lines the drivers print. *)
Inductive message :=
| MsgBrowserStarting | MsgBrowserStarted | MsgBrowserClosed
| MsgPopupClosed
| MsgSaveLoginChecking | MsgSaveLoginCancelled | MsgSaveLoginNotFound
| MsgLoginStart | MsgEmailDone | MsgPasswordDone | MsgLoginClicked
| Msg2faNeeded | Msg2faRemaining (secs : Z)
| MsgLoginSuccess | MsgLoginFailed | MsgLoginTimeout | MsgLoginError
| MsgPostStart | MsgComposerNotFound | MsgMessageDone | MsgPosted
| MsgPostButtonNotFound | MsgPostTimeout | MsgPostError
| WarnPickerNotFound | WarnFileInputNotFound
| WarnFileNotFound (path : string)
| MsgFileUploaded (path : string)
| MsgUploadError
| MsgScreenshot (path : string)
| MsgRunFailed | MsgRunError.

Inductive event :=
| EvCall (fn : string)                   (* a method of the bot is entered *)
| EvWait (c : cond) (sel : string) (timeout : Z)
| EvSleep (ms : Z)
| EvAct (a : action)
| EvPrint (m : message).

(** ** The environment *)

(** One button or span of the page, as a text fallback sees it. *)
Record node := { node_text : string; node_in_button : bool }.

Record Env := {
  (** the interval at which the driver library re-evaluates a condition *)
  poll : positive;
  (** the page location at a given instant *)
  url_at : Z -> string;
  (** whether a selector satisfies a condition at a given instant *)
  located : cond -> string -> Z -> bool;
  (** the elements a query returns at a given instant *)
  nodes_at : string -> Z -> list node;
  (** whether a library call raises at a given instant *)
  raises : action -> Z -> option exn;
  (** [Path(p).resolve()] and [Path(p).exists()] *)
  path_resolve : string -> string;
  path_exists : string -> bool
}.

(** The attributes of the bot that hold a resource once set
    ([self.playwright], [self.browser], [self.context], [self.page],
    [self.driver]); they start as [None]. *)
Inductive resource := RPlaywright | RBrowser | RContext | RPage | RDriver.

Definition resource_eqb (a b : resource) : bool :=
  match a, b with
  | RPlaywright, RPlaywright | RBrowser, RBrowser | RContext, RContext
  | RPage, RPage | RDriver, RDriver => true
  | _, _ => false
  end.

Record World := { now : Z; log : list event; attrs : list resource }.

Definition w0 : World := {| now := 0; log := []; attrs := [] |}.

Definition record (e : event) (w : World) : World :=
  {| now := now w; log := log w ++ [e]; attrs := attrs w |}.

Definition at_time (t : Z) (w : World) : World :=
  {| now := t; log := log w; attrs := attrs w |}.

(** ** The monad *)

Inductive res (A : Type) :=
| Ok (a : A)
| Raise (e : exn).
Arguments Ok {A} a.
Arguments Raise {A} e.

Definition M (A : Type) : Type := World -> res A * World.

Definition ret {A} (a : A) : M A := fun w => (Ok a, w).

Definition bind {A B} (m : M A) (k : A -> M B) : M B :=
  fun w => match m w with
           | (Ok a, w') => k a w'
           | (Raise e, w') => (Raise e, w')
           end.

Definition raise {A} (e : exn) : M A := fun w => (Raise e, w).

(** [try: m  except <handled>: h] *)
Definition try_except {A} (m : M A) (handled : exn -> bool) (h : exn -> M A) : M A :=
  fun w => match m w with
           | (Ok a, w') => (Ok a, w')
           | (Raise e, w') => if handled e then h e w' else (Raise e, w')
           end.

(** [except Exception] and a bare [except]: every modelled exception. *)
Definition any_exn (_ : exn) : bool := true.

Declare Scope monad_scope.
Delimit Scope monad_scope with monad.
Notation "x <- c1 ;; c2" := (bind c1 (fun x => c2))
  (at level 61, c1 at next level, right associativity) : monad_scope.
Notation "c1 ;; c2" := (bind c1 (fun _ => c2))
  (at level 61, right associativity) : monad_scope.
Local Open Scope monad_scope.

Definition emit (e : event) : M unit := fun w => (Ok tt, record e w).

Definition print (m : message) : M unit := emit (EvPrint m).

(** [time.sleep]: the only primitive, with the timed waits, that takes time. *)
Definition sleep (ms : Z) : M unit :=
  fun w => (Ok tt, at_time (now w + ms) (record (EvSleep ms) w)).

(** [self.x = ...] and the truth value of [self.x] *)
Definition set_attr (r : resource) : M unit :=
  fun w => (Ok tt, {| now := now w; log := log w; attrs := r :: attrs w |}).

Definition has_attr (r : resource) : M bool :=
  fun w => (Ok (existsb (resource_eqb r) (attrs w)), w).

Definition when (b : bool) (m : M unit) : M unit := if b then m else ret tt.

(** ** Timed waits of the driver libraries

    The condition is evaluated, then the library sleeps one polling interval,
    until the condition holds or the deadline has passed: with a timeout [T]
    and an interval [p] there are [T / p + 1] evaluations. *)

Fixpoint poll_n (c : Z -> bool) (step : Z) (n : nat) (t : Z) : bool * Z :=
  match n with
  | O => (false, t)
  | S k => if c t then (true, t) else poll_n c step k (t + step)
  end.

Definition polls (timeout step : Z) : nat := S (Z.to_nat (timeout / step)).

Section Primitives.
Variable E : Env.

Definition step : Z := Z.pos (poll E).

(** A library call on the session: logged, and raising when the environment
    says so.  The call takes no time on the clock, which sleeps and timed
    waits alone advance; what a click spends before it raises a timeout is
    not counted. *)
Definition perform (a : action) : M unit :=
  fun w =>
    let w' := record (EvAct a) w in
    match raises E a (now w) with
    | Some e => (Raise e, w')
    | None => (Ok tt, w')
    end.

(** [page.url], [driver.current_url] *)
Definition page_url : M string := fun w => (Ok (url_at E (now w)), w).

(** [wait_for_selector(sel, timeout, state)] and [WebDriverWait(..).until(EC..)]:
    returns when the condition holds, raises [TimeoutError] otherwise. *)
Definition wait_for (c : cond) (sel : string) (timeout : Z) : M unit :=
  fun w =>
    let '(found, t) := poll_n (located E c sel) step (polls timeout step) (now w) in
    let w' := at_time t (record (EvWait c sel timeout) w) in
    if found then (Ok tt, w') else (Raise TimeoutError, w').

(** [query_selector_all], [find_elements]: the elements present right now. *)
Definition query (q : string) : M (list node) :=
  perform (Query q) ;; fun w => (Ok (nodes_at E q (now w)), w).

End Primitives.

(** [with enter() as bot: body]: [__exit__] runs when the body returns and
    when it raises; both bots' [__exit__] return [None], so an exception of
    the body is raised again afterwards.  When [__enter__] raises, neither
    the body nor [__exit__] runs. *)
Definition with_ {A} (enter exit_ : M unit) (body : M A) : M A :=
  fun w =>
    match enter w with
    | (Raise e, w1) => (Raise e, w1)
    | (Ok _, w1) =>
        match body w1 with
        | (Ok a, w2) =>
            match exit_ w2 with
            | (Ok _, w3) => (Ok a, w3)
            | (Raise e, w3) => (Raise e, w3)
            end
        | (Raise e, w2) =>
            match exit_ w2 with
            | (Ok _, w3) => (Raise e, w3)
            | (Raise e', w3) => (Raise e', w3)
            end
        end
    end.

(** ** config.py *)

Module Config.
Definition FACEBOOK_LOGIN_URL : string := "https://www.facebook.com/login".
Definition FACEBOOK_HOME_URL : string := "https://www.facebook.com".
(** seconds *)
Definition DEFAULT_WAIT_TIME : Z := 10.
End Config.

(** The double quote, for selectors that contain one. *)
Definition dq : string := String (ascii_of_nat 34) EmptyString.

(** ** facebook_playwright_bot.py *)

Module Playwright.

(** [SELECTORS] *)
Definition email_input : string := "#email".
Definition password_input : string := "#pass".
Definition login_button : string := "button[name='login']".
Definition whats_on_your_mind : list string :=
  [ "span:has-text('무슨 생각')";
    "span:has-text(" ++ dq ++ "What's on your mind" ++ dq ++ ")";
    "[aria-label*='생각']";
    "[aria-label*='mind']" ].
Definition post_textbox : string := "div[contenteditable='true'][role='textbox']".
Definition post_button : list string :=
  [ "div[aria-label='게시']"; "div[aria-label='Post']";
    "span:has-text('게시')"; "span:has-text('Post')" ].
Definition photo_video_button : list string :=
  [ "[aria-label='사진/동영상']"; "[aria-label='Photo/video']";
    "[aria-label*='Photo']"; "[aria-label*='사진']" ].
Definition close_buttons : list string :=
  [ "[aria-label='닫기']"; "[aria-label='Close']";
    "div[aria-label='닫기']"; "div[aria-label='Close']" ].
Definition not_now_buttons : list string :=
  [ "span:has-text('나중에')"; "span:has-text('Not Now')"; "span:has-text('Not now')" ].
Definition save_login_cancel : list string :=
  [ "[aria-label='취소']"; "[aria-label='Cancel']";
    "div[aria-label='취소']"; "div[aria-label='Cancel']";
    "span:has-text('취소')"; "span:has-text('Decline')";
    "button:has-text('취소')"; "button:has-text('Cancel')";
    "[aria-label*='다음에']"; "span:has-text('다음에')" ].

(** the query and the labels of the text fallback *)
Definition button_query : string := "button, div[role='button']".
Definition dismiss_labels : list string :=
  [ "취소"; "cancel"; "decline"; "다음에"; "not now" ].
Definition file_input : string := "input[type='file'][accept*='image']".

(** Playwright's timeout when [wait_for_selector] is given none (ms). *)
Definition default_timeout : Z := 30000.

Section Bot.
Variable E : Env.
(** [self.email], [self.password] *)
Variables email password : string.

Definition _validate_credentials : M unit :=
  if (negb (Py.truthy email) || negb (Py.truthy password))%bool
  then raise ValueError else ret tt.

(** [__init__]: the attributes start as [None] *)
Definition init : M unit :=
  (fun w => (Ok tt, {| now := now w; log := log w; attrs := [] |})) ;;
  _validate_credentials.

Definition start_browser : M unit :=
  emit (EvCall "start_browser") ;;
  print MsgBrowserStarting ;;
  perform E StartPlaywright ;; set_attr RPlaywright ;;
  perform E LaunchBrowser ;; set_attr RBrowser ;;
  perform E NewContext ;; set_attr RContext ;;
  perform E NewPage ;; set_attr RPage ;;
  perform E AddInitScript ;;
  print MsgBrowserStarted.

Definition close_browser : M unit :=
  emit (EvCall "close_browser") ;;
  c <- has_attr RContext ;; when c (perform E CloseContext) ;;
  b <- has_attr RBrowser ;; when b (perform E CloseBrowser) ;;
  p <- has_attr RPlaywright ;; when p (perform E StopPlaywright) ;;
  print MsgBrowserClosed.

(** One turn of the loop of [_try_click]: [true] is the [return True],
    [false] the [continue] of the handler. *)
Definition try_candidate (selector : string) (timeout : Z) : M bool :=
  try_except
    (wait_for E Visible selector timeout ;;
     perform E (Click selector) ;;
     ret true)
    (exn_eqb TimeoutError)
    (fun _ => ret false).

Fixpoint _try_click (selectors : list string) (timeout : Z) : M bool :=
  match selectors with
  | [] => ret false
  | selector :: rest =>
      clicked <- try_candidate selector timeout ;;
      if clicked then ret true else _try_click rest timeout
  end.

Definition _dismiss_popups : M unit :=
  sleep 1000 ;;
  _try_click close_buttons 2000 ;;
  _try_click not_now_buttons 2000 ;;
  ret tt.

(** The loop over the buttons of the text fallback. *)
Fixpoint scan_buttons (buttons : list node) (i : nat) : M unit :=
  match buttons with
  | [] => ret tt
  | btn :: rest =>
      let btn_text :=
        if Py.truthy (node_text btn) then Py.lower (node_text btn)
        else EmptyString in
      if Py.mem btn_text dismiss_labels then
        perform E (ClickNth button_query i) ;;
        print MsgSaveLoginCancelled ;;
        sleep 1000
      else scan_buttons rest (S i)
  end.

Definition _dismiss_save_login_popup : M unit :=
  emit (EvCall "_dismiss_save_login_popup") ;;
  sleep 1000 ;;
  clicked <- _try_click save_login_cancel 3000 ;;
  if clicked then print MsgSaveLoginCancelled
  else
    try_except
      (buttons <- query E button_query ;;
       scan_buttons buttons 0)
      any_exn
      (fun _ => ret tt).

(** [login], lines 230-263: up to the settle delay after the submit. *)
Definition login_submit : M unit :=
  print MsgLoginStart ;;
  perform E (Goto Config.FACEBOOK_LOGIN_URL) ;;
  perform E WaitLoadState ;;
  _dismiss_popups ;;
  wait_for E Visible email_input 10000 ;;
  perform E (Fill email_input email) ;;
  print MsgEmailDone ;;
  wait_for E Visible password_input default_timeout ;;
  perform E (Fill password_input password) ;;
  print MsgPasswordDone ;;
  wait_for E Visible login_button default_timeout ;;
  perform E (Click login_button) ;;
  print MsgLoginClicked ;;
  perform E WaitLoadState ;;
  sleep 3000.

(** the [for i in range(manual_2fa_timeout)] loop, [n] turns left *)
Fixpoint checkpoint_loop (manual_2fa_timeout i : Z) (n : nat) : M unit :=
  match n with
  | O => ret tt
  | S k =>
      url <- page_url E ;;
      if negb (Py.str_in "checkpoint" url) then ret tt
      else
        print (Msg2faRemaining (manual_2fa_timeout - i)) ;;
        sleep 1000 ;;
        checkpoint_loop manual_2fa_timeout (i + 1) k
  end.

(** [login], lines 266-284 *)
Definition login_checkpoint (manual_2fa_timeout : Z) : M unit :=
  url <- page_url E ;;
  if Py.str_in "checkpoint" url then
    print Msg2faNeeded ;;
    try_except
      (checkpoint_loop manual_2fa_timeout 0 (Z.to_nat manual_2fa_timeout))
      any_exn
      (fun _ => sleep (manual_2fa_timeout * 1000))
  else ret tt.

(** the test of line 288 *)
Definition logged_in (current_url : string) : bool :=
  (Py.str_in "facebook.com" current_url && negb (Py.str_in "login" current_url))%bool.

(** [login], lines 287-298 *)
Definition login_confirm : M bool :=
  current_url <- page_url E ;;
  if logged_in current_url then
    print MsgLoginSuccess ;;
    sleep 2000 ;;
    _dismiss_save_login_popup ;;
    _dismiss_popups ;;
    ret true
  else
    print MsgLoginFailed ;;
    ret false.

Definition login (manual_2fa_timeout : Z) : M bool :=
  try_except
    (login_submit ;;
     login_checkpoint manual_2fa_timeout ;;
     login_confirm)
    any_exn
    (fun e =>
       print (if exn_eqb TimeoutError e then MsgLoginTimeout else MsgLoginError) ;;
       ret false).

(** the [for image_path in image_paths] loop *)
Fixpoint feed_files (image_paths : list string) : M unit :=
  match image_paths with
  | [] => ret tt
  | image_path :: rest =>
      let abs_path := path_resolve E image_path in
      if negb (path_exists E abs_path) then
        print (WarnFileNotFound abs_path) ;;
        feed_files rest
      else
        perform E (SetInputFiles file_input abs_path) ;;
        print (MsgFileUploaded abs_path) ;;
        sleep 2000 ;;
        feed_files rest
  end.

Definition _upload_images (image_paths : list string) : M bool :=
  emit (EvCall "_upload_images") ;;
  try_except
    (opened <- _try_click photo_video_button 5000 ;;
     if negb opened then
       print WarnPickerNotFound ;;
       ret false
     else
       sleep 1000 ;;
       wait_for E Visible file_input 5000 ;;
       feed_files image_paths ;;
       ret true)
    any_exn
    (fun _ => print MsgUploadError ;; ret false).

(** [if image_paths:] on an [Optional[List[str]]] *)
Definition given (paths : option (list string)) : bool :=
  match paths with Some l => Py.nonempty l | None => false end.

Definition paths_of (paths : option (list string)) : list string :=
  match paths with Some l => l | None => [] end.

(** [create_post], from the text entry on (lines 343-364) *)
Definition write_and_publish (message : string) : M bool :=
  wait_for E Visible post_textbox 10000 ;;
  perform E (Click post_textbox) ;;
  sleep 500 ;;
  perform E (TypeText post_textbox message) ;;
  print MsgMessageDone ;;
  sleep 2000 ;;
  posted <- _try_click post_button 10000 ;;
  if posted then
    print MsgPosted ;;
    sleep 3000 ;;
    ret true
  else
    print MsgPostButtonNotFound ;;
    ret false.

(** [create_post], lines 323-333: up to the click on the composer *)
Definition open_composer : M bool :=
  print MsgPostStart ;;
  perform E (Goto Config.FACEBOOK_HOME_URL) ;;
  perform E WaitLoadState ;;
  sleep 2000 ;;
  _dismiss_popups ;;
  _try_click whats_on_your_mind 10000.

Definition create_post (message : string) (image_paths : option (list string)) : M bool :=
  try_except
    (opened <- open_composer ;;
     if negb opened then
       print MsgComposerNotFound ;;
       ret false
     else
       sleep 2000 ;;
       (if given image_paths
        then _upload_images (paths_of image_paths) ;; ret tt
        else ret tt) ;;
       write_and_publish message)
    any_exn
    (fun e =>
       print (if exn_eqb TimeoutError e then MsgPostTimeout else MsgPostError) ;;
       ret false).

Definition take_screenshot (path : string) : M unit :=
  p <- has_attr RPage ;;
  when p (perform E (Screenshot path) ;; print (MsgScreenshot path)).

Definition __enter__ : M unit := start_browser.
Definition __exit__ : M unit := close_browser.

(** main.py, [run_playwright_mode] *)
Definition run_playwright_mode (message : string) (media_paths : option (list string)) : M unit :=
  try_except
    (init ;;
     with_ __enter__ __exit__
       (ok <- login 30 ;;
        if ok then create_post message media_paths ;; ret tt
        else print MsgRunFailed))
    any_exn
    (fun _ => print MsgRunError).

(** [main] of facebook_playwright_bot.py *)
Definition main : M unit :=
  try_except
    (init ;;
     with_ __enter__ __exit__
       (ok <- login 30 ;;
        if ok then
          take_screenshot "facebook_home.png" ;;
          sleep 5000
        else
          print MsgRunFailed ;;
          take_screenshot "login_failed.png"))
    any_exn
    (fun _ => print MsgRunError).

End Bot.
End Playwright.

(** ** facebook_selenium_bot.py *)

Module Selenium.

(** [SELECTORS] *)
Definition email_input : string := "//input[@id='email']".
Definition password_input : string := "//input[@id='pass']".
Definition login_button : string := "//button[@name='login']".
Definition whats_on_your_mind : string := "//span[contains(text(), '무슨 생각')]".
Definition whats_on_your_mind_en : string :=
  "//span[contains(text(), " ++ dq ++ "What's on your mind" ++ dq ++ ")]".
Definition post_box : string := "//div[@role='dialog']//div[@contenteditable='true']".
Definition post_button : string := "//div[@aria-label='게시']".
Definition post_button_en : string := "//div[@aria-label='Post']".
Definition photo_video_button : string := "//div[@aria-label='사진/동영상']".
Definition photo_video_button_en : string := "//div[@aria-label='Photo/video']".
Definition file_input : string := "//input[@type='file'][@accept]".
Definition close_popup : string := "//div[@aria-label='닫기']".
Definition close_popup_en : string := "//div[@aria-label='Close']".
Definition not_now_button : string := "//span[contains(text(), '나중에')]".
Definition not_now_button_en : string := "//span[contains(text(), 'Not Now')]".
Definition save_login_cancel : string := "//div[@aria-label='취소']".
Definition save_login_cancel_en : string := "//div[@aria-label='Cancel']".
Definition save_login_decline : string := "//span[contains(text(), '취소')]".
Definition save_login_decline_en : string := "//span[contains(text(), 'Decline')]".
Definition save_login_not_now : string := "//div[contains(@aria-label, '다음에')]".

(** the queries and the labels of the text tiers *)
Definition button_query : string := "//div[@role='button']".
Definition span_query : string :=
  "//span[contains(text(), '취소') or contains(text(), 'Cancel') or contains(text(), '나중에') or contains(text(), 'Not Now') or contains(text(), '정보 저장 안 함')]".
Definition dismiss_labels : list string :=
  [ "취소"; "cancel"; "decline"; "다음에"; "not now"; "나중에"; "정보 저장 안 함" ].

Section Bot.
Variable E : Env.
Variables email password : string.

Definition _validate_credentials : M unit :=
  if (negb (Py.truthy email) || negb (Py.truthy password))%bool
  then raise ValueError else ret tt.

Definition init : M unit :=
  (fun w => (Ok tt, {| now := now w; log := log w; attrs := [] |})) ;;
  _validate_credentials.

(** [WebDriverWait(driver, seconds).until(EC...)] *)
Definition wait_until (c : cond) (selector : string) (seconds : Z) : M unit :=
  wait_for E c selector (seconds * 1000).

(** [driver.find_element]: no waiting *)
Definition find_element (selector : string) : M unit :=
  perform E (FindElement selector) ;;
  fun w => if located E Present selector (now w)
           then (Ok tt, w) else (Raise NoSuchElement, w).

Definition start_browser : M unit :=
  emit (EvCall "start_browser") ;;
  try_except
    (print MsgBrowserStarting ;;
     perform E LaunchBrowser ;; set_attr RDriver ;;
     perform E AddInitScript ;;
     print MsgBrowserStarted)
    (exn_eqb WebDriverError)
    (fun _ => raise RuntimeError).

Definition close_browser : M unit :=
  emit (EvCall "close_browser") ;;
  d <- has_attr RDriver ;;
  when d (perform E QuitDriver ;; print MsgBrowserClosed).

(** [timeout or Config.DEFAULT_WAIT_TIME] on an argument that defaults to [None] *)
Definition timeout_or_default (timeout : option Z) : Z :=
  match timeout with
  | Some t => Py.or_int t Config.DEFAULT_WAIT_TIME
  | None => Config.DEFAULT_WAIT_TIME
  end.

Definition find_candidate (selector : string) (seconds : Z) : M bool :=
  try_except
    (wait_until Present selector seconds ;; ret true)
    (exn_eqb TimeoutError)
    (fun _ => ret false).

Fixpoint find_loop (selectors : list string) (seconds : Z) : M (option string) :=
  match selectors with
  | [] => ret None
  | selector :: rest =>
      found <- find_candidate selector seconds ;;
      if found then ret (Some selector) else find_loop rest seconds
  end.

(** returns the selector through which the element was found *)
Definition _find_element_with_retry (selectors : list string) (timeout : option Z) : M string :=
  r <- find_loop selectors (timeout_or_default timeout) ;;
  match r with
  | Some selector => ret selector
  | None => raise TimeoutError
  end.

Definition click_candidate (selector : string) (seconds : Z) : M bool :=
  try_except
    (wait_until Clickable selector seconds ;;
     perform E (Click selector) ;;
     ret true)
    (fun e => (exn_eqb TimeoutError e || exn_eqb ClickIntercepted e)%bool)
    (fun _ => ret false).

Fixpoint click_loop (selectors : list string) (seconds : Z) : M bool :=
  match selectors with
  | [] => ret false
  | selector :: rest =>
      clicked <- click_candidate selector seconds ;;
      if clicked then ret true else click_loop rest seconds
  end.

Definition _click_element_with_retry (selectors : list string) (timeout : option Z) : M bool :=
  click_loop selectors (timeout_or_default timeout).

Fixpoint dismiss_each (popup_selectors : list string) : M unit :=
  match popup_selectors with
  | [] => ret tt
  | selector :: rest =>
      try_except
        (wait_until Present selector 2 ;;
         perform E (ScriptClick selector) ;;
         print MsgPopupClosed ;;
         sleep 1000)
        any_exn
        (fun _ => ret tt) ;;
      dismiss_each rest
  end.

Definition _dismiss_popups : M unit :=
  dismiss_each [close_popup; close_popup_en; not_now_button; not_now_button_en].

(** The three loops of [_dismiss_save_login_popup]; [true] is their [return]. *)
Fixpoint scan_buttons (buttons : list node) (i : nat) : M bool :=
  match buttons with
  | [] => ret false
  | btn :: rest =>
      done <- try_except
        (let btn_text := Py.lower (Py.strip (node_text btn)) in
         if Py.mem btn_text dismiss_labels then
           perform E (ScriptClickNth button_query i) ;;
           print MsgSaveLoginCancelled ;;
           sleep 1000 ;;
           ret true
         else ret false)
        any_exn
        (fun _ => ret false) ;;
      if done then ret true else scan_buttons rest (S i)
  end.

Fixpoint scan_spans (spans : list node) (i : nat) : M bool :=
  match spans with
  | [] => ret false
  | span :: rest =>
      done <- try_except
        (perform E (FindAncestor span_query i) ;;
         (if node_in_button span then ret tt else raise NoSuchElement) ;;
         perform E (ScriptClickNth span_query i) ;;
         print MsgSaveLoginCancelled ;;
         sleep 1000 ;;
         ret true)
        any_exn
        (fun _ => ret false) ;;
      if done then ret true else scan_spans rest (S i)
  end.

Fixpoint scan_selectors (save_login_selectors : list string) : M bool :=
  match save_login_selectors with
  | [] => ret false
  | selector :: rest =>
      done <- try_except
        (wait_until Present selector 1 ;;
         perform E (ScriptClick selector) ;;
         print MsgSaveLoginCancelled ;;
         sleep 1000 ;;
         ret true)
        any_exn
        (fun _ => ret false) ;;
      if done then ret true else scan_selectors rest
  end.

Definition save_login_selectors : list string :=
  [ save_login_cancel; save_login_cancel_en; save_login_decline;
    save_login_decline_en; save_login_not_now ].

Definition _dismiss_save_login_popup : M unit :=
  emit (EvCall "_dismiss_save_login_popup") ;;
  print MsgSaveLoginChecking ;;
  done1 <- try_except
    (buttons <- query E button_query ;; scan_buttons buttons 0)
    any_exn (fun _ => ret false) ;;
  if done1 then ret tt else
  done2 <- try_except
    (spans <- query E span_query ;; scan_spans spans 0)
    any_exn (fun _ => ret false) ;;
  if done2 then ret tt else
  done3 <- scan_selectors save_login_selectors ;;
  if done3 then ret tt else
  print MsgSaveLoginNotFound.

(** [login], lines 287-322 *)
Definition login_submit : M unit :=
  print MsgLoginStart ;;
  perform E (Goto Config.FACEBOOK_LOGIN_URL) ;;
  sleep 2000 ;;
  _dismiss_popups ;;
  wait_until Present email_input Config.DEFAULT_WAIT_TIME ;;
  perform E (Clear email_input) ;;
  perform E (Fill email_input email) ;;
  print MsgEmailDone ;;
  find_element password_input ;;
  perform E (Clear password_input) ;;
  perform E (Fill password_input password) ;;
  print MsgPasswordDone ;;
  find_element login_button ;;
  perform E (Click login_button) ;;
  print MsgLoginClicked ;;
  sleep 5000.

(** [login], lines 324-328 *)
Definition login_checkpoint : M unit :=
  url <- page_url E ;;
  if Py.str_in "checkpoint" url then
    print Msg2faNeeded ;;
    sleep 30000
  else ret tt.

(** the test of line 331; [current_url] is read twice *)
Definition login_confirm : M bool :=
  url1 <- page_url E ;;
  url2 <- page_url E ;;
  if (Py.str_in "facebook.com" url1 && negb (Py.str_in "login" url2))%bool then
    print MsgLoginSuccess ;;
    sleep 2000 ;;
    _dismiss_save_login_popup ;;
    _dismiss_popups ;;
    ret true
  else
    print MsgLoginFailed ;;
    ret false.

Definition login : M bool :=
  try_except
    (login_submit ;;
     login_checkpoint ;;
     login_confirm)
    any_exn
    (fun e =>
       print (if exn_eqb TimeoutError e then MsgLoginTimeout else MsgLoginError) ;;
       ret false).

Fixpoint feed_files (media_paths : list string) : M unit :=
  match media_paths with
  | [] => ret tt
  | media_path :: rest =>
      let abs_path := path_resolve E media_path in
      if negb (path_exists E abs_path) then
        print (WarnFileNotFound abs_path) ;;
        feed_files rest
      else
        perform E (SetInputFiles file_input abs_path) ;;
        print (MsgFileUploaded abs_path) ;;
        sleep 2000 ;;
        feed_files rest
  end.

Definition _upload_media (media_paths : list string) : M bool :=
  emit (EvCall "_upload_media") ;;
  try_except
    (_click_element_with_retry [photo_video_button; photo_video_button_en] None ;;
     sleep 2000 ;;
     file_inputs <- query E file_input ;;
     if negb (Py.nonempty file_inputs) then
       print WarnFileInputNotFound ;;
       ret false
     else
       feed_files media_paths ;;
       ret true)
    any_exn
    (fun _ => print MsgUploadError ;; ret false).

Definition given (paths : option (list string)) : bool :=
  match paths with Some l => Py.nonempty l | None => false end.

Definition paths_of (paths : option (list string)) : list string :=
  match paths with Some l => l | None => [] end.

(** [create_post], from the text entry on (lines 389-414) *)
Definition write_and_publish (message : string) : M bool :=
  text_input <- _find_element_with_retry [post_box] None ;;
  perform E (Click text_input) ;;
  sleep 1000 ;;
  perform E (Fill text_input message) ;;
  print MsgMessageDone ;;
  sleep 2000 ;;
  post_clicked <- _click_element_with_retry [post_button; post_button_en] None ;;
  if post_clicked then
    print MsgPosted ;;
    sleep 3000 ;;
    ret true
  else
    print MsgPostButtonNotFound ;;
    ret false.

(** [create_post], lines 366-377: up to the click on the composer *)
Definition open_composer : M bool :=
  print MsgPostStart ;;
  perform E (Goto Config.FACEBOOK_HOME_URL) ;;
  sleep 3000 ;;
  _dismiss_popups ;;
  _click_element_with_retry [whats_on_your_mind; whats_on_your_mind_en] None.

Definition create_post (message : string) (media_paths : option (list string)) : M bool :=
  try_except
    (post_box_clicked <- open_composer ;;
     if negb post_box_clicked then
       print MsgComposerNotFound ;;
       ret false
     else
       sleep 2000 ;;
       (if given media_paths
        then _upload_media (paths_of media_paths) ;; ret tt
        else ret tt) ;;
       write_and_publish message)
    any_exn
    (fun e =>
       print (if exn_eqb TimeoutError e then MsgPostTimeout else MsgPostError) ;;
       ret false).

Definition __enter__ : M unit := start_browser.
Definition __exit__ : M unit := close_browser.

(** main.py, [run_selenium_mode] *)
Definition run_selenium_mode (message : string) (media_paths : option (list string)) : M unit :=
  try_except
    (init ;;
     with_ __enter__ __exit__
       (ok <- login ;;
        if ok then create_post message media_paths ;; ret tt
        else print MsgRunFailed))
    any_exn
    (fun _ => print MsgRunError).

End Bot.
End Selenium.

(** ** facebook_api_poster.py: the extensions [post_image] and [post_video] accept *)

Module Api.
Definition image_formats : list string :=
  [ ".jpg"; ".jpeg"; ".png"; ".gif"; ".bmp"; ".webp" ].
Definition supported_formats : list string :=
  [ ".mp4"; ".mov"; ".avi"; ".wmv"; ".flv"; ".mkv"; ".webm" ].
End Api.

(** * Facts about the model *)

Local Open Scope list_scope.

(** ** Timed waits *)

Lemma poll_n_never (c : Z -> bool) (p : Z) (n : nat) (t : Z) :
  (forall u, c u = false) ->
  poll_n c p n t = (false, t + p * Z.of_nat n).
Proof.
  intros Hc. revert t.
  induction n as [|n IH]; intros t.
  - simpl. f_equal. lia.
  - cbn [poll_n]. rewrite Hc, IH. f_equal. lia.
Qed.

Lemma poll_n_time (c : Z -> bool) (p : Z) (n : nat) (t : Z) :
  0 <= p ->
  t <= snd (poll_n c p n t) <= t + p * Z.of_nat n.
Proof.
  intros Hp. revert t.
  induction n as [|n IH]; intros t.
  - simpl. lia.
  - cbn [poll_n]. rewrite Nat2Z.inj_succ. destruct (c t).
    + cbn [snd]. nia.
    + specialize (IH (t + p)). nia.
Qed.

Lemma poll_n_found_time (c : Z -> bool) (p : Z) (n : nat) (t : Z) :
  0 <= p ->
  fst (poll_n c p n t) = true ->
  snd (poll_n c p n t) <= t + p * (Z.of_nat n - 1).
Proof.
  intros Hp. revert t.
  induction n as [|n IH]; intros t.
  - simpl. discriminate.
  - cbn [poll_n]. rewrite Nat2Z.inj_succ. destruct (c t).
    + cbn [snd]. nia.
    + intros H. specialize (IH (t + p) H). nia.
Qed.

Lemma poll_n_found_holds (c : Z -> bool) (p : Z) (n : nat) (t : Z) :
  fst (poll_n c p n t) = true ->
  c (snd (poll_n c p n t)) = true.
Proof.
  revert t.
  induction n as [|n IH]; intros t.
  - simpl. discriminate.
  - cbn [poll_n]. destruct (c t) eqn:Hc.
    + intros _. exact Hc.
    + apply IH.
Qed.

Lemma poll_n_now (c : Z -> bool) (p : Z) (n : nat) (t : Z) :
  c t = true -> poll_n c p (S n) t = (true, t).
Proof. intros H. cbn [poll_n]. now rewrite H. Qed.

(** A wait that times out lasts more than the timeout and at most one
    polling interval more. *)
Lemma polls_span (T p : Z) :
  0 < p -> 0 <= T ->
  T < p * Z.of_nat (polls T p) <= T + p.
Proof.
  intros Hp HT. unfold polls.
  rewrite Nat2Z.inj_succ, Z2Nat.id by (apply Z.div_pos; lia).
  pose proof (Z.mul_div_le T p Hp).
  pose proof (Z.mul_succ_div_gt T p Hp).
  lia.
Qed.

Lemma polls_found_bound (T p : Z) :
  0 < p -> 0 <= T -> p * (Z.of_nat (polls T p) - 1) <= T.
Proof.
  intros Hp HT. unfold polls.
  rewrite Nat2Z.inj_succ, Z2Nat.id by (apply Z.div_pos; lia).
  pose proof (Z.mul_div_le T p Hp). lia.
Qed.

(** How long a wait of timeout [T] that times out lasts. *)
Definition span (E : Env) (T : Z) : Z := step E * Z.of_nat (polls T (step E)).

Lemma step_pos (E : Env) : 0 < step E.
Proof. unfold step. lia. Qed.

Lemma span_bounds (E : Env) (T : Z) : 0 <= T -> T < span E T <= T + step E.
Proof. intros HT. unfold span. apply polls_span; [apply step_pos | exact HT]. Qed.

(** ** The candidate loops

    [_try_click] and [_click_element_with_retry] are the same loop, up to the
    condition they wait for and the exceptions their handler lets through. *)

Section Probe.
Variable E : Env.
Variable c : cond.
Variable handled : exn -> bool.

Definition probe (selector : string) (timeout : Z) : M bool :=
  try_except
    (wait_for E c selector timeout ;;
     perform E (Click selector) ;;
     ret true)
    handled
    (fun _ => ret false).

Fixpoint probe_loop (selectors : list string) (timeout : Z) : M bool :=
  match selectors with
  | [] => ret false
  | selector :: rest =>
      clicked <- probe selector timeout ;;
      if clicked then ret true else probe_loop rest timeout
  end.

Hypothesis handles_timeout : handled TimeoutError = true.

(** What one turn of the loop does, case by case. *)
Lemma probe_run (s : string) (T : Z) (w : World) :
  probe s T w =
  let r := poll_n (located E c s) (step E) (polls T (step E)) (now w) in
  let w1 := at_time (snd r) (record (EvWait c s T) w) in
  if fst r then
    let w2 := record (EvAct (Click s)) w1 in
    match raises E (Click s) (snd r) with
    | None => (Ok true, w2)
    | Some e => if handled e then (Ok false, w2) else (Raise e, w2)
    end
  else (Ok false, w1).
Proof.
  unfold probe, try_except, bind, wait_for, perform, ret.
  destruct (poll_n (located E c s) (step E) (polls T (step E)) (now w)) as [found t].
  cbn [fst snd]. destruct found; cbn.
  - destruct (raises E (Click s) t) as [e|]; reflexivity.
  - now rewrite handles_timeout.
Qed.

Lemma probe_time (s : string) (T : Z) (w : World) :
  0 <= T ->
  now w <= now (snd (probe s T w)) <= now w + (T + step E).
Proof.
  intros HT. rewrite probe_run. cbv zeta.
  pose proof (poll_n_time (located E c s) (step E) (polls T (step E)) (now w)
                (Z.lt_le_incl _ _ (step_pos E))) as Ht.
  pose proof (span_bounds E T HT) as Hs. unfold span in Hs.
  destruct (fst (poll_n (located E c s) (step E) (polls T (step E)) (now w))).
  - destruct (raises E (Click s) _) as [e|]; [destruct (handled e)|];
      cbn [snd now at_time record]; lia.
  - cbn [snd now at_time record]. lia.
Qed.

(** The whole loop takes at most one full wait per candidate. *)
Lemma probe_loop_time (sels : list string) (T : Z) (w : World) :
  0 <= T ->
  now w <= now (snd (probe_loop sels T w))
        <= now w + Z.of_nat (List.length sels) * (T + step E).
Proof.
  intros HT. revert w.
  induction sels as [|s rest IH]; intros w.
  - cbn. lia.
  - cbn [probe_loop List.length]. rewrite Nat2Z.inj_succ. unfold bind.
    pose proof (probe_time s T w HT) as H1.
    pose proof (step_pos E) as Hp.
    pose proof (Nat2Z.is_nonneg (List.length rest)) as Hn.
    set (n := Z.of_nat (List.length rest)) in *.
    set (A := T + step E) in *.
    assert (0 <= A) by (subst A; lia).
    destruct (probe s T w) as [[[|]|e] w1]; cbn [snd] in H1.
    + unfold ret; cbn [snd]. nia.
    + specialize (IH w1). nia.
    + cbn [snd]. nia.
Qed.

(** The world after [sels] have all timed out. *)
Definition timed_out (sels : list string) (T : Z) (w : World) : World :=
  {| now := now w + Z.of_nat (List.length sels) * span E T;
     log := log w ++ map (fun s => EvWait c s T) sels;
     attrs := attrs w |}.

Lemma probe_loop_app_none (pre rest : list string) (T : Z) (w : World) :
  (forall s, In s pre -> forall t, located E c s t = false) ->
  probe_loop (pre ++ rest) T w = probe_loop rest T (timed_out pre T w).
Proof.
  revert w.
  induction pre as [|s pre IH]; intros w Hpre.
  - cbn [app]. f_equal. unfold timed_out. destruct w as [t l a]. cbn.
    f_equal; [lia | now rewrite app_nil_r].
  - cbn [app probe_loop]. unfold bind. rewrite probe_run. cbv zeta.
    rewrite poll_n_never by (apply Hpre; now left). cbn [fst snd].
    rewrite IH by (intros s' Hs'; apply Hpre; now right).
    f_equal. unfold timed_out, at_time, record, span. cbn.
    f_equal; [lia | now rewrite <- app_assoc].
Qed.

(** No candidate ever matches: every candidate is waited for in full. *)
Lemma probe_loop_none (sels : list string) (T : Z) (w : World) :
  (forall s, In s sels -> forall t, located E c s t = false) ->
  probe_loop sels T w = (Ok false, timed_out sels T w).
Proof.
  intros H. rewrite <- (app_nil_r sels) at 1.
  now rewrite probe_loop_app_none.
Qed.

(** The first candidate that matches is clicked, and when the click goes
    through nothing after it is looked at. *)
Lemma probe_loop_first_match (pre post : list string) (s : string) (T t' : Z) (w : World) :
  (forall s', In s' pre -> forall t, located E c s' t = false) ->
  poll_n (located E c s) (step E) (polls T (step E))
         (now w + Z.of_nat (List.length pre) * span E T) = (true, t') ->
  raises E (Click s) t' = None ->
  probe_loop (pre ++ s :: post) T w =
  (Ok true,
   {| now := t';
      log := log w ++ map (fun s' => EvWait c s' T) pre
                   ++ [EvWait c s T; EvAct (Click s)];
      attrs := attrs w |}).
Proof.
  intros Hpre Hs Hclick.
  rewrite probe_loop_app_none by exact Hpre.
  cbn [probe_loop]. unfold bind. rewrite probe_run. cbv zeta.
  cbn [timed_out now]. rewrite Hs. cbn [fst snd]. rewrite Hclick.
  unfold ret, record, at_time, timed_out. cbn [now log attrs].
  f_equal. f_equal. rewrite <- !app_assoc. reflexivity.
Qed.

End Probe.

Lemma try_click_is_probe_loop (E : Env) (sels : list string) (T : Z) :
  Playwright._try_click E sels T = probe_loop E Visible (exn_eqb TimeoutError) sels T.
Proof. induction sels as [|s rest IH]; cbn; [reflexivity | now rewrite IH]. Qed.

Definition selenium_handled (e : exn) : bool :=
  (exn_eqb TimeoutError e || exn_eqb ClickIntercepted e)%bool.

Lemma click_loop_is_probe_loop (E : Env) (sels : list string) (secs : Z) :
  Selenium.click_loop E sels secs = probe_loop E Clickable selenium_handled sels (secs * 1000).
Proof. induction sels as [|s rest IH]; cbn; [reflexivity | now rewrite IH]. Qed.

Lemma click_with_retry_is_probe_loop (E : Env) (sels : list string) (timeout : option Z) :
  Selenium._click_element_with_retry E sels timeout =
  probe_loop E Clickable selenium_handled sels
             (Selenium.timeout_or_default timeout * 1000).
Proof. unfold Selenium._click_element_with_retry. apply click_loop_is_probe_loop. Qed.

(** ** What a computation adds to the log

    [adds P m]: running [m] appends to the log only events that satisfy [P]. *)

Definition extends (P : event -> Prop) (w w' : World) : Prop :=
  exists l, log w' = log w ++ l /\ Forall P l.

Definition adds (P : event -> Prop) {A} (m : M A) : Prop :=
  forall w, extends P w (snd (m w)).

Lemma extends_refl P w : extends P w w.
Proof. exists []. split; [now rewrite app_nil_r | constructor]. Qed.

Lemma extends_trans P w1 w2 w3 :
  extends P w1 w2 -> extends P w2 w3 -> extends P w1 w3.
Proof.
  intros (l & Hl & Hf) (l' & Hl' & Hf').
  exists (l ++ l'). split.
  - now rewrite Hl', Hl, app_assoc.
  - apply Forall_app. now split.
Qed.

Lemma extends_record P e w : P e -> extends P w (record e w).
Proof. intros He. exists [e]. split; [reflexivity | now constructor]. Qed.

Lemma extends_weaken (P Q : event -> Prop) w w' :
  (forall e, P e -> Q e) -> extends P w w' -> extends Q w w'.
Proof.
  intros H (l & Hl & Hf). exists l. split; [exact Hl|].
  eapply Forall_impl; eauto.
Qed.

Lemma adds_weaken (P Q : event -> Prop) {A} (m : M A) :
  (forall e, P e -> Q e) -> adds P m -> adds Q m.
Proof. intros H Hm w. eapply extends_weaken; eauto. Qed.

Section Adds.
Variable P : event -> Prop.

Lemma adds_ret {A} (a : A) : adds P (ret a).
Proof. intros w. apply extends_refl. Qed.

Lemma adds_raise {A} (e : exn) : adds P (@raise A e).
Proof. intros w. apply extends_refl. Qed.

Lemma adds_bind {A B} (m : M A) (k : A -> M B) :
  adds P m -> (forall a, adds P (k a)) -> adds P (bind m k).
Proof.
  intros Hm Hk w. unfold bind. specialize (Hm w).
  destruct (m w) as [[a|e] w1]; cbn [snd] in *.
  - eapply extends_trans; [exact Hm | apply Hk].
  - exact Hm.
Qed.

Lemma adds_try_except {A} (m : M A) (handled : exn -> bool) (h : exn -> M A) :
  adds P m -> (forall e, adds P (h e)) -> adds P (try_except m handled h).
Proof.
  intros Hm Hh w. unfold try_except. specialize (Hm w).
  destruct (m w) as [[a|e] w1]; cbn [snd] in *.
  - exact Hm.
  - destruct (handled e); [|exact Hm].
    eapply extends_trans; [exact Hm | apply Hh].
Qed.

Lemma adds_emit (e : event) : P e -> adds P (emit e).
Proof. intros He w. now apply extends_record. Qed.

Lemma adds_print (m : message) : P (EvPrint m) -> adds P (print m).
Proof. apply adds_emit. Qed.

Lemma adds_sleep (ms : Z) : P (EvSleep ms) -> adds P (sleep ms).
Proof.
  intros He w. cbn. exists [EvSleep ms].
  split; [reflexivity | now constructor].
Qed.

Lemma adds_perform (E : Env) (a : action) : P (EvAct a) -> adds P (perform E a).
Proof.
  intros He w. unfold perform.
  destruct (raises E a (now w)); cbn [snd]; now apply extends_record.
Qed.

Lemma adds_wait_for (E : Env) (c : cond) (s : string) (T : Z) :
  P (EvWait c s T) -> adds P (wait_for E c s T).
Proof.
  intros He w. unfold wait_for.
  destruct (poll_n _ _ _ _) as [found t].
  assert (extends P w (at_time t (record (EvWait c s T) w))).
  { exists [EvWait c s T]. split; [reflexivity | now constructor]. }
  now destruct found.
Qed.

Lemma adds_page_url (E : Env) : adds P (page_url E).
Proof. intros w. apply extends_refl. Qed.

Lemma adds_has_attr (r : resource) : adds P (has_attr r).
Proof. intros w. apply extends_refl. Qed.

Lemma adds_set_attr (r : resource) : adds P (set_attr r).
Proof. intros w. exists []. cbn. split; [now rewrite app_nil_r | constructor]. Qed.

Lemma adds_query (E : Env) (q : string) : P (EvAct (Query q)) -> adds P (query E q).
Proof.
  intros He. unfold query. apply adds_bind; [now apply adds_perform|].
  intros _ w. apply extends_refl.
Qed.

Lemma adds_when (b : bool) (m : M unit) : adds P m -> adds P (when b m).
Proof. intros H. destruct b; [exact H | apply adds_ret]. Qed.

Lemma adds_if {A} (b : bool) (m1 m2 : M A) :
  adds P m1 -> adds P m2 -> adds P (if b then m1 else m2).
Proof. now destruct b. Qed.

End Adds.

(** Goals [adds P m] for straight-line code are settled by following the
    structure of [m]; [tac] settles the side conditions [P e]. *)
Ltac adds_step tac :=
  first
    [ apply adds_ret | apply adds_raise
    | apply adds_bind; [|intros ?]
    | apply adds_try_except; [|intros ?]
    | apply adds_print; tac | apply adds_emit; tac | apply adds_sleep; tac
    | apply adds_perform; tac | apply adds_wait_for; tac
    | apply adds_page_url | apply adds_has_attr | apply adds_set_attr
    | apply adds_query; tac
    | apply adds_when | apply adds_if ].

Ltac adds_auto tac := repeat (adds_step tac).

(** Every event but the entry of a method, the feeding of a file and the
    warning about a missing file. *)
Definition plain (e : event) : Prop :=
  match e with
  | EvCall _ => False
  | EvAct (SetInputFiles _ _) => False
  | EvPrint (WarnFileNotFound _) => False
  | _ => True
  end.

Lemma adds_probe_loop (P : event -> Prop) E c handled sels T :
  (forall s, In s sels -> P (EvWait c s T)) ->
  (forall s, In s sels -> P (EvAct (Click s))) ->
  adds P (probe_loop E c handled sels T).
Proof.
  induction sels as [|s rest IH]; intros Hw Hc; cbn [probe_loop].
  - apply adds_ret.
  - apply adds_bind.
    + unfold probe.
      adds_auto ltac:(first [apply Hw; now left | apply Hc; now left]).
    + intros b. apply adds_if; [apply adds_ret|].
      apply IH; intros s' Hs'; [apply Hw | apply Hc]; now right.
Qed.

(** *** The Playwright bot *)

Section PlaywrightAdds.
Variable P : event -> Prop.
Hypothesis P_plain : forall e, plain e -> P e.
Variable E : Env.
Variables email password : string.

Ltac plain_tac :=
  apply P_plain;
  first [ exact I
        | match goal with |- context [if ?b then _ else _] => destruct b end; exact I ].

Lemma pw_adds_try_click sels T : adds P (Playwright._try_click E sels T).
Proof.
  rewrite try_click_is_probe_loop.
  apply adds_probe_loop; intros; plain_tac.
Qed.

Lemma pw_adds_dismiss_popups : adds P (Playwright._dismiss_popups E).
Proof.
  unfold Playwright._dismiss_popups.
  adds_auto plain_tac; try apply pw_adds_try_click.
Qed.

Lemma pw_adds_scan_buttons buttons i : adds P (Playwright.scan_buttons E buttons i).
Proof.
  revert i. induction buttons as [|b rest IH]; intros i; cbn [Playwright.scan_buttons].
  - apply adds_ret.
  - apply adds_if; [adds_auto plain_tac | apply IH].
Qed.

Lemma pw_adds_dismiss_save_login_popup :
  P (EvCall "_dismiss_save_login_popup") ->
  adds P (Playwright._dismiss_save_login_popup E).
Proof.
  intros Hc. unfold Playwright._dismiss_save_login_popup.
  apply adds_bind; [now apply adds_emit|]. intros _.
  apply adds_bind; [apply adds_sleep; plain_tac|]. intros _.
  apply adds_bind; [apply pw_adds_try_click|]. intros b.
  apply adds_if; [apply adds_print; plain_tac|].
  apply adds_try_except; [|intros; apply adds_ret].
  apply adds_bind; [apply adds_query; plain_tac|]. intros l.
  apply pw_adds_scan_buttons.
Qed.

Lemma pw_adds_login_submit : adds P (Playwright.login_submit E email password).
Proof.
  unfold Playwright.login_submit.
  adds_auto plain_tac; try apply pw_adds_dismiss_popups.
Qed.

Lemma pw_adds_checkpoint_loop T i n : adds P (Playwright.checkpoint_loop E T i n).
Proof.
  revert i. induction n as [|n IH]; intros i; cbn [Playwright.checkpoint_loop].
  - apply adds_ret.
  - apply adds_bind; [apply adds_page_url|]. intros url.
    apply adds_if; [apply adds_ret|].
    adds_auto plain_tac. apply IH.
Qed.

Lemma pw_adds_login_checkpoint T : adds P (Playwright.login_checkpoint E T).
Proof.
  unfold Playwright.login_checkpoint.
  apply adds_bind; [apply adds_page_url|]. intros url.
  apply adds_if; [|apply adds_ret].
  apply adds_bind; [apply adds_print; plain_tac|]. intros _.
  apply adds_try_except; [apply pw_adds_checkpoint_loop|].
  intros _. apply adds_sleep; plain_tac.
Qed.

Lemma pw_adds_login_confirm :
  P (EvCall "_dismiss_save_login_popup") ->
  adds P (Playwright.login_confirm E).
Proof.
  intros Hc. unfold Playwright.login_confirm.
  apply adds_bind; [apply adds_page_url|]. intros url.
  apply adds_if; [|adds_auto plain_tac].
  apply adds_bind; [apply adds_print; plain_tac|]. intros _.
  apply adds_bind; [apply adds_sleep; plain_tac|]. intros _.
  apply adds_bind; [now apply pw_adds_dismiss_save_login_popup|]. intros _.
  apply adds_bind; [apply pw_adds_dismiss_popups|]. intros _.
  apply adds_ret.
Qed.

Lemma pw_adds_login T :
  P (EvCall "_dismiss_save_login_popup") ->
  adds P (Playwright.login E email password T).
Proof.
  intros Hc. unfold Playwright.login.
  apply adds_try_except; [|intros e; adds_auto plain_tac].
  apply adds_bind; [apply pw_adds_login_submit|]. intros _.
  apply adds_bind; [apply pw_adds_login_checkpoint|]. intros _.
  now apply pw_adds_login_confirm.
Qed.

(** what the attachment sub-flow adds besides *)
Definition P_files : Prop :=
  (forall s p, P (EvAct (SetInputFiles s p)))
  /\ (forall p, P (EvPrint (WarnFileNotFound p))).

Lemma pw_adds_feed_files paths :
  P_files -> adds P (Playwright.feed_files E paths).
Proof.
  intros [Hf Hw]. induction paths as [|p rest IH]; cbn [Playwright.feed_files].
  - apply adds_ret.
  - apply adds_if;
      adds_auto ltac:(first [apply Hf | apply Hw | plain_tac]); apply IH.
Qed.

Lemma pw_adds_upload_images paths :
  P_files ->
  P (EvCall "_upload_images") ->
  adds P (Playwright._upload_images E paths).
Proof.
  intros Hfiles Hc. unfold Playwright._upload_images.
  apply adds_bind; [now apply adds_emit|]. intros _.
  apply adds_try_except; [|intros e; adds_auto plain_tac].
  apply adds_bind; [apply pw_adds_try_click|]. intros b.
  apply adds_if; [adds_auto plain_tac|].
  apply adds_bind; [apply adds_sleep; plain_tac|]. intros _.
  apply adds_bind; [apply adds_wait_for; plain_tac|]. intros _.
  apply adds_bind; [now apply pw_adds_feed_files|]. intros _.
  apply adds_ret.
Qed.

Lemma pw_adds_write_and_publish message :
  adds P (Playwright.write_and_publish E message).
Proof.
  unfold Playwright.write_and_publish.
  do 6 (apply adds_bind; [adds_auto plain_tac|]; intros _).
  apply adds_bind; [apply pw_adds_try_click|]. intros b.
  apply adds_if; adds_auto plain_tac.
Qed.

Lemma pw_adds_open_composer : adds P (Playwright.open_composer E).
Proof.
  unfold Playwright.open_composer.
  do 4 (apply adds_bind; [adds_auto plain_tac|]; intros _).
  apply adds_bind; [apply pw_adds_dismiss_popups|]. intros _.
  apply pw_adds_try_click.
Qed.

Lemma pw_adds_create_post message paths :
  P_files ->
  P (EvCall "_upload_images") ->
  adds P (Playwright.create_post E message paths).
Proof.
  intros Hfiles Hc. unfold Playwright.create_post.
  apply adds_try_except; [|intros e; adds_auto plain_tac].
  apply adds_bind; [apply pw_adds_open_composer|]. intros b.
  apply adds_if; [adds_auto plain_tac|].
  apply adds_bind; [apply adds_sleep; plain_tac|]. intros _.
  apply adds_bind.
  - apply adds_if; [|apply adds_ret].
    apply adds_bind; [now apply pw_adds_upload_images | intros; apply adds_ret].
  - intros _. apply pw_adds_write_and_publish.
Qed.

Lemma pw_adds_take_screenshot path : adds P (Playwright.take_screenshot E path).
Proof. unfold Playwright.take_screenshot. adds_auto plain_tac. Qed.

End PlaywrightAdds.

(** *** The selenium bot *)

Section SeleniumAdds.
Variable P : event -> Prop.
Hypothesis P_plain : forall e, plain e -> P e.
Variable E : Env.
Variables email password : string.

Ltac plain_tac :=
  apply P_plain;
  first [ exact I
        | match goal with |- context [if ?b then _ else _] => destruct b end; exact I ].

Lemma se_adds_find_element s : adds P (Selenium.find_element E s).
Proof.
  unfold Selenium.find_element.
  apply adds_bind; [apply adds_perform; plain_tac|]. intros _ w.
  destruct (located E Present s (now w)); apply extends_refl.
Qed.

Lemma se_adds_click_with_retry sels timeout :
  adds P (Selenium._click_element_with_retry E sels timeout).
Proof.
  rewrite click_with_retry_is_probe_loop.
  apply adds_probe_loop; intros; plain_tac.
Qed.

Lemma se_adds_find_loop sels secs : adds P (Selenium.find_loop E sels secs).
Proof.
  induction sels as [|s rest IH]; cbn [Selenium.find_loop].
  - apply adds_ret.
  - apply adds_bind.
    + unfold Selenium.find_candidate, Selenium.wait_until. adds_auto plain_tac.
    + intros b. apply adds_if; [apply adds_ret | apply IH].
Qed.

Lemma se_adds_find_with_retry sels timeout :
  adds P (Selenium._find_element_with_retry E sels timeout).
Proof.
  unfold Selenium._find_element_with_retry.
  apply adds_bind; [apply se_adds_find_loop|].
  intros [s|]; [apply adds_ret | apply adds_raise].
Qed.

Lemma se_adds_dismiss_each sels : adds P (Selenium.dismiss_each E sels).
Proof.
  induction sels as [|s rest IH]; cbn [Selenium.dismiss_each].
  - apply adds_ret.
  - apply adds_bind; [|intros _; apply IH].
    unfold Selenium.wait_until. adds_auto plain_tac.
Qed.

Lemma se_adds_dismiss_popups : adds P (Selenium._dismiss_popups E).
Proof. apply se_adds_dismiss_each. Qed.

Lemma se_adds_scan_buttons buttons i : adds P (Selenium.scan_buttons E buttons i).
Proof.
  revert i. induction buttons as [|b rest IH]; intros i; cbn [Selenium.scan_buttons].
  - apply adds_ret.
  - apply adds_bind; [|intros d; apply adds_if; [apply adds_ret | apply IH]].
    apply adds_try_except; [|intros; apply adds_ret].
    apply adds_if; adds_auto plain_tac.
Qed.

Lemma se_adds_scan_spans spans i : adds P (Selenium.scan_spans E spans i).
Proof.
  revert i. induction spans as [|b rest IH]; intros i; cbn [Selenium.scan_spans].
  - apply adds_ret.
  - apply adds_bind; [|intros d; apply adds_if; [apply adds_ret | apply IH]].
    apply adds_try_except; [|intros; apply adds_ret].
    apply adds_bind; [apply adds_perform; plain_tac|]. intros _.
    apply adds_bind; [apply adds_if; [apply adds_ret | apply adds_raise]|]. intros _.
    adds_auto plain_tac.
Qed.

Lemma se_adds_scan_selectors sels : adds P (Selenium.scan_selectors E sels).
Proof.
  induction sels as [|s rest IH]; cbn [Selenium.scan_selectors].
  - apply adds_ret.
  - apply adds_bind; [|intros d; apply adds_if; [apply adds_ret | apply IH]].
    unfold Selenium.wait_until. adds_auto plain_tac.
Qed.

Lemma se_adds_dismiss_save_login_popup :
  P (EvCall "_dismiss_save_login_popup") ->
  adds P (Selenium._dismiss_save_login_popup E).
Proof.
  intros Hc. unfold Selenium._dismiss_save_login_popup.
  apply adds_bind; [now apply adds_emit|]. intros _.
  apply adds_bind; [apply adds_print; plain_tac|]. intros _.
  apply adds_bind.
  { apply adds_try_except; [|intros; apply adds_ret].
    apply adds_bind; [apply adds_query; plain_tac|]. intros l.
    apply se_adds_scan_buttons. }
  intros d1. apply adds_if; [apply adds_ret|].
  apply adds_bind.
  { apply adds_try_except; [|intros; apply adds_ret].
    apply adds_bind; [apply adds_query; plain_tac|]. intros l.
    apply se_adds_scan_spans. }
  intros d2. apply adds_if; [apply adds_ret|].
  apply adds_bind; [apply se_adds_scan_selectors|].
  intros d3. apply adds_if; [apply adds_ret | apply adds_print; plain_tac].
Qed.

Lemma se_adds_login_submit : adds P (Selenium.login_submit E email password).
Proof.
  unfold Selenium.login_submit, Selenium.wait_until.
  do 3 (apply adds_bind; [adds_auto plain_tac|]; intros _).
  apply adds_bind; [apply se_adds_dismiss_popups|]. intros _.
  do 4 (apply adds_bind; [adds_auto plain_tac|]; intros _).
  apply adds_bind; [apply se_adds_find_element|]. intros _.
  do 3 (apply adds_bind; [adds_auto plain_tac|]; intros _).
  apply adds_bind; [apply se_adds_find_element|]. intros _.
  adds_auto plain_tac.
Qed.

Lemma se_adds_login_checkpoint : adds P (Selenium.login_checkpoint E).
Proof.
  unfold Selenium.login_checkpoint.
  apply adds_bind; [apply adds_page_url|]. intros url.
  apply adds_if; adds_auto plain_tac.
Qed.

Lemma se_adds_login_confirm :
  P (EvCall "_dismiss_save_login_popup") ->
  adds P (Selenium.login_confirm E).
Proof.
  intros Hc. unfold Selenium.login_confirm.
  apply adds_bind; [apply adds_page_url|]. intros url1.
  apply adds_bind; [apply adds_page_url|]. intros url2.
  apply adds_if; [|adds_auto plain_tac].
  apply adds_bind; [apply adds_print; plain_tac|]. intros _.
  apply adds_bind; [apply adds_sleep; plain_tac|]. intros _.
  apply adds_bind; [now apply se_adds_dismiss_save_login_popup|]. intros _.
  apply adds_bind; [apply se_adds_dismiss_popups|]. intros _.
  apply adds_ret.
Qed.

Lemma se_adds_login :
  P (EvCall "_dismiss_save_login_popup") ->
  adds P (Selenium.login E email password).
Proof.
  intros Hc. unfold Selenium.login.
  apply adds_try_except; [|intros e; adds_auto plain_tac].
  apply adds_bind; [apply se_adds_login_submit|]. intros _.
  apply adds_bind; [apply se_adds_login_checkpoint|]. intros _.
  now apply se_adds_login_confirm.
Qed.

Lemma se_adds_feed_files paths :
  P_files P -> adds P (Selenium.feed_files E paths).
Proof.
  intros [Hf Hw]. induction paths as [|p rest IH]; cbn [Selenium.feed_files].
  - apply adds_ret.
  - apply adds_if;
      adds_auto ltac:(first [apply Hf | apply Hw | plain_tac]); apply IH.
Qed.

Lemma se_adds_upload_media paths :
  P_files P ->
  P (EvCall "_upload_media") ->
  adds P (Selenium._upload_media E paths).
Proof.
  intros Hfiles Hc. unfold Selenium._upload_media.
  apply adds_bind; [now apply adds_emit|]. intros _.
  apply adds_try_except; [|intros e; adds_auto plain_tac].
  apply adds_bind; [apply se_adds_click_with_retry|]. intros b.
  apply adds_bind; [apply adds_sleep; plain_tac|]. intros _.
  apply adds_bind; [apply adds_query; plain_tac|]. intros l.
  apply adds_if; [adds_auto plain_tac|].
  apply adds_bind; [now apply se_adds_feed_files|]. intros _.
  apply adds_ret.
Qed.

Lemma se_adds_write_and_publish message :
  adds P (Selenium.write_and_publish E message).
Proof.
  unfold Selenium.write_and_publish.
  apply adds_bind; [apply se_adds_find_with_retry|]. intros s.
  do 5 (apply adds_bind; [adds_auto plain_tac|]; intros _).
  apply adds_bind; [apply se_adds_click_with_retry|]. intros b.
  apply adds_if; adds_auto plain_tac.
Qed.

Lemma se_adds_open_composer : adds P (Selenium.open_composer E).
Proof.
  unfold Selenium.open_composer.
  do 3 (apply adds_bind; [adds_auto plain_tac|]; intros _).
  apply adds_bind; [apply se_adds_dismiss_popups|]. intros _.
  apply se_adds_click_with_retry.
Qed.

Lemma se_adds_create_post message paths :
  P_files P ->
  P (EvCall "_upload_media") ->
  adds P (Selenium.create_post E message paths).
Proof.
  intros Hfiles Hc. unfold Selenium.create_post.
  apply adds_try_except; [|intros e; adds_auto plain_tac].
  apply adds_bind; [apply se_adds_open_composer|]. intros b.
  apply adds_if; [adds_auto plain_tac|].
  apply adds_bind; [apply adds_sleep; plain_tac|]. intros _.
  apply adds_bind.
  - apply adds_if; [|apply adds_ret].
    apply adds_bind; [now apply se_adds_upload_media | intros; apply adds_ret].
  - intros _. apply se_adds_write_and_publish.
Qed.

End SeleniumAdds.

(** * Concrete pages *)

(** A page on the home location where nothing is ever found, no library
    call raises, and no file exists. *)
Definition blank : Env :=
  {| poll := 500;
     url_at := fun _ => "https://www.facebook.com/";
     located := fun _ _ _ => false;
     nodes_at := fun _ _ => [];
     raises := fun _ _ => None;
     path_resolve := fun p => p;
     path_exists := fun _ => false |}.

(** [blank], with exactly the selectors of [shown] found at all times. *)
Definition showing (shown : list string) : Env :=
  {| poll := 500;
     url_at := url_at blank;
     located := fun _ s _ => Py.mem s shown;
     nodes_at := nodes_at blank;
     raises := raises blank;
     path_resolve := path_resolve blank;
     path_exists := path_exists blank |}.

(** Every selector is found, and the click on [blocked] is intercepted. *)
Definition intercepting (blocked : string) : Env :=
  {| poll := 500;
     url_at := url_at blank;
     located := fun _ _ _ => true;
     nodes_at := nodes_at blank;
     raises := fun a _ =>
       match a with
       | Click s => if String.eqb s blocked then Some ClickIntercepted else None
       | _ => None
       end;
     path_resolve := path_resolve blank;
     path_exists := path_exists blank |}.

(** * The element resolver *)

(** C2, as stated, fails: with four candidates that never match and a
    timeout of 10 s, [_try_click] returns after 42 s, not within the timeout
    plus one polling interval. *)
Lemma resolver_time_counterexample :
  now (snd (Playwright._try_click blank Playwright.post_button 10000 w0)) - now w0 = 42000
  /\ ~ (42000 <= 10000 + step blank).
Proof.
  split.
  - vm_compute. reflexivity.
  - unfold step. cbn. lia.
Qed.

(** No click raises a timeout.  A call into the library takes no time on the
    clock of the model, so the time a click spends before it gives up with a
    timeout is not counted: the bounds on durations are stated for the runs in
    which no click times out. *)
Definition no_click_timeout (E : Env) : Prop :=
  forall s t, raises E (Click s) t <> Some TimeoutError.

Lemma probe_loop_match_time (E : Env) (c : cond) (pre : list string) (s : string)
    (T t' : Z) (w : World) :
  0 <= T ->
  poll_n (located E c s) (step E) (polls T (step E))
         (now w + Z.of_nat (List.length pre) * span E T) = (true, t') ->
  now w + Z.of_nat (List.length pre) * span E T <= t'
    <= now w + Z.of_nat (List.length pre) * span E T + T.
Proof.
  intros HT Hs.
  pose proof (poll_n_found_time (located E c s) (step E) (polls T (step E))
                (now w + Z.of_nat (List.length pre) * span E T)
                (Z.lt_le_incl _ _ (step_pos E))) as Hf.
  pose proof (poll_n_time (located E c s) (step E) (polls T (step E))
                (now w + Z.of_nat (List.length pre) * span E T)
                (Z.lt_le_incl _ _ (step_pos E))) as Hl.
  rewrite Hs in Hf, Hl. cbn [fst snd] in Hf, Hl. specialize (Hf eq_refl).
  pose proof (polls_found_bound T (step E) (step_pos E) HT). lia.
Qed.

(** C2, amended, for [_try_click] and for [_click_element_with_retry] alike.
    Each candidate is waited for with the whole timeout [T].  So (1) a call
    over [n] candidates in which no click times out returns within
    [n * (T + one polling interval)]; (2) when no candidate matches, the call
    answers [False] after exactly [n] full waits, each longer than [T] and at
    most one polling interval longer: the duration does grow to [n] times
    [T]; (3) when a candidate matches, the candidates before it do not, and
    its click does not raise, the call answers [True] at the instant of the
    match, which is at most [T] after the waits for the candidates before it:
    nothing is spent on the candidates after it. *)
Theorem resolver_time_amended (E : Env) (w : World) :
  (forall sels T,
      0 <= T -> no_click_timeout E ->
      now w <= now (snd (Playwright._try_click E sels T w))
            <= now w + Z.of_nat (List.length sels) * (T + step E))
  /\ (forall sels timeout,
      0 <= Selenium.timeout_or_default timeout -> no_click_timeout E ->
      now w <= now (snd (Selenium._click_element_with_retry E sels timeout w))
            <= now w + Z.of_nat (List.length sels)
                       * (Selenium.timeout_or_default timeout * 1000 + step E))
  /\ (forall sels T,
      0 <= T ->
      (forall s, In s sels -> forall t, located E Visible s t = false) ->
      Playwright._try_click E sels T w = (Ok false, timed_out E Visible sels T w)
      /\ now (timed_out E Visible sels T w)
         = now w + Z.of_nat (List.length sels) * span E T
      /\ T < span E T <= T + step E)
  /\ (forall sels timeout,
      let T := Selenium.timeout_or_default timeout * 1000 in
      0 <= T ->
      (forall s, In s sels -> forall t, located E Clickable s t = false) ->
      Selenium._click_element_with_retry E sels timeout w
      = (Ok false, timed_out E Clickable sels T w)
      /\ now (timed_out E Clickable sels T w)
         = now w + Z.of_nat (List.length sels) * span E T
      /\ T < span E T <= T + step E)
  /\ (forall pre s post T t',
      0 <= T ->
      (forall s', In s' pre -> forall t, located E Visible s' t = false) ->
      poll_n (located E Visible s) (step E) (polls T (step E))
             (now w + Z.of_nat (List.length pre) * span E T) = (true, t') ->
      raises E (Click s) t' = None ->
      fst (Playwright._try_click E (pre ++ s :: post) T w) = Ok true
      /\ now (snd (Playwright._try_click E (pre ++ s :: post) T w)) = t'
      /\ t' <= now w + Z.of_nat (List.length pre) * span E T + T)
  /\ (forall pre s post timeout t',
      let T := Selenium.timeout_or_default timeout * 1000 in
      0 <= T ->
      (forall s', In s' pre -> forall t, located E Clickable s' t = false) ->
      poll_n (located E Clickable s) (step E) (polls T (step E))
             (now w + Z.of_nat (List.length pre) * span E T) = (true, t') ->
      raises E (Click s) t' = None ->
      fst (Selenium._click_element_with_retry E (pre ++ s :: post) timeout w) = Ok true
      /\ now (snd (Selenium._click_element_with_retry E (pre ++ s :: post) timeout w)) = t'
      /\ t' <= now w + Z.of_nat (List.length pre) * span E T + T).
Proof.
  split; [|split; [|split; [|split; [|split]]]].
  - intros sels T HT _. rewrite try_click_is_probe_loop.
    now apply probe_loop_time.
  - intros sels timeout HT _. rewrite click_with_retry_is_probe_loop.
    apply probe_loop_time; [reflexivity | lia].
  - intros sels T HT Hnone. split; [|split].
    + rewrite try_click_is_probe_loop. now apply probe_loop_none.
    + reflexivity.
    + now apply span_bounds.
  - intros sels timeout T HT Hnone. split; [|split].
    + rewrite click_with_retry_is_probe_loop. now apply probe_loop_none.
    + reflexivity.
    + now apply span_bounds.
  - intros pre s post T t' HT Hpre Hs Hclick.
    rewrite try_click_is_probe_loop.
    rewrite (probe_loop_first_match E Visible _ eq_refl pre post s T t' w Hpre Hs Hclick).
    split; [reflexivity|]. split; [reflexivity|].
    apply (probe_loop_match_time E Visible pre s T t' w HT Hs).
  - intros pre s post timeout t' T HT Hpre Hs Hclick.
    rewrite click_with_retry_is_probe_loop. fold T.
    rewrite (probe_loop_first_match E Clickable _ eq_refl pre post s T t' w Hpre Hs Hclick).
    split; [reflexivity|]. split; [reflexivity|].
    apply (probe_loop_match_time E Clickable pre s T t' w HT Hs).
Qed.

(** On the page of the counterexample, where nothing matches, and on a page
    where the third of four candidates matches. *)
Lemma resolver_time_amended_witness :
  (now (snd (Playwright._try_click blank Playwright.post_button 10000 w0))
   <= 4 * (10000 + 500)
   /\ Playwright._try_click blank Playwright.post_button 10000 w0
      = (Ok false, timed_out blank Visible Playwright.post_button 10000 w0)
   /\ now (timed_out blank Visible Playwright.post_button 10000 w0) = 42000
   /\ Selenium._click_element_with_retry blank
        [Selenium.post_button; Selenium.post_button_en] None w0
      = (Ok false,
         timed_out blank Clickable
           [Selenium.post_button; Selenium.post_button_en] 10000 w0)
   /\ now (timed_out blank Clickable
             [Selenium.post_button; Selenium.post_button_en] 10000 w0) = 21000)
  /\
  (fst (Playwright._try_click (showing ["c"]) ["a"; "b"; "c"; "d"] 5000 w0) = Ok true
   /\ now (snd (Playwright._try_click (showing ["c"]) ["a"; "b"; "c"; "d"] 5000 w0)) = 11000
   /\ fst (Selenium._click_element_with_retry (showing ["c"]) ["a"; "b"; "c"; "d"]
             (Some 5) w0) = Ok true
   /\ now (snd (Selenium._click_element_with_retry (showing ["c"]) ["a"; "b"; "c"; "d"]
                  (Some 5) w0)) = 11000).
Proof.
  split.
  - destruct (resolver_time_amended blank w0) as (Hb & _ & Hn & Hn' & _).
    destruct (Hn Playwright.post_button 10000) as (Hrun & Ht & _);
      [lia | intros s _ t; reflexivity |].
    destruct (Hn' [Selenium.post_button; Selenium.post_button_en] None) as (Hrun' & Ht' & _);
      [cbn; lia | intros s _ t; reflexivity |].
    split; [|split; [|split; [|split]]].
    + apply (Hb Playwright.post_button 10000); [lia | intros s t; discriminate].
    + exact Hrun.
    + exact Ht.
    + exact Hrun'.
    + exact Ht'.
  - destruct (resolver_time_amended (showing ["c"]) w0) as (_ & _ & _ & _ & He & He').
    destruct (He ["a"; "b"] "c" ["d"] 5000 11000) as (H1 & H2 & _).
    + lia.
    + intros s' [<-|[<-|[]]] t; reflexivity.
    + vm_compute. reflexivity.
    + reflexivity.
    + destruct (He' ["a"; "b"] "c" ["d"] (Some 5) 11000) as (H3 & H4 & _).
      * cbn. lia.
      * intros s' [<-|[<-|[]]] t; reflexivity.
      * vm_compute. reflexivity.
      * reflexivity.
      * split; [exact H1 | split; [exact H2 | split; [exact H3 | exact H4]]].
Defined.

(** C5, as stated, fails in the selenium loop: the first candidate is
    clickable, its click is intercepted, and the loop goes on to wait for and
    click the second candidate. *)
Lemma first_match_counterexample :
  let E := intercepting Selenium.whats_on_your_mind in
  let run := Selenium._click_element_with_retry E
               [Selenium.whats_on_your_mind; Selenium.whats_on_your_mind_en] None w0 in
  located E Clickable Selenium.whats_on_your_mind 0 = true
  /\ fst run = Ok true
  /\ log (snd run) =
     [ EvWait Clickable Selenium.whats_on_your_mind 10000;
       EvAct (Click Selenium.whats_on_your_mind);
       EvWait Clickable Selenium.whats_on_your_mind_en 10000;
       EvAct (Click Selenium.whats_on_your_mind_en) ].
Proof. vm_compute. repeat split; reflexivity. Qed.

(** C5, amended: if candidate [s] matches, the candidates before it do not,
    and the click on the element found through [s] does not raise, the loop
    returns [True] having waited for the candidates up to [s] and clicked [s]:
    no candidate after [s] is evaluated.  (A click that raises an exception
    the loop handles sends it on to the next candidate.) *)
Theorem first_match_amended
    (E : Env) (pre post : list string) (s : string) (w : World) :
  (forall T t',
      (forall s', In s' pre -> forall t, located E Visible s' t = false) ->
      poll_n (located E Visible s) (step E) (polls T (step E))
             (now w + Z.of_nat (List.length pre) * span E T) = (true, t') ->
      raises E (Click s) t' = None ->
      Playwright._try_click E (pre ++ s :: post) T w =
      (Ok true,
       {| now := t';
          log := log w ++ map (fun s' => EvWait Visible s' T) pre
                       ++ [EvWait Visible s T; EvAct (Click s)];
          attrs := attrs w |}))
  /\
  (forall timeout t',
      let T := Selenium.timeout_or_default timeout * 1000 in
      (forall s', In s' pre -> forall t, located E Clickable s' t = false) ->
      poll_n (located E Clickable s) (step E) (polls T (step E))
             (now w + Z.of_nat (List.length pre) * span E T) = (true, t') ->
      raises E (Click s) t' = None ->
      Selenium._click_element_with_retry E (pre ++ s :: post) timeout w =
      (Ok true,
       {| now := t';
          log := log w ++ map (fun s' => EvWait Clickable s' T) pre
                       ++ [EvWait Clickable s T; EvAct (Click s)];
          attrs := attrs w |})).
Proof.
  split.
  - intros T t' Hpre Hs Hclick. rewrite try_click_is_probe_loop.
    now apply probe_loop_first_match.
  - intros timeout t' T Hpre Hs Hclick. rewrite click_with_retry_is_probe_loop.
    now apply probe_loop_first_match.
Qed.

Lemma first_match_amended_witness :
  Playwright._try_click (showing ["c"]) ["a"; "b"; "c"; "d"] 5000 w0 =
  (Ok true,
   {| now := 11000;
      log := [ EvWait Visible "a" 5000; EvWait Visible "b" 5000;
               EvWait Visible "c" 5000; EvAct (Click "c") ];
      attrs := [] |})
  /\
  Selenium._click_element_with_retry (showing ["c"]) ["a"; "b"; "c"; "d"] (Some 5) w0 =
  (Ok true,
   {| now := 11000;
      log := [ EvWait Clickable "a" 5000; EvWait Clickable "b" 5000;
               EvWait Clickable "c" 5000; EvAct (Click "c") ];
      attrs := [] |}).
Proof.
  destruct (first_match_amended (showing ["c"]) ["a"; "b"] ["d"] "c" w0) as [Hp Hs].
  split.
  - apply (Hp 5000 11000).
    + intros s' [<-|[<-|[]]] t; reflexivity.
    + vm_compute. reflexivity.
    + reflexivity.
  - apply (Hs (Some 5) 11000).
    + intros s' [<-|[<-|[]]] t; reflexivity.
    + vm_compute. reflexivity.
    + reflexivity.
Defined.

(** * Session lifecycle *)

(** The releases a log holds, in order. *)
Definition release_of (e : event) : list action :=
  match e with
  | EvAct CloseContext => [CloseContext]
  | EvAct CloseBrowser => [CloseBrowser]
  | EvAct StopPlaywright => [StopPlaywright]
  | EvAct QuitDriver => [QuitDriver]
  | _ => []
  end.

Definition releases (l : list event) : list action := flat_map release_of l.

Lemma releases_app l1 l2 : releases (l1 ++ l2) = releases l1 ++ releases l2.
Proof. apply flat_map_app. Qed.

Definition holds (r : resource) (w : World) : bool :=
  existsb (resource_eqb r) (attrs w).

(** The context refuses to close. *)
Definition stuck_context : Env :=
  {| poll := 500;
     url_at := url_at blank;
     located := located blank;
     nodes_at := nodes_at blank;
     raises := fun a _ =>
       match a with CloseContext => Some OtherError | _ => None end;
     path_resolve := path_resolve blank;
     path_exists := path_exists blank |}.

(** C4, as stated, fails: when [context.close()] raises, [close_browser]
    raises there, and neither the browser nor the driver is released. *)
Lemma close_order_counterexample :
  let started := snd (Playwright.start_browser stuck_context w0) in
  let run := Playwright.close_browser stuck_context started in
  fst (Playwright.start_browser stuck_context w0) = Ok tt
  /\ fst run = Raise OtherError
  /\ releases (log (snd run)) = [CloseContext].
Proof. vm_compute. repeat split; reflexivity. Qed.

(** C4, amended: [close_browser] releases the context, the browser and the
    driver in that order, and each release is attempted only when the ones
    before it did not raise: the first release that raises ends the teardown.
    The selenium bot holds one resource, the driver, and quits it. *)
Theorem close_order_amended (E : Env) (w : World) :
  (holds RContext w = true -> holds RBrowser w = true -> holds RPlaywright w = true ->
   releases (log (snd (Playwright.close_browser E w))) =
   releases (log w) ++
     match raises E CloseContext (now w) with
     | Some _ => [CloseContext]
     | None =>
         match raises E CloseBrowser (now w) with
         | Some _ => [CloseContext; CloseBrowser]
         | None => [CloseContext; CloseBrowser; StopPlaywright]
         end
     end)
  /\
  (holds RDriver w = true ->
   releases (log (snd (Selenium.close_browser E w))) = releases (log w) ++ [QuitDriver]).
Proof.
  split.
  - intros Hc Hb Hp. unfold holds in *.
    unfold Playwright.close_browser, bind, emit, has_attr, when, perform, print, ret.
    cbn [attrs record now log]. rewrite Hc. cbn [now record].
    destruct (raises E CloseContext (now w)).
    + cbn [snd log record]. rewrite !releases_app. cbn. now rewrite app_nil_r.
    + cbn [attrs record]. rewrite Hb. cbn [now record].
      destruct (raises E CloseBrowser (now w)).
      * cbn [snd log record]. rewrite !releases_app. cbn.
        now rewrite app_nil_r, <- app_assoc.
      * cbn [attrs record]. rewrite Hp. cbn [now record].
        destruct (raises E StopPlaywright (now w));
          unfold emit; cbn [snd log record]; rewrite !releases_app; cbn;
          rewrite ?app_nil_r, <- ?app_assoc; reflexivity.
  - intros Hd. unfold holds in *.
    unfold Selenium.close_browser, bind, emit, has_attr, when, perform, print, ret.
    cbn [attrs record now log]. rewrite Hd. cbn [now record].
    destruct (raises E QuitDriver (now w));
      unfold emit; cbn [snd log record]; rewrite !releases_app; cbn;
      rewrite ?app_nil_r, <- ?app_assoc; reflexivity.
Qed.

Lemma close_order_amended_witness :
  releases (log (snd (Playwright.close_browser blank
                        (snd (Playwright.start_browser blank w0)))))
    = [CloseContext; CloseBrowser; StopPlaywright]
  /\ releases (log (snd (Selenium.close_browser blank
                           (snd (Selenium.start_browser blank w0)))))
    = [QuitDriver].
Proof.
  split.
  - apply (proj1 (close_order_amended blank (snd (Playwright.start_browser blank w0))));
      reflexivity.
  - apply (proj2 (close_order_amended blank (snd (Selenium.start_browser blank w0))));
      reflexivity.
Defined.

(** How many times a log enters [close_browser]. *)
Definition is_close_call (e : event) : bool :=
  match e with EvCall f => String.eqb f "close_browser" | _ => false end.

Definition close_calls (l : list event) : nat :=
  List.length (filter is_close_call l).

Definition not_close (e : event) : Prop := is_close_call e = false.

(** 1 when the session was opened, 0 when opening it raised *)
Definition opened {A} (r : res A) : nat :=
  match r with Ok _ => 1%nat | Raise _ => 0%nat end.

Lemma close_calls_app l1 l2 :
  close_calls (l1 ++ l2) = (close_calls l1 + close_calls l2)%nat.
Proof. unfold close_calls. now rewrite filter_app, length_app. Qed.

Lemma close_calls_record e w :
  close_calls (log (record e w))
  = (close_calls (log w) + (if is_close_call e then 1 else 0))%nat.
Proof.
  unfold record. cbn [log]. rewrite close_calls_app. unfold close_calls at 2.
  cbn [filter]. now destruct (is_close_call e).
Qed.

Lemma close_calls_extends w w' :
  extends not_close w w' -> close_calls (log w') = close_calls (log w).
Proof.
  intros (l & Hl & Hf). rewrite Hl, close_calls_app. clear Hl.
  assert (close_calls l = 0%nat) as ->; [|lia].
  unfold close_calls. induction Hf as [|e l He _ IH]; [reflexivity|].
  cbn [filter]. unfold not_close in He. now rewrite He.
Qed.

Lemma plain_not_close e : plain e -> not_close e.
Proof. destruct e; cbn; intros H; (reflexivity || contradiction). Qed.

Lemma files_not_close : P_files not_close.
Proof. split; intros; reflexivity. Qed.

Lemma not_close_call f : String.eqb f "close_browser" = false -> not_close (EvCall f).
Proof. intros H. exact H. Qed.

Ltac not_close_tac := first [apply plain_not_close; exact I | reflexivity].

Lemma pw_start_browser_close_calls E w :
  close_calls (log (snd (Playwright.start_browser E w))) = close_calls (log w).
Proof.
  apply close_calls_extends. revert w. fold (adds not_close (Playwright.start_browser E)).
  unfold Playwright.start_browser. adds_auto not_close_tac.
Qed.

Lemma se_start_browser_close_calls E w :
  close_calls (log (snd (Selenium.start_browser E w))) = close_calls (log w).
Proof.
  apply close_calls_extends. revert w. fold (adds not_close (Selenium.start_browser E)).
  unfold Selenium.start_browser. adds_auto not_close_tac.
Qed.

(** [m] enters [close_browser] once and adds nothing else that does. *)
Lemma close_calls_after_call (m : M unit) w :
  adds not_close m ->
  close_calls (log (snd ((emit (EvCall "close_browser") ;; m) w)))
  = (close_calls (log w) + 1)%nat.
Proof.
  intros Hm. unfold bind, emit.
  rewrite (close_calls_extends _ _ (Hm _)), close_calls_record. reflexivity.
Qed.

Lemma pw_close_browser_close_calls E w :
  close_calls (log (snd (Playwright.close_browser E w)))
  = (close_calls (log w) + 1)%nat.
Proof.
  unfold Playwright.close_browser. apply close_calls_after_call.
  adds_auto not_close_tac.
Qed.

Lemma se_close_browser_close_calls E w :
  close_calls (log (snd (Selenium.close_browser E w)))
  = (close_calls (log w) + 1)%nat.
Proof.
  unfold Selenium.close_browser. apply close_calls_after_call.
  adds_auto not_close_tac.
Qed.

(** The [with] block calls the exit once if the entry returned, and not at
    all if the entry raised, whatever the body does. *)
Lemma with_close_calls {A} (enter exit_ : M unit) (body : M A) (w : World) :
  (forall w1, close_calls (log (snd (enter w1))) = close_calls (log w1)) ->
  (forall w1, close_calls (log (snd (exit_ w1))) = (close_calls (log w1) + 1)%nat) ->
  adds not_close body ->
  close_calls (log (snd (with_ enter exit_ body w)))
  = (close_calls (log w) + opened (fst (enter w)))%nat.
Proof.
  intros Henter Hexit Hbody. unfold with_.
  specialize (Henter w). destruct (enter w) as [[[]|e] w1]; cbn [fst snd opened] in *.
  - specialize (Hbody w1). apply close_calls_extends in Hbody.
    specialize (Hexit (snd (body w1))).
    destruct (body w1) as [[a|e] w2]; cbn [snd] in *;
      destruct (exit_ w2) as [[[]|e'] w3]; cbn [snd] in *; lia.
  - lia.
Qed.

Lemma pw_login_not_close E email password T :
  adds not_close (Playwright.login E email password T).
Proof. apply pw_adds_login; [apply plain_not_close | reflexivity]. Qed.

Lemma pw_create_post_not_close E message paths :
  adds not_close (Playwright.create_post E message paths).
Proof.
  apply pw_adds_create_post; [apply plain_not_close | apply files_not_close | reflexivity].
Qed.

Lemma se_login_not_close E email password :
  adds not_close (Selenium.login E email password).
Proof. apply se_adds_login; [apply plain_not_close | reflexivity]. Qed.

Lemma se_create_post_not_close E message paths :
  adds not_close (Selenium.create_post E message paths).
Proof.
  apply se_adds_create_post; [apply plain_not_close | apply files_not_close | reflexivity].
Qed.

(** The bodies of the [with] blocks of main.py and of the bot's [main]. *)
Lemma pw_run_body_not_close E email password message media :
  adds not_close
    (ok <- Playwright.login E email password 30 ;;
     if ok then Playwright.create_post E message media ;; ret tt
     else print MsgRunFailed).
Proof.
  apply adds_bind; [apply pw_login_not_close|]. intros ok.
  apply adds_if; [|apply adds_print; reflexivity].
  apply adds_bind; [apply pw_create_post_not_close | intros; apply adds_ret].
Qed.

Lemma pw_main_body_not_close E email password :
  adds not_close
    (ok <- Playwright.login E email password 30 ;;
     if ok then
       Playwright.take_screenshot E "facebook_home.png" ;;
       sleep 5000
     else
       print MsgRunFailed ;;
       Playwright.take_screenshot E "login_failed.png").
Proof.
  apply adds_bind; [apply pw_login_not_close|]. intros ok.
  apply adds_if.
  - apply adds_bind; [apply pw_adds_take_screenshot, plain_not_close|].
    intros _. apply adds_sleep. reflexivity.
  - apply adds_bind; [apply adds_print; reflexivity|].
    intros _. apply pw_adds_take_screenshot, plain_not_close.
Qed.

Lemma se_run_body_not_close E email password message media :
  adds not_close
    (ok <- Selenium.login E email password ;;
     if ok then Selenium.create_post E message media ;; ret tt
     else print MsgRunFailed).
Proof.
  apply adds_bind; [apply se_login_not_close|]. intros ok.
  apply adds_if; [|apply adds_print; reflexivity].
  apply adds_bind; [apply se_create_post_not_close | intros; apply adds_ret].
Qed.

(** A guarded run: the bot is built, then the [with] block runs; whatever is
    raised is printed. *)
Lemma guarded_run_close_calls (init enter exit_ : M unit) (body : M unit) (w : World) :
  (forall w1, log (snd (init w1)) = log w1) ->
  (forall w1, close_calls (log (snd (enter w1))) = close_calls (log w1)) ->
  (forall w1, close_calls (log (snd (exit_ w1))) = (close_calls (log w1) + 1)%nat) ->
  adds not_close body ->
  close_calls (log (snd (try_except (init ;; with_ enter exit_ body) any_exn
                                    (fun _ => print MsgRunError) w)))
  = (close_calls (log w) + opened (fst ((init ;; enter) w)))%nat.
Proof.
  intros Hinit Henter Hexit Hbody. unfold try_except, bind.
  specialize (Hinit w). destruct (init w) as [[[]|e] w1]; cbn [fst snd] in *.
  - pose proof (with_close_calls enter exit_ body w1 Henter Hexit Hbody) as H.
    rewrite Hinit in H.
    destruct (with_ enter exit_ body w1) as [[[]|e] w2]; cbn [snd any_exn] in *.
    + exact H.
    + unfold print, emit. cbn [snd]. rewrite close_calls_record. cbn. lia.
  - unfold any_exn, print, emit. cbn [snd opened]. rewrite close_calls_record, Hinit.
    cbn. lia.
Qed.

Lemma pw_init_log email password w :
  log (snd (Playwright.init email password w)) = log w.
Proof.
  unfold Playwright.init, Playwright._validate_credentials, bind.
  cbn. now destruct (negb (Py.truthy email) || negb (Py.truthy password))%bool.
Qed.

Lemma se_init_log email password w :
  log (snd (Selenium.init email password w)) = log w.
Proof.
  unfold Selenium.init, Selenium._validate_credentials, bind.
  cbn. now destruct (negb (Py.truthy email) || negb (Py.truthy password))%bool.
Qed.

(** C9: every run enters [close_browser] exactly once when the session was
    opened ([start_browser] returned) and never when it was not: in
    [run_playwright_mode], in [run_selenium_mode], in the [main] of the
    Playwright bot, and in a [with] block around any body, whether the body
    returns or raises. *)
Theorem teardown_exactly_once
    (E : Env) (email password message : string) (media : option (list string))
    (w : World) :
  close_calls (log (snd (Playwright.run_playwright_mode E email password message media w)))
  = (close_calls (log w)
     + opened (fst ((Playwright.init email password ;; Playwright.__enter__ E) w)))%nat
  /\
  close_calls (log (snd (Selenium.run_selenium_mode E email password message media w)))
  = (close_calls (log w)
     + opened (fst ((Selenium.init email password ;; Selenium.__enter__ E) w)))%nat
  /\
  close_calls (log (snd (Playwright.main E email password w)))
  = (close_calls (log w)
     + opened (fst ((Playwright.init email password ;; Playwright.__enter__ E) w)))%nat
  /\
  (forall (A : Type) (body : M A),
      adds not_close body ->
      close_calls (log (snd (with_ (Playwright.__enter__ E) (Playwright.__exit__ E) body w)))
      = (close_calls (log w) + opened (fst (Playwright.__enter__ E w)))%nat
      /\
      close_calls (log (snd (with_ (Selenium.__enter__ E) (Selenium.__exit__ E) body w)))
      = (close_calls (log w) + opened (fst (Selenium.__enter__ E w)))%nat).
Proof.
  repeat split.
  - apply guarded_run_close_calls.
    + apply pw_init_log.
    + apply pw_start_browser_close_calls.
    + apply pw_close_browser_close_calls.
    + apply pw_run_body_not_close.
  - apply guarded_run_close_calls.
    + apply se_init_log.
    + apply se_start_browser_close_calls.
    + apply se_close_browser_close_calls.
    + apply se_run_body_not_close.
  - apply guarded_run_close_calls.
    + apply pw_init_log.
    + apply pw_start_browser_close_calls.
    + apply pw_close_browser_close_calls.
    + apply pw_main_body_not_close.
  - apply with_close_calls; [apply pw_start_browser_close_calls
                            | apply pw_close_browser_close_calls | assumption].
  - apply with_close_calls; [apply se_start_browser_close_calls
                            | apply se_close_browser_close_calls | assumption].
Qed.

(** A body that raises mid-flow: the teardown still runs, once, and the
    exception reaches the caller. *)
Lemma teardown_exactly_once_witness :
  close_calls (log (snd (with_ (Playwright.__enter__ blank) (Playwright.__exit__ blank)
                           (sleep 1000 ;; @raise unit OtherError) w0))) = 1%nat
  /\ close_calls (log (snd (Playwright.run_playwright_mode blank "user" "secret"
                              "hello" None w0))) = 1%nat.
Proof.
  destruct (teardown_exactly_once blank "user" "secret" "hello" None w0)
    as (Hrun & _ & _ & Hany).
  assert (adds not_close (sleep 1000 ;; @raise unit OtherError)) as Hbody.
  { intros w. exists [EvSleep 1000]. split; [reflexivity|].
    constructor; [reflexivity | constructor]. }
  split.
  - exact (proj1 (Hany unit _ Hbody)).
  - exact Hrun.
Defined.

(** * Login *)

(** Whether an event concerns the element of a selector, whether it opens a
    location. *)
Definition touches (sel : string) (e : event) : bool :=
  match e with
  | EvWait _ s _ => String.eqb s sel
  | EvAct (Click s) | EvAct (ScriptClick s) | EvAct (FindElement s)
  | EvAct (Clear s) | EvAct (Fill s _) | EvAct (TypeText s _)
  | EvAct (SetInputFiles s _) => String.eqb s sel
  | _ => false
  end.

Definition visits (url : string) (e : event) : bool :=
  match e with
  | EvAct (Goto u) => String.eqb u url
  | _ => false
  end.

Definition count (f : event -> bool) (l : list event) : nat :=
  List.length (filter f l).

Lemma count_app f l1 l2 : count f (l1 ++ l2) = (count f l1 + count f l2)%nat.
Proof. unfold count. now rewrite filter_app, length_app. Qed.

Lemma count_none f l : Forall (fun e => f e = false) l -> count f l = 0%nat.
Proof.
  unfold count. induction 1 as [|e l He _ IH]; [reflexivity|].
  cbn [filter]. now rewrite He.
Qed.

(** Events that touch neither field of the login form and open no page. *)
Definition offstage (email_sel password_sel : string) (e : event) : Prop :=
  touches password_sel e = false /\ touches email_sel e = false
  /\ visits Config.FACEBOOK_LOGIN_URL e = false.

Lemma pw_dismiss_popups_offstage E :
  adds (offstage Playwright.email_input Playwright.password_input)
       (Playwright._dismiss_popups E).
Proof.
  unfold Playwright._dismiss_popups.
  apply adds_bind; [apply adds_sleep; repeat split|]. intros _.
  apply adds_bind.
  { rewrite try_click_is_probe_loop. apply adds_probe_loop;
      intros s Hs; cbn in Hs; repeat destruct Hs as [<-|Hs]; try contradiction;
      repeat split. }
  intros _. apply adds_bind; [|intros; apply adds_ret].
  rewrite try_click_is_probe_loop. apply adds_probe_loop;
    intros s Hs; cbn in Hs; repeat destruct Hs as [<-|Hs]; try contradiction;
    repeat split.
Qed.

Lemma se_dismiss_each_offstage E sels :
  (forall s, In s sels ->
             String.eqb s Selenium.password_input = false
             /\ String.eqb s Selenium.email_input = false) ->
  adds (offstage Selenium.email_input Selenium.password_input)
       (Selenium.dismiss_each E sels).
Proof.
  induction sels as [|s rest IH]; intros H; cbn [Selenium.dismiss_each].
  - apply adds_ret.
  - destruct (H s (or_introl eq_refl)) as [Hp He].
    apply adds_bind; [|intros _; apply IH; intros s' Hs'; apply H; now right].
    unfold Selenium.wait_until.
    adds_auto ltac:(unfold offstage; cbn [touches visits]; auto).
Qed.

Lemma se_dismiss_popups_offstage E :
  adds (offstage Selenium.email_input Selenium.password_input)
       (Selenium._dismiss_popups E).
Proof.
  apply se_dismiss_each_offstage.
  intros s Hs; cbn in Hs; repeat destruct Hs as [<-|Hs]; try contradiction;
    split; reflexivity.
Qed.

(** What a login whose email field never resolves leaves in the log. *)
Definition gave_up_at_email (email_sel password_sel : string) (l : list event) : Prop :=
  Forall (fun e => touches password_sel e = false) l
  /\ count (visits Config.FACEBOOK_LOGIN_URL) l = 1%nat
  /\ (count (touches email_sel) l <= 1)%nat.

Lemma gave_up_intro email_sel password_sel (l0 lp l1 : list event) :
  Forall (fun e => touches password_sel e = false) l0 ->
  count (visits Config.FACEBOOK_LOGIN_URL) l0 = 1%nat ->
  count (touches email_sel) l0 = 0%nat ->
  Forall (offstage email_sel password_sel) lp ->
  Forall (fun e => touches password_sel e = false) l1 ->
  count (visits Config.FACEBOOK_LOGIN_URL) l1 = 0%nat ->
  (count (touches email_sel) l1 <= 1)%nat ->
  gave_up_at_email email_sel password_sel (l0 ++ lp ++ l1).
Proof.
  intros H0 V0 T0 Hp H1 V1 T1.
  assert (Forall (fun e => touches password_sel e = false) lp) as Hp1
      by (eapply Forall_impl; [|exact Hp]; now intros e (? & ? & ?)).
  assert (Forall (fun e => touches email_sel e = false) lp) as Hp2
      by (eapply Forall_impl; [|exact Hp]; now intros e (? & ? & ?)).
  assert (Forall (fun e => visits Config.FACEBOOK_LOGIN_URL e = false) lp) as Hp3
      by (eapply Forall_impl; [|exact Hp]; now intros e (? & ? & ?)).
  repeat split.
  - rewrite !Forall_app. auto.
  - rewrite !count_app, V0, V1, (count_none _ _ Hp3). reflexivity.
  - rewrite !count_app, T0, (count_none _ _ Hp2). lia.
Qed.

Lemma pw_login_submit_no_email E email password w :
  (forall t, located E Visible Playwright.email_input t = false) ->
  exists e w' l,
    Playwright.login_submit E email password w = (Raise e, w')
    /\ log w' = log w ++ l
    /\ gave_up_at_email Playwright.email_input Playwright.password_input l.
Proof.
  intros Hemail. unfold Playwright.login_submit.
  unfold bind at 1. unfold print at 1, emit. 
  unfold bind at 1. unfold perform at 1. cbn [now record log].
  destruct (raises E (Goto Config.FACEBOOK_LOGIN_URL) (now w)) as [e|].
  { do 2 eexists.
    exists ([EvPrint MsgLoginStart; EvAct (Goto Config.FACEBOOK_LOGIN_URL)] ++ [] ++ []).
    split; [reflexivity|]. split; [cbn; now rewrite <- app_assoc|].
    apply gave_up_intro; repeat constructor. }
  unfold bind at 1. unfold perform at 1. cbn [now record log].
  destruct (raises E WaitLoadState (now w)) as [e|].
  { do 2 eexists.
    exists ([EvPrint MsgLoginStart; EvAct (Goto Config.FACEBOOK_LOGIN_URL);
             EvAct WaitLoadState] ++ [] ++ []).
    split; [reflexivity|]. split; [cbn; now rewrite <- !app_assoc|].
    apply gave_up_intro; repeat constructor. }
  unfold bind at 1.
  match goal with
  | |- context [Playwright._dismiss_popups E ?w3] =>
      destruct (pw_dismiss_popups_offstage E w3) as (lp & Hlp & Hfp);
      destruct (Playwright._dismiss_popups E w3) as [[[]|e] w4]
  end; cbn [snd log record] in Hlp.
  - unfold bind at 1. unfold wait_for at 1.
    rewrite poll_n_never by exact Hemail.
    do 2 eexists.
    exists ([EvPrint MsgLoginStart; EvAct (Goto Config.FACEBOOK_LOGIN_URL);
             EvAct WaitLoadState] ++ lp
            ++ [EvWait Visible Playwright.email_input 10000]).
    split; [reflexivity|]. split.
    + cbn [log at_time record]. rewrite Hlp. cbn. now rewrite <- !app_assoc.
    + apply gave_up_intro; try exact Hfp; repeat constructor.
  - do 2 eexists.
    exists ([EvPrint MsgLoginStart; EvAct (Goto Config.FACEBOOK_LOGIN_URL);
             EvAct WaitLoadState] ++ lp ++ []).
    split; [reflexivity|]. split.
    + rewrite Hlp. cbn. now rewrite <- !app_assoc, app_nil_r.
    + apply gave_up_intro; try exact Hfp; repeat constructor.
Qed.

Lemma gave_up_snoc email_sel password_sel l m :
  gave_up_at_email email_sel password_sel l ->
  gave_up_at_email email_sel password_sel (l ++ [EvPrint m]).
Proof.
  intros (H1 & H2 & H3). repeat split.
  - apply Forall_app. split; [exact H1 | repeat constructor].
  - rewrite count_app, H2. reflexivity.
  - rewrite count_app. cbn. lia.
Qed.

Lemma pw_login_no_email E email password T w :
  (forall t, located E Visible Playwright.email_input t = false) ->
  exists w' l,
    Playwright.login E email password T w = (Ok false, w')
    /\ log w' = log w ++ l
    /\ gave_up_at_email Playwright.email_input Playwright.password_input l.
Proof.
  intros Hemail.
  destruct (pw_login_submit_no_email E email password w Hemail)
    as (e & w1 & l & Hrun & Hlog & Hl).
  unfold Playwright.login, try_except. unfold bind at 1. rewrite Hrun.
  cbn [any_exn]. unfold bind, print, emit, ret.
  eexists. exists (l ++ [EvPrint (if exn_eqb TimeoutError e
                                  then MsgLoginTimeout else MsgLoginError)]).
  split; [reflexivity|]. split.
  - cbn [log record]. now rewrite Hlog, <- app_assoc.
  - now apply gave_up_snoc.
Qed.

Lemma se_login_submit_no_email E email password w :
  (forall t, located E Present Selenium.email_input t = false) ->
  exists e w' l,
    Selenium.login_submit E email password w = (Raise e, w')
    /\ log w' = log w ++ l
    /\ gave_up_at_email Selenium.email_input Selenium.password_input l.
Proof.
  intros Hemail. unfold Selenium.login_submit.
  unfold bind at 1. unfold print at 1, emit.
  unfold bind at 1. unfold perform at 1. cbn [now record log].
  destruct (raises E (Goto Config.FACEBOOK_LOGIN_URL) (now w)) as [e|].
  { do 2 eexists.
    exists ([EvPrint MsgLoginStart; EvAct (Goto Config.FACEBOOK_LOGIN_URL)] ++ [] ++ []).
    split; [reflexivity|]. split; [cbn; now rewrite <- app_assoc|].
    apply gave_up_intro; repeat constructor. }
  unfold bind at 1. unfold sleep at 1. cbn [now record log at_time].
  unfold bind at 1.
  match goal with
  | |- context [Selenium._dismiss_popups E ?w3] =>
      destruct (se_dismiss_popups_offstage E w3) as (lp & Hlp & Hfp);
      destruct (Selenium._dismiss_popups E w3) as [[[]|e] w4]
  end; cbn [snd log record] in Hlp.
  - unfold bind at 1. unfold Selenium.wait_until at 1, wait_for at 1.
    rewrite poll_n_never by exact Hemail.
    do 2 eexists.
    exists ([EvPrint MsgLoginStart; EvAct (Goto Config.FACEBOOK_LOGIN_URL);
             EvSleep 2000] ++ lp
            ++ [EvWait Present Selenium.email_input
                       (Config.DEFAULT_WAIT_TIME * 1000)]).
    split; [reflexivity|]. split.
    + cbn [log at_time record]. rewrite Hlp. cbn. now rewrite <- !app_assoc.
    + apply gave_up_intro; try exact Hfp; repeat constructor.
  - do 2 eexists.
    exists ([EvPrint MsgLoginStart; EvAct (Goto Config.FACEBOOK_LOGIN_URL);
             EvSleep 2000] ++ lp ++ []).
    split; [reflexivity|]. split.
    + rewrite Hlp. cbn. now rewrite <- !app_assoc, app_nil_r.
    + apply gave_up_intro; try exact Hfp; repeat constructor.
Qed.

Lemma se_login_no_email E email password w :
  (forall t, located E Present Selenium.email_input t = false) ->
  exists w' l,
    Selenium.login E email password w = (Ok false, w')
    /\ log w' = log w ++ l
    /\ gave_up_at_email Selenium.email_input Selenium.password_input l.
Proof.
  intros Hemail.
  destruct (se_login_submit_no_email E email password w Hemail)
    as (e & w1 & l & Hrun & Hlog & Hl).
  unfold Selenium.login, try_except. unfold bind at 1. rewrite Hrun.
  cbn [any_exn]. unfold bind, print, emit, ret.
  eexists. exists (l ++ [EvPrint (if exn_eqb TimeoutError e
                                  then MsgLoginTimeout else MsgLoginError)]).
  split; [reflexivity|]. split.
  - cbn [log record]. now rewrite Hlog, <- app_assoc.
  - now apply gave_up_snoc.
Qed.

(** C6: when the email field never resolves, [login] returns [False] (it does
    not raise); what it logged touches the password field nowhere, opens the
    login page once and waits for the email field at most once; and the run
    that opened a session around it enters [close_browser] once.  Both
    drivers. *)
Theorem email_never_resolves
    (E : Env) (email password message : string) (media : option (list string))
    (T : Z) (w : World) :
  ((forall t, located E Visible Playwright.email_input t = false) ->
   (exists w' l,
       Playwright.login E email password T w = (Ok false, w')
       /\ log w' = log w ++ l
       /\ Forall (fun e => touches Playwright.password_input e = false) l
       /\ count (visits Config.FACEBOOK_LOGIN_URL) l = 1%nat
       /\ (count (touches Playwright.email_input) l <= 1)%nat)
   /\ (fst ((Playwright.init email password ;; Playwright.__enter__ E) w) = Ok tt ->
       close_calls (log (snd (Playwright.run_playwright_mode
                                E email password message media w)))
       = (close_calls (log w) + 1)%nat))
  /\
  ((forall t, located E Present Selenium.email_input t = false) ->
   (exists w' l,
       Selenium.login E email password w = (Ok false, w')
       /\ log w' = log w ++ l
       /\ Forall (fun e => touches Selenium.password_input e = false) l
       /\ count (visits Config.FACEBOOK_LOGIN_URL) l = 1%nat
       /\ (count (touches Selenium.email_input) l <= 1)%nat)
   /\ (fst ((Selenium.init email password ;; Selenium.__enter__ E) w) = Ok tt ->
       close_calls (log (snd (Selenium.run_selenium_mode
                                E email password message media w)))
       = (close_calls (log w) + 1)%nat)).
Proof.
  split; intros Hemail; split.
  - destruct (pw_login_no_email E email password T w Hemail)
      as (w' & l & Hrun & Hlog & H1 & H2 & H3).
    exists w', l. auto.
  - intros Hopen.
    unfold Playwright.run_playwright_mode.
    rewrite guarded_run_close_calls.
    + now rewrite Hopen.
    + apply pw_init_log.
    + apply pw_start_browser_close_calls.
    + apply pw_close_browser_close_calls.
    + apply pw_run_body_not_close.
  - destruct (se_login_no_email E email password w Hemail)
      as (w' & l & Hrun & Hlog & H1 & H2 & H3).
    exists w', l. auto.
  - intros Hopen.
    unfold Selenium.run_selenium_mode.
    rewrite guarded_run_close_calls.
    + now rewrite Hopen.
    + apply se_init_log.
    + apply se_start_browser_close_calls.
    + apply se_close_browser_close_calls.
    + apply se_run_body_not_close.
Qed.

Lemma email_never_resolves_witness :
  fst (Playwright.login blank "user" "secret" 30 w0) = Ok false
  /\ close_calls (log (snd (Playwright.run_playwright_mode
                              blank "user" "secret" "hello" None w0))) = 1%nat
  /\ fst (Selenium.login blank "user" "secret" w0) = Ok false
  /\ close_calls (log (snd (Selenium.run_selenium_mode
                              blank "user" "secret" "hello" None w0))) = 1%nat.
Proof.
  destruct (email_never_resolves blank "user" "secret" "hello" None 30 w0) as [Hp Hs].
  destruct (Hp (fun t => eq_refl)) as [(w1 & l1 & Hrun1 & _) Hclose1].
  destruct (Hs (fun t => eq_refl)) as [(w2 & l2 & Hrun2 & _) Hclose2].
  split; [|split; [|split]].
  - now rewrite Hrun1.
  - apply Hclose1. reflexivity.
  - now rewrite Hrun2.
  - apply Hclose2. reflexivity.
Defined.

(** ** Computations that cannot raise *)

Definition succeeds {A} (m : M A) : Prop :=
  forall w, exists a w', m w = (Ok a, w').

Lemma succeeds_ret {A} (a : A) : succeeds (ret a).
Proof. intros w. now exists a, w. Qed.

Lemma succeeds_bind {A B} (m : M A) (k : A -> M B) :
  succeeds m -> (forall a, succeeds (k a)) -> succeeds (bind m k).
Proof.
  intros Hm Hk w. unfold bind. destruct (Hm w) as (a & w1 & ->). apply Hk.
Qed.

(** a handler that takes every exception and does not raise itself *)
Lemma succeeds_try_any {A} (m : M A) (h : exn -> M A) :
  (forall e, succeeds (h e)) -> succeeds (try_except m any_exn h).
Proof.
  intros Hh w. unfold try_except.
  destruct (m w) as [[a|e] w1]; [now exists a, w1 | apply Hh].
Qed.

Lemma succeeds_emit e : succeeds (emit e).
Proof. intros w. now eexists _, _. Qed.

Lemma succeeds_print m : succeeds (print m).
Proof. apply succeeds_emit. Qed.

Lemma succeeds_sleep ms : succeeds (sleep ms).
Proof. intros w. now eexists _, _. Qed.

Lemma succeeds_page_url E : succeeds (page_url E).
Proof. intros w. now eexists _, _. Qed.

Lemma succeeds_if {A} (b : bool) (m1 m2 : M A) :
  succeeds m1 -> succeeds m2 -> succeeds (if b then m1 else m2).
Proof. now destruct b. Qed.

(** No click raises. *)
Definition clicks_land (E : Env) : Prop :=
  forall s t, raises E (Click s) t = None.

Lemma succeeds_probe_loop E c handled sels T :
  handled TimeoutError = true ->
  clicks_land E ->
  succeeds (probe_loop E c handled sels T).
Proof.
  intros Hh Hq. induction sels as [|s rest IH]; cbn [probe_loop].
  - apply succeeds_ret.
  - apply succeeds_bind.
    + intros w. rewrite probe_run by exact Hh. cbv zeta.
      destruct (fst (poll_n _ _ _ _)); [rewrite Hq|]; now eexists _, _.
    + intros b. apply succeeds_if; [apply succeeds_ret | exact IH].
Qed.

Lemma pw_succeeds_try_click E sels T :
  clicks_land E -> succeeds (Playwright._try_click E sels T).
Proof.
  intros Hq. rewrite try_click_is_probe_loop. now apply succeeds_probe_loop.
Qed.

Lemma pw_succeeds_dismiss_popups E :
  clicks_land E -> succeeds (Playwright._dismiss_popups E).
Proof.
  intros Hq. unfold Playwright._dismiss_popups.
  apply succeeds_bind; [apply succeeds_sleep|]. intros _.
  apply succeeds_bind; [now apply pw_succeeds_try_click|]. intros _.
  apply succeeds_bind; [now apply pw_succeeds_try_click|]. intros _.
  apply succeeds_ret.
Qed.

Lemma pw_succeeds_dismiss_save_login_popup E :
  clicks_land E -> succeeds (Playwright._dismiss_save_login_popup E).
Proof.
  intros Hq. unfold Playwright._dismiss_save_login_popup.
  apply succeeds_bind; [apply succeeds_emit|]. intros _.
  apply succeeds_bind; [apply succeeds_sleep|]. intros _.
  apply succeeds_bind; [now apply pw_succeeds_try_click|]. intros b.
  apply succeeds_if; [apply succeeds_print|].
  apply succeeds_try_any. intros _. apply succeeds_ret.
Qed.

(** The selenium sweeps take every exception themselves. *)
Lemma se_succeeds_dismiss_each E sels : succeeds (Selenium.dismiss_each E sels).
Proof.
  induction sels as [|s rest IH]; cbn [Selenium.dismiss_each].
  - apply succeeds_ret.
  - apply succeeds_bind; [|intros _; exact IH].
    apply succeeds_try_any. intros _. apply succeeds_ret.
Qed.

Lemma se_succeeds_scan_buttons E l i : succeeds (Selenium.scan_buttons E l i).
Proof.
  revert i. induction l as [|b rest IH]; intros i; cbn [Selenium.scan_buttons].
  - apply succeeds_ret.
  - apply succeeds_bind.
    + apply succeeds_try_any. intros _. apply succeeds_ret.
    + intros d. apply succeeds_if; [apply succeeds_ret | apply IH].
Qed.

Lemma se_succeeds_scan_spans E l i : succeeds (Selenium.scan_spans E l i).
Proof.
  revert i. induction l as [|b rest IH]; intros i; cbn [Selenium.scan_spans].
  - apply succeeds_ret.
  - apply succeeds_bind.
    + apply succeeds_try_any. intros _. apply succeeds_ret.
    + intros d. apply succeeds_if; [apply succeeds_ret | apply IH].
Qed.

Lemma se_succeeds_scan_selectors E l : succeeds (Selenium.scan_selectors E l).
Proof.
  induction l as [|b rest IH]; cbn [Selenium.scan_selectors].
  - apply succeeds_ret.
  - apply succeeds_bind.
    + apply succeeds_try_any. intros _. apply succeeds_ret.
    + intros d. apply succeeds_if; [apply succeeds_ret | apply IH].
Qed.

Lemma se_succeeds_dismiss_save_login_popup E :
  succeeds (Selenium._dismiss_save_login_popup E).
Proof.
  unfold Selenium._dismiss_save_login_popup.
  apply succeeds_bind; [apply succeeds_emit|]. intros _.
  apply succeeds_bind; [apply succeeds_print|]. intros _.
  apply succeeds_bind; [apply succeeds_try_any; intros; apply succeeds_ret|].
  intros d1. apply succeeds_if; [apply succeeds_ret|].
  apply succeeds_bind; [apply succeeds_try_any; intros; apply succeeds_ret|].
  intros d2. apply succeeds_if; [apply succeeds_ret|].
  apply succeeds_bind; [apply se_succeeds_scan_selectors|].
  intros d3. apply succeeds_if; [apply succeeds_ret | apply succeeds_print].
Qed.

(** What [login_confirm] answers is the test on the location; in the
    Playwright bot a click of the sweeps that raises turns it into a raise. *)
Lemma pw_login_confirm_answer E w :
  clicks_land E ->
  exists w', Playwright.login_confirm E w
             = (Ok (Playwright.logged_in (url_at E (now w))), w').
Proof.
  intros Hq. unfold Playwright.login_confirm, bind at 1, page_url.
  destruct (Playwright.logged_in (url_at E (now w))).
  - unfold bind at 1, print at 1, emit. unfold bind at 1, sleep at 1.
    unfold bind at 1.
    match goal with
    | |- context [Playwright._dismiss_save_login_popup E ?w1] =>
        destruct (pw_succeeds_dismiss_save_login_popup E Hq w1) as ([] & w2 & ->)
    end.
    unfold bind at 1.
    destruct (pw_succeeds_dismiss_popups E Hq w2) as ([] & w3 & ->).
    now eexists.
  - now eexists.
Qed.

Lemma se_login_confirm_answer E w :
  exists w', Selenium.login_confirm E w
             = (Ok (Playwright.logged_in (url_at E (now w))), w').
Proof.
  unfold Selenium.login_confirm, bind at 1, page_url. unfold bind at 1.
  unfold Playwright.logged_in.
  destruct (Py.str_in "facebook.com" (url_at E (now w))
            && negb (Py.str_in "login" (url_at E (now w))))%bool.
  - unfold bind at 1, print at 1, emit. unfold bind at 1, sleep at 1.
    unfold bind at 1.
    match goal with
    | |- context [Selenium._dismiss_save_login_popup E ?w1] =>
        destruct (se_succeeds_dismiss_save_login_popup E w1) as ([] & w2 & ->)
    end.
    unfold bind at 1.
    destruct (se_succeeds_dismiss_each E
                [Selenium.close_popup; Selenium.close_popup_en;
                 Selenium.not_now_button; Selenium.not_now_button_en] w2)
      as ([] & w3 & H).
    unfold Selenium._dismiss_popups. rewrite H.
    now eexists.
  - now eexists.
Qed.

(** ** The checkpoint wait *)

Definition on_checkpoint (E : Env) (t : Z) : bool :=
  Py.str_in "checkpoint" (url_at E t).

(** The loop leaves at the first poll that no longer sees the checkpoint. *)
Lemma checkpoint_loop_clears E T i (n k : nat) w :
  (k < n)%nat ->
  (forall j, (j < k)%nat -> on_checkpoint E (now w + 1000 * Z.of_nat j) = true) ->
  on_checkpoint E (now w + 1000 * Z.of_nat k) = false ->
  exists w', Playwright.checkpoint_loop E T i n w = (Ok tt, w')
             /\ now w' = now w + 1000 * Z.of_nat k.
Proof.
  revert i n w. induction k as [|k IH]; intros i n w Hk Hon Hoff.
  - destruct n as [|n]; [lia|]. cbn [Playwright.checkpoint_loop].
    unfold bind, page_url. unfold on_checkpoint in Hoff.
    replace (now w + 1000 * Z.of_nat 0) with (now w) in Hoff by lia.
    rewrite Hoff. cbn. exists w. split; [reflexivity | lia].
  - destruct n as [|n]; [lia|]. cbn [Playwright.checkpoint_loop].
    unfold bind at 1, page_url.
    pose proof (Hon 0%nat ltac:(lia)) as H0. unfold on_checkpoint in H0.
    replace (now w + 1000 * Z.of_nat 0) with (now w) in H0 by lia.
    rewrite H0. cbn [negb].
    unfold bind at 1, print at 1, emit. unfold bind at 1, sleep at 1.
    match goal with
    | |- context [Playwright.checkpoint_loop E T (i + 1) n ?w1] =>
        destruct (IH (i + 1) n w1) as (w' & Hrun & Ht)
    end.
    + lia.
    + intros j Hj. cbn [now at_time record].
      replace (now w + 1000 + 1000 * Z.of_nat j)
        with (now w + 1000 * Z.of_nat (S j)) by lia.
      apply Hon. lia.
    + cbn [now at_time record].
      replace (now w + 1000 + 1000 * Z.of_nat k)
        with (now w + 1000 * Z.of_nat (S k)) by lia.
      exact Hoff.
    + exists w'. split; [exact Hrun|].
      rewrite Ht. cbn [now at_time record]. lia.
Qed.

(** A checkpoint that stays is polled [n] times, one second apart. *)
Lemma checkpoint_loop_stuck E T i (n : nat) w :
  (forall j, (j < n)%nat -> on_checkpoint E (now w + 1000 * Z.of_nat j) = true) ->
  exists w', Playwright.checkpoint_loop E T i n w = (Ok tt, w')
             /\ now w' = now w + 1000 * Z.of_nat n.
Proof.
  revert i w. induction n as [|n IH]; intros i w Hon.
  - cbn. exists w. split; [reflexivity | lia].
  - cbn [Playwright.checkpoint_loop]. unfold bind at 1, page_url.
    pose proof (Hon 0%nat ltac:(lia)) as H0. unfold on_checkpoint in H0.
    replace (now w + 1000 * Z.of_nat 0) with (now w) in H0 by lia.
    rewrite H0. cbn [negb].
    unfold bind at 1, print at 1, emit. unfold bind at 1, sleep at 1.
    match goal with
    | |- context [Playwright.checkpoint_loop E T (i + 1) n ?w1] =>
        destruct (IH (i + 1) w1) as (w' & Hrun & Ht)
    end.
    + intros j Hj. cbn [now at_time record].
      replace (now w + 1000 + 1000 * Z.of_nat j)
        with (now w + 1000 * Z.of_nat (S j)) by lia.
      apply Hon. lia.
    + exists w'. split; [exact Hrun|].
      rewrite Ht. cbn [now at_time record]. lia.
Qed.

Lemma pw_login_checkpoint_run E T w w' :
  on_checkpoint E (now w) = true ->
  Playwright.checkpoint_loop E T 0 (Z.to_nat T) (record (EvPrint Msg2faNeeded) w)
  = (Ok tt, w') ->
  Playwright.login_checkpoint E T w = (Ok tt, w').
Proof.
  intros Hon Hrun. unfold Playwright.login_checkpoint, bind at 1, page_url.
  unfold on_checkpoint in Hon. rewrite Hon.
  unfold bind, print, emit, try_except. now rewrite Hrun.
Qed.

(** [login] once the form is submitted: the wait, then the verdict. *)
Lemma pw_login_after_submit E email password T w w1 w2 :
  clicks_land E ->
  Playwright.login_submit E email password w = (Ok tt, w1) ->
  Playwright.login_checkpoint E T w1 = (Ok tt, w2) ->
  exists w3, Playwright.login E email password T w
             = (Ok (Playwright.logged_in (url_at E (now w2))), w3).
Proof.
  intros Hq Hsub Hchk.
  destruct (pw_login_confirm_answer E w2 Hq) as (w3 & Hconf).
  exists w3. unfold Playwright.login, try_except, bind.
  now rewrite Hsub, Hchk, Hconf.
Qed.

Lemma se_login_after_submit E email password w w1 :
  Selenium.login_submit E email password w = (Ok tt, w1) ->
  exists w2 w3,
    Selenium.login_checkpoint E w1 = (Ok tt, w2)
    /\ now w2 = now w1 + (if on_checkpoint E (now w1) then 30000 else 0)
    /\ Selenium.login E email password w
       = (Ok (Playwright.logged_in (url_at E (now w2))), w3).
Proof.
  intros Hsub.
  assert (exists w2, Selenium.login_checkpoint E w1 = (Ok tt, w2)
                     /\ now w2 = now w1 + (if on_checkpoint E (now w1) then 30000 else 0))
    as (w2 & Hchk & Ht).
  { unfold Selenium.login_checkpoint, bind at 1, page_url, on_checkpoint.
    destruct (Py.str_in "checkpoint" (url_at E (now w1))).
    - eexists. split; [reflexivity|]. cbn. lia.
    - exists w1. split; [reflexivity | lia]. }
  destruct (se_login_confirm_answer E w2) as (w3 & Hconf).
  exists w2, w3. split; [exact Hchk|]. split; [exact Ht|].
  unfold Selenium.login, try_except, bind.
  now rewrite Hsub, Hchk, Hconf.
Qed.

(** Pages that show the login form of both bots and follow a location over time. *)
Definition login_form : list string :=
  [ Playwright.email_input; Playwright.password_input; Playwright.login_button;
    Selenium.email_input; Selenium.password_input; Selenium.login_button ].

Definition at_location (urls : Z -> string) : Env :=
  {| poll := 500;
     url_at := urls;
     located := fun _ s _ => Py.mem s login_form;
     nodes_at := nodes_at blank;
     raises := raises blank;
     path_resolve := path_resolve blank;
     path_exists := path_exists blank |}.

Definition checkpoint_url : string := "https://www.facebook.com/checkpoint/?next".

(** the verification page never goes away *)
Definition stuck_checkpoint : Env := at_location (fun _ => checkpoint_url).

(** the verification page gives way to the home page, or to the login page,
    at instant [t0] *)
Definition clearing_home (t0 : Z) : Env :=
  at_location (fun t => if t <? t0 then checkpoint_url else "https://www.facebook.com/").

Definition clearing_login (t0 : Z) : Env :=
  at_location (fun t => if t <? t0 then checkpoint_url
                        else "https://www.facebook.com/login/?next").

(** C1: what the bots do when the checkpoint never clears.  The wait lasts
    the whole timeout ([manual_2fa_timeout] polls one second apart in the
    Playwright bot, one sleep of 30 s in the selenium bot); then the test of
    the location decides, and a location such as
    [https://www.facebook.com/checkpoint/?next], which holds "facebook.com"
    and not "login", makes [login] return [True]. *)
Theorem stuck_checkpoint_reports_success
    (E : Env) (email password : string) (T : Z) (w w1 : World) :
  (clicks_land E ->
   Playwright.login_submit E email password w = (Ok tt, w1) ->
   0 < T ->
   (forall t, now w1 <= t -> on_checkpoint E t = true) ->
   (forall t, now w1 <= t -> Playwright.logged_in (url_at E t) = true) ->
   exists w2 w3,
     Playwright.login_checkpoint E T w1 = (Ok tt, w2)
     /\ now w2 = now w1 + 1000 * T
     /\ Playwright.login E email password T w = (Ok true, w3))
  /\
  (Selenium.login_submit E email password w = (Ok tt, w1) ->
   (forall t, now w1 <= t -> on_checkpoint E t = true) ->
   (forall t, now w1 <= t -> Playwright.logged_in (url_at E t) = true) ->
   exists w2 w3,
     Selenium.login_checkpoint E w1 = (Ok tt, w2)
     /\ now w2 = now w1 + 30000
     /\ Selenium.login E email password w = (Ok true, w3)).
Proof.
  split.
  - intros Hq Hsub HT Hon Hin.
    destruct (checkpoint_loop_stuck E T 0 (Z.to_nat T) (record (EvPrint Msg2faNeeded) w1))
      as (w2 & Hloop & Ht).
    { intros j _. apply Hon. cbn [now record]. lia. }
    cbn [now record] in Ht. rewrite Z2Nat.id in Ht by lia.
    assert (Playwright.login_checkpoint E T w1 = (Ok tt, w2)) as Hchk.
    { apply (pw_login_checkpoint_run E T w1 w2); [apply Hon; lia | exact Hloop]. }
    destruct (pw_login_after_submit E email password T w w1 w2 Hq Hsub Hchk)
      as (w3 & Hrun).
    exists w2, w3. split; [exact Hchk|]. split; [exact Ht|].
    rewrite Hrun, Hin by lia. reflexivity.
  - intros Hsub Hon Hin.
    destruct (se_login_after_submit E email password w w1 Hsub)
      as (w2 & w3 & Hchk & Ht & Hrun).
    rewrite Hon in Ht by lia.
    exists w2, w3. split; [exact Hchk|]. split; [exact Ht|].
    rewrite Hrun, Hin by lia. reflexivity.
Qed.

Lemma stuck_checkpoint_reports_success_witness :
  fst (Playwright.login stuck_checkpoint "user" "secret" 30 w0) = Ok true
  /\ fst (Selenium.login stuck_checkpoint "user" "secret" w0) = Ok true.
Proof.
  split.
  - destruct (proj1 (stuck_checkpoint_reports_success stuck_checkpoint "user" "secret" 30 w0
                       (snd (Playwright.login_submit stuck_checkpoint "user" "secret" w0))))
      as (w2 & w3 & _ & _ & Hrun).
    + intros s t. reflexivity.
    + vm_compute. reflexivity.
    + lia.
    + intros t _. reflexivity.
    + intros t _. reflexivity.
    + now rewrite Hrun.
  - destruct (proj2 (stuck_checkpoint_reports_success stuck_checkpoint "user" "secret" 30 w0
                       (snd (Selenium.login_submit stuck_checkpoint "user" "secret" w0))))
      as (w2 & w3 & _ & _ & Hrun).
    + vm_compute. reflexivity.
    + intros t _. reflexivity.
    + intros t _. reflexivity.
    + now rewrite Hrun.
Defined.

(** C7, as stated, fails.  In the selenium bot the checkpoint is gone one
    second after it was seen and the wait still lasts 30 s; in the Playwright
    bot a checkpoint that clears to the login page before the timeout ends in
    a failed login. *)
Lemma checkpoint_wait_counterexample :
  let E := clearing_home 18000 in
  let w1 := snd (Selenium.login_submit E "user" "secret" w0) in
  (fst (Selenium.login_submit E "user" "secret" w0) = Ok tt
   /\ on_checkpoint E (now w1) = true
   /\ on_checkpoint E (now w1 + 1000) = false
   /\ now (snd (Selenium.login_checkpoint E w1)) = now w1 + 30000)
  /\
  (let E' := clearing_login 24000 in
   let w1' := snd (Playwright.login_submit E' "user" "secret" w0) in
   on_checkpoint E' (now w1') = true
   /\ on_checkpoint E' (now w1' + 3000) = false
   /\ fst (Playwright.login E' "user" "secret" 30 w0) = Ok false).
Proof. vm_compute. repeat split; reflexivity. Qed.

(** C7, amended.  The Playwright bot polls the location once per second and
    leaves the wait at the first poll that no longer sees the checkpoint,
    [k] seconds in; the login then succeeds exactly when the location it
    finds holds "facebook.com" and not "login" (no click of the sweeps that
    follow raising).  The selenium bot does not poll: it sleeps 30 s and
    applies the same test. *)
Theorem checkpoint_wait_amended
    (E : Env) (email password : string) (T : Z) (k : nat) (w w1 : World) :
  (clicks_land E ->
   Playwright.login_submit E email password w = (Ok tt, w1) ->
   (1 <= k < Z.to_nat T)%nat ->
   (forall j, (j < k)%nat -> on_checkpoint E (now w1 + 1000 * Z.of_nat j) = true) ->
   on_checkpoint E (now w1 + 1000 * Z.of_nat k) = false ->
   exists w2 w3,
     Playwright.login_checkpoint E T w1 = (Ok tt, w2)
     /\ now w2 = now w1 + 1000 * Z.of_nat k
     /\ Playwright.login E email password T w
        = (Ok (Playwright.logged_in (url_at E (now w1 + 1000 * Z.of_nat k))), w3))
  /\
  (Selenium.login_submit E email password w = (Ok tt, w1) ->
   on_checkpoint E (now w1) = true ->
   exists w2 w3,
     Selenium.login_checkpoint E w1 = (Ok tt, w2)
     /\ now w2 = now w1 + 30000
     /\ Selenium.login E email password w
        = (Ok (Playwright.logged_in (url_at E (now w1 + 30000))), w3)).
Proof.
  split.
  - intros Hq Hsub Hk Hon Hoff.
    destruct (checkpoint_loop_clears E T 0 (Z.to_nat T) k
                (record (EvPrint Msg2faNeeded) w1))
      as (w2 & Hloop & Ht); [lia | exact Hon | exact Hoff |].
    cbn [now record] in Ht.
    assert (Playwright.login_checkpoint E T w1 = (Ok tt, w2)) as Hchk.
    { apply (pw_login_checkpoint_run E T w1 w2); [|exact Hloop].
      specialize (Hon 0%nat ltac:(lia)).
      replace (now w1 + 1000 * Z.of_nat 0) with (now w1) in Hon by lia.
      exact Hon. }
    destruct (pw_login_after_submit E email password T w w1 w2 Hq Hsub Hchk)
      as (w3 & Hrun).
    exists w2, w3. split; [exact Hchk|]. split; [exact Ht|].
    now rewrite Hrun, Ht.
  - intros Hsub Hon.
    destruct (se_login_after_submit E email password w w1 Hsub)
      as (w2 & w3 & Hchk & Ht & Hrun).
    rewrite Hon in Ht.
    exists w2, w3. split; [exact Hchk|]. split; [exact Ht|].
    now rewrite Hrun, Ht.
Qed.

Lemma checkpoint_wait_amended_witness :
  (exists w2, Playwright.login_checkpoint (clearing_home 24000) 30
                (snd (Playwright.login_submit (clearing_home 24000) "user" "secret" w0))
              = (Ok tt, w2)
              /\ now w2 = 21500 + 3000)
  /\ fst (Playwright.login (clearing_home 24000) "user" "secret" 30 w0) = Ok true
  /\ fst (Selenium.login (clearing_home 18000) "user" "secret" w0) = Ok true.
Proof.
  split; [|split].
  - destruct (proj1 (checkpoint_wait_amended (clearing_home 24000) "user" "secret" 30 3 w0
                       (snd (Playwright.login_submit (clearing_home 24000) "user" "secret" w0))))
      as (w2 & w3 & Hchk & Ht & _).
    + intros s t. reflexivity.
    + vm_compute. reflexivity.
    + cbn. lia.
    + intros j Hj.
      destruct j as [|[|[|j]]]; [reflexivity | reflexivity | reflexivity | lia].
    + reflexivity.
    + exists w2. split; [exact Hchk | exact Ht].
  - destruct (proj1 (checkpoint_wait_amended (clearing_home 24000) "user" "secret" 30 3 w0
                       (snd (Playwright.login_submit (clearing_home 24000) "user" "secret" w0))))
      as (w2 & w3 & _ & _ & Hrun).
    + intros s t. reflexivity.
    + vm_compute. reflexivity.
    + cbn. lia.
    + intros j Hj.
      destruct j as [|[|[|j]]]; [reflexivity | reflexivity | reflexivity | lia].
    + reflexivity.
    + now rewrite Hrun.
  - destruct (proj2 (checkpoint_wait_amended (clearing_home 18000) "user" "secret" 30 0 w0
                       (snd (Selenium.login_submit (clearing_home 18000) "user" "secret" w0))))
      as (w2 & w3 & _ & _ & Hrun).
    + vm_compute. reflexivity.
    + reflexivity.
    + now rewrite Hrun.
Defined.

(** * Post composition *)

Lemma pw_succeeds_upload_images E paths : succeeds (Playwright._upload_images E paths).
Proof.
  unfold Playwright._upload_images.
  apply succeeds_bind; [apply succeeds_emit|]. intros _.
  apply succeeds_try_any. intros _.
  apply succeeds_bind; [apply succeeds_print | intros _; apply succeeds_ret].
Qed.

Lemma se_succeeds_upload_media E paths : succeeds (Selenium._upload_media E paths).
Proof.
  unfold Selenium._upload_media.
  apply succeeds_bind; [apply succeeds_emit|]. intros _.
  apply succeeds_try_any. intros _.
  apply succeeds_bind; [apply succeeds_print | intros _; apply succeeds_ret].
Qed.

(** What [create_post] makes of the text entry and the submission: an
    exception becomes [False]. *)
Definition post_outcome (r : res bool) : res bool :=
  match r with
  | Ok b => Ok b
  | Raise _ => Ok false
  end.

Definition post_handler (r : res bool * World) : res bool * World :=
  match r with
  | (Ok b, w) => (Ok b, w)
  | (Raise e, w) =>
      (Ok false,
       record (EvPrint (if exn_eqb TimeoutError e then MsgPostTimeout else MsgPostError)) w)
  end.

Lemma pw_create_post_after_upload E message paths b w w1 w2 :
  paths <> [] ->
  Playwright.open_composer E w = (Ok true, w1) ->
  Playwright._upload_images E paths (snd (sleep 2000 w1)) = (Ok b, w2) ->
  Playwright.create_post E message (Some paths) w
  = post_handler (Playwright.write_and_publish E message w2).
Proof.
  intros Hne Hopen Hup.
  assert (Playwright.given (Some paths) = true) as Hgiven
      by (destruct paths; [contradiction | reflexivity]).
  unfold Playwright.create_post, try_except.
  unfold bind at 1. rewrite Hopen. cbn [negb].
  unfold bind at 1. unfold sleep at 1. unfold bind at 1.
  rewrite Hgiven. unfold bind at 1. cbn [Playwright.paths_of].
  unfold sleep in Hup. cbn [snd] in Hup. rewrite Hup.
  unfold ret at 1.
  destruct (Playwright.write_and_publish E message w2) as [[r|e] w3]; reflexivity.
Qed.

Lemma se_create_post_after_upload E message paths b w w1 w2 :
  paths <> [] ->
  Selenium.open_composer E w = (Ok true, w1) ->
  Selenium._upload_media E paths (snd (sleep 2000 w1)) = (Ok b, w2) ->
  Selenium.create_post E message (Some paths) w
  = post_handler (Selenium.write_and_publish E message w2).
Proof.
  intros Hne Hopen Hup.
  assert (Selenium.given (Some paths) = true) as Hgiven
      by (destruct paths; [contradiction | reflexivity]).
  unfold Selenium.create_post, try_except.
  unfold bind at 1. rewrite Hopen. cbn [negb].
  unfold bind at 1. unfold sleep at 1. unfold bind at 1.
  rewrite Hgiven. unfold bind at 1. cbn [Selenium.paths_of].
  unfold sleep in Hup. cbn [snd] in Hup. rewrite Hup.
  unfold ret at 1.
  destruct (Selenium.write_and_publish E message w2) as [[r|e] w3]; reflexivity.
Qed.

(** C10: the attachment sub-flow cannot raise, and whatever it returns,
    [True] or [False], [create_post] goes on to the text entry and the
    submission and returns what they give; with a failed sub-flow it still
    returns [True] when the submission goes through.  Both drivers. *)
Theorem attachments_never_abort
    (E : Env) (message : string) (paths : list string) (b : bool) (w w1 w2 : World) :
  (succeeds (Playwright._upload_images E paths)
   /\ (paths <> [] ->
       Playwright.open_composer E w = (Ok true, w1) ->
       Playwright._upload_images E paths (snd (sleep 2000 w1)) = (Ok b, w2) ->
       fst (Playwright.create_post E message (Some paths) w)
       = post_outcome (fst (Playwright.write_and_publish E message w2))
       /\ forall w3, Playwright.write_and_publish E message w2 = (Ok true, w3) ->
                     Playwright.create_post E message (Some paths) w = (Ok true, w3)))
  /\
  (succeeds (Selenium._upload_media E paths)
   /\ (paths <> [] ->
       Selenium.open_composer E w = (Ok true, w1) ->
       Selenium._upload_media E paths (snd (sleep 2000 w1)) = (Ok b, w2) ->
       fst (Selenium.create_post E message (Some paths) w)
       = post_outcome (fst (Selenium.write_and_publish E message w2))
       /\ forall w3, Selenium.write_and_publish E message w2 = (Ok true, w3) ->
                     Selenium.create_post E message (Some paths) w = (Ok true, w3))).
Proof.
  split; (split; [first [apply pw_succeeds_upload_images | apply se_succeeds_upload_media]|]).
  - intros Hne Hopen Hup.
    rewrite (pw_create_post_after_upload E message paths b w w1 w2 Hne Hopen Hup).
    split.
    + destruct (Playwright.write_and_publish E message w2) as [[r|e] w3]; reflexivity.
    + intros w3 Hpub. now rewrite Hpub.
  - intros Hne Hopen Hup.
    rewrite (se_create_post_after_upload E message paths b w w1 w2 Hne Hopen Hup).
    split.
    + destruct (Selenium.write_and_publish E message w2) as [[r|e] w3]; reflexivity.
    + intros w3 Hpub. now rewrite Hpub.
Qed.

(** The composer, the text box and the post button of both bots resolve;
    the media picker and the file input do not. *)
Definition no_picker : Env :=
  showing [ "span:has-text('무슨 생각')"; Playwright.post_textbox; "div[aria-label='게시']";
            Selenium.whats_on_your_mind; Selenium.post_box; Selenium.post_button ].

Lemma attachments_never_abort_witness :
  fst (Playwright._upload_images no_picker ["/tmp/cat.png"]
         (snd (sleep 2000 (snd (Playwright.open_composer no_picker w0))))) = Ok false
  /\ fst (Playwright.create_post no_picker "hello" (Some ["/tmp/cat.png"]) w0) = Ok true
  /\ fst (Selenium._upload_media no_picker ["/tmp/cat.png"]
            (snd (sleep 2000 (snd (Selenium.open_composer no_picker w0))))) = Ok false
  /\ fst (Selenium.create_post no_picker "hello" (Some ["/tmp/cat.png"]) w0) = Ok true.
Proof.
  split; [vm_compute; reflexivity | split; [|split; [vm_compute; reflexivity|]]].
  - destruct (attachments_never_abort no_picker "hello" ["/tmp/cat.png"] false w0
                (snd (Playwright.open_composer no_picker w0))
                (snd (Playwright._upload_images no_picker ["/tmp/cat.png"]
                        (snd (sleep 2000 (snd (Playwright.open_composer no_picker w0)))))))
      as [[_ H] _].
    destruct H as [H _].
    + discriminate.
    + vm_compute. reflexivity.
    + vm_compute. reflexivity.
    + rewrite H. vm_compute. reflexivity.
  - destruct (attachments_never_abort no_picker "hello" ["/tmp/cat.png"] false w0
                (snd (Selenium.open_composer no_picker w0))
                (snd (Selenium._upload_media no_picker ["/tmp/cat.png"]
                        (snd (sleep 2000 (snd (Selenium.open_composer no_picker w0)))))))
      as [_ [_ H]].
    destruct H as [H _].
    + discriminate.
    + vm_compute. reflexivity.
    + vm_compute. reflexivity.
    + rewrite H. vm_compute. reflexivity.
Defined.

(** ** Attachments *)

(** The paths a log fed to the file input, and the paths it warned about. *)
Definition fed_by (e : event) : list string :=
  match e with EvAct (SetInputFiles _ p) => [p] | _ => [] end.

Definition warned_by (e : event) : list string :=
  match e with EvPrint (WarnFileNotFound p) => [p] | _ => [] end.

Definition fed (l : list event) : list string := flat_map fed_by l.
Definition warned (l : list event) : list string := flat_map warned_by l.

(** The extension test of facebook_api_poster.py, which the bots do not make. *)
Definition supported (p : string) : bool :=
  Py.mem (Py.lower (Py.suffix p)) (Api.image_formats ++ Api.supported_formats).

Definition no_files (e : event) : Prop := fed_by e = [] /\ warned_by e = [].

Lemma plain_no_files e : plain e -> no_files e.
Proof.
  destruct e as [f|c s T|ms|a|m]; cbn; try (intros; split; reflexivity).
  - destruct a; intros H; (contradiction || split; reflexivity).
  - destruct m; intros H; (contradiction || split; reflexivity).
Qed.

Lemma fed_extends w w' :
  extends no_files w w' -> fed (log w') = fed (log w) /\ warned (log w') = warned (log w).
Proof.
  intros (l & Hl & Hf). rewrite Hl. unfold fed, warned. rewrite !flat_map_app.
  assert (flat_map fed_by l = [] /\ flat_map warned_by l = []) as [-> ->].
  { clear Hl. induction Hf as [|e l [He1 He2] _ [IH1 IH2]]; [now split|].
    cbn. now rewrite He1, He2, IH1, IH2. }
  now rewrite !app_nil_r.
Qed.

Lemma fed_record e w :
  fed (log (record e w)) = fed (log w) ++ fed_by e
  /\ warned (log (record e w)) = warned (log w) ++ warned_by e.
Proof.
  unfold fed, warned, record. cbn [log]. rewrite !flat_map_app. cbn.
  now rewrite !app_nil_r.
Qed.

(** The feeding loops: every path that exists is fed, in order; every path
    that does not is warned about; the extension plays no part. *)
Definition feeds (E : Env) (feed_files : list string -> M unit) : Prop :=
  forall paths w,
    exists w',
      feed_files paths w = (Ok tt, w')
      /\ fed (log w') = fed (log w) ++ filter (path_exists E) (map (path_resolve E) paths)
      /\ warned (log w')
         = warned (log w)
           ++ filter (fun p => negb (path_exists E p)) (map (path_resolve E) paths).

Definition feeding_lands (E : Env) : Prop :=
  forall s p t, raises E (SetInputFiles s p) t = None.

Lemma pw_feed_files_feeds E : feeding_lands E -> feeds E (Playwright.feed_files E).
Proof.
  intros Hq paths. induction paths as [|p rest IH]; intros w.
  - exists w. cbn. now rewrite !app_nil_r.
  - cbn [Playwright.feed_files map filter].
    destruct (path_exists E (path_resolve E p)) eqn:Hex; cbn [negb].
    + unfold bind at 1, perform at 1. rewrite Hq.
      unfold bind at 1, print at 1, emit. unfold bind at 1, sleep at 1.
      match goal with
      | |- context [Playwright.feed_files E rest ?w1] =>
          destruct (IH w1) as (w' & Hrun & Hfed & Hwarn)
      end.
      exists w'. split; [exact Hrun|].
      rewrite Hfed, Hwarn. unfold fed, warned. cbn [log at_time record].
      rewrite !flat_map_app. cbn. rewrite !app_nil_r, <- !app_assoc. now split.
    + unfold bind at 1, print at 1, emit.
      match goal with
      | |- context [Playwright.feed_files E rest ?w1] =>
          destruct (IH w1) as (w' & Hrun & Hfed & Hwarn)
      end.
      exists w'. split; [exact Hrun|].
      rewrite Hfed, Hwarn. unfold fed, warned. cbn [log at_time record].
      rewrite !flat_map_app. cbn. rewrite !app_nil_r, <- !app_assoc. now split.
Qed.

Lemma se_feed_files_feeds E : feeding_lands E -> feeds E (Selenium.feed_files E).
Proof.
  intros Hq paths. induction paths as [|p rest IH]; intros w.
  - exists w. cbn. now rewrite !app_nil_r.
  - cbn [Selenium.feed_files map filter].
    destruct (path_exists E (path_resolve E p)) eqn:Hex; cbn [negb].
    + unfold bind at 1, perform at 1. rewrite Hq.
      unfold bind at 1, print at 1, emit. unfold bind at 1, sleep at 1.
      match goal with
      | |- context [Selenium.feed_files E rest ?w1] =>
          destruct (IH w1) as (w' & Hrun & Hfed & Hwarn)
      end.
      exists w'. split; [exact Hrun|].
      rewrite Hfed, Hwarn. unfold fed, warned. cbn [log at_time record].
      rewrite !flat_map_app. cbn. rewrite !app_nil_r, <- !app_assoc. now split.
    + unfold bind at 1, print at 1, emit.
      match goal with
      | |- context [Selenium.feed_files E rest ?w1] =>
          destruct (IH w1) as (w' & Hrun & Hfed & Hwarn)
      end.
      exists w'. split; [exact Hrun|].
      rewrite Hfed, Hwarn. unfold fed, warned. cbn [log at_time record].
      rewrite !flat_map_app. cbn. rewrite !app_nil_r, <- !app_assoc. now split.
Qed.

(** No library call raises. *)
Definition quiet (E : Env) : Prop := forall a t, raises E a t = None.

Lemma probe_loop_head E c handled s rest T w :
  handled TimeoutError = true ->
  raises E (Click s) (now w) = None ->
  located E c s (now w) = true ->
  probe_loop E c handled (s :: rest) T w =
  (Ok true, record (EvAct (Click s)) (record (EvWait c s T) w)).
Proof.
  intros Hh Hq Hs. cbn [probe_loop]. unfold bind. rewrite probe_run by exact Hh.
  cbv zeta. unfold polls. rewrite poll_n_now by exact Hs. cbn [fst snd].
  rewrite Hq. reflexivity.
Qed.

(** The page the Playwright bot needs to post with attachments. *)
Definition pw_page_ready (E : Env) : Prop :=
  forall t,
    located E Visible "span:has-text('무슨 생각')" t = true
    /\ located E Visible "[aria-label='사진/동영상']" t = true
    /\ located E Visible Playwright.file_input t = true
    /\ located E Visible Playwright.post_textbox t = true
    /\ located E Visible "div[aria-label='게시']" t = true.

Lemma pw_open_composer_ok E w :
  quiet E -> pw_page_ready E ->
  exists w1, Playwright.open_composer E w = (Ok true, w1).
Proof.
  intros Hq Hr. unfold Playwright.open_composer.
  unfold bind at 1, print at 1, emit.
  unfold bind at 1, perform at 1. rewrite Hq.
  unfold bind at 1, perform at 1. rewrite Hq.
  unfold bind at 1, sleep at 1.
  unfold bind at 1.
  match goal with
  | |- context [Playwright._dismiss_popups E ?w0] =>
      destruct (pw_succeeds_dismiss_popups E (fun s t => Hq (Click s) t) w0)
        as ([] & w1 & ->)
  end.
  rewrite try_click_is_probe_loop. unfold Playwright.whats_on_your_mind.
  rewrite probe_loop_head; [now eexists | reflexivity | apply Hq | apply Hr].
Qed.

Lemma pw_write_and_publish_ok E message w :
  quiet E -> pw_page_ready E ->
  exists w1, Playwright.write_and_publish E message w = (Ok true, w1).
Proof.
  intros Hq Hr. unfold Playwright.write_and_publish.
  unfold bind at 1, wait_for at 1. unfold polls.
  rewrite poll_n_now by apply Hr.
  unfold bind at 1, perform at 1. rewrite Hq.
  unfold bind at 1, sleep at 1.
  unfold bind at 1, perform at 1. rewrite Hq.
  unfold bind at 1, print at 1, emit.
  unfold bind at 1, sleep at 1.
  unfold bind at 1.
  rewrite try_click_is_probe_loop. unfold Playwright.post_button.
  rewrite probe_loop_head; [| reflexivity | apply Hq | apply Hr].
  now eexists.
Qed.

Lemma pw_upload_images_ok E paths w :
  quiet E -> pw_page_ready E ->
  exists w1,
    Playwright._upload_images E paths w = (Ok true, w1)
    /\ fed (log w1) = fed (log w) ++ filter (path_exists E) (map (path_resolve E) paths)
    /\ warned (log w1)
       = warned (log w)
         ++ filter (fun p => negb (path_exists E p)) (map (path_resolve E) paths).
Proof.
  intros Hq Hr. unfold Playwright._upload_images.
  unfold bind at 1, emit. unfold try_except.
  unfold bind at 1.
  rewrite try_click_is_probe_loop. unfold Playwright.photo_video_button.
  rewrite probe_loop_head; [| reflexivity | apply Hq | apply Hr].
  cbn [negb]. unfold bind at 1, sleep at 1.
  unfold bind at 1, wait_for at 1. unfold polls.
  rewrite poll_n_now by apply Hr.
  unfold bind at 1.
  match goal with
  | |- context [Playwright.feed_files E paths ?w0] =>
      destruct (pw_feed_files_feeds E (fun s p t => Hq _ t) paths w0)
        as (w1 & -> & Hfed & Hwarn)
  end.
  exists w1. split; [reflexivity|].
  rewrite Hfed, Hwarn. unfold fed, warned. cbn [log at_time record].
  rewrite !flat_map_app. cbn. rewrite !app_nil_r. now split.
Qed.

Lemma pw_post_with_missing_file E message bad good w :
  quiet E -> pw_page_ready E ->
  path_exists E (path_resolve E bad) = false ->
  path_exists E (path_resolve E good) = true ->
  exists w',
    Playwright.create_post E message (Some [bad; good]) w = (Ok true, w')
    /\ fed (log w') = fed (log w) ++ [path_resolve E good]
    /\ warned (log w') = warned (log w) ++ [path_resolve E bad].
Proof.
  intros Hq Hr Hbad Hgood.
  destruct (pw_open_composer_ok E w Hq Hr) as (w1 & Hopen).
  pose proof (pw_adds_open_composer no_files plain_no_files E w) as H1.
  rewrite Hopen in H1. apply fed_extends in H1. destruct H1 as [F1 W1].
  destruct (pw_upload_images_ok E [bad; good] (snd (sleep 2000 w1)) Hq Hr)
    as (w2 & Hup & F2 & W2).
  destruct (pw_write_and_publish_ok E message w2 Hq Hr) as (w3 & Hpub).
  pose proof (pw_adds_write_and_publish no_files plain_no_files E message w2) as H3.
  rewrite Hpub in H3. apply fed_extends in H3. destruct H3 as [F3 W3].
  exists w3. split.
  - rewrite (pw_create_post_after_upload E message [bad; good] true w w1 w2);
      [now rewrite Hpub | discriminate | exact Hopen | exact Hup].
  - cbn [snd] in F3, W3. rewrite F3, W3, F2, W2.
    cbn [map filter]. rewrite Hbad, Hgood. cbn [negb].
    assert (fed (log (snd (sleep 2000 w1))) = fed (log w1)
            /\ warned (log (snd (sleep 2000 w1))) = warned (log w1)) as [-> ->].
    { unfold sleep. cbn [snd log at_time record]. unfold fed, warned.
      rewrite !flat_map_app. cbn. now rewrite !app_nil_r. }
    cbn [snd] in F1, W1. now rewrite F1, W1.
Qed.

(** The page the selenium bot needs to post with attachments. *)
Definition se_page_ready (E : Env) : Prop :=
  forall t,
    located E Clickable Selenium.whats_on_your_mind t = true
    /\ Py.nonempty (nodes_at E Selenium.file_input t) = true
    /\ located E Present Selenium.post_box t = true
    /\ located E Clickable Selenium.post_button t = true.

Lemma se_open_composer_ok E w :
  quiet E -> se_page_ready E ->
  exists w1, Selenium.open_composer E w = (Ok true, w1).
Proof.
  intros Hq Hr. unfold Selenium.open_composer.
  unfold bind at 1, print at 1, emit.
  unfold bind at 1, perform at 1. rewrite Hq.
  unfold bind at 1, sleep at 1.
  unfold bind at 1. unfold Selenium._dismiss_popups.
  match goal with
  | |- context [Selenium.dismiss_each E ?l ?w0] =>
      destruct (se_succeeds_dismiss_each E l w0) as ([] & w1 & ->)
  end.
  rewrite click_with_retry_is_probe_loop.
  rewrite probe_loop_head; [now eexists | reflexivity | apply Hq | apply Hr].
Qed.

Lemma se_write_and_publish_ok E message w :
  quiet E -> se_page_ready E ->
  exists w1, Selenium.write_and_publish E message w = (Ok true, w1).
Proof.
  intros Hq Hr. unfold Selenium.write_and_publish.
  unfold bind at 1.
  assert (exists w0, Selenium._find_element_with_retry E [Selenium.post_box] None w
                     = (Ok Selenium.post_box, w0)) as (w0 & ->).
  { unfold Selenium._find_element_with_retry, bind. cbn [Selenium.find_loop].
    unfold bind, Selenium.find_candidate, try_except, bind, Selenium.wait_until, wait_for.
    unfold polls. rewrite poll_n_now by apply Hr. now eexists. }
  unfold bind at 1, perform at 1. rewrite Hq.
  unfold bind at 1, sleep at 1.
  unfold bind at 1, perform at 1. rewrite Hq.
  unfold bind at 1, print at 1, emit.
  unfold bind at 1, sleep at 1.
  unfold bind at 1.
  rewrite click_with_retry_is_probe_loop.
  rewrite probe_loop_head; [| reflexivity | apply Hq | apply Hr].
  now eexists.
Qed.

Lemma se_upload_media_ok E paths w :
  quiet E -> se_page_ready E ->
  exists w1,
    Selenium._upload_media E paths w = (Ok true, w1)
    /\ fed (log w1) = fed (log w) ++ filter (path_exists E) (map (path_resolve E) paths)
    /\ warned (log w1)
       = warned (log w)
         ++ filter (fun p => negb (path_exists E p)) (map (path_resolve E) paths).
Proof.
  intros Hq Hr. unfold Selenium._upload_media.
  unfold bind at 1, emit. unfold try_except.
  unfold bind at 1.
  match goal with
  | |- context [Selenium._click_element_with_retry E ?l None ?w0] =>
      pose proof (se_adds_click_with_retry no_files plain_no_files E l None w0) as Hadd;
      assert (exists b w1, Selenium._click_element_with_retry E l None w0 = (Ok b, w1))
        as (b & w1 & Hclick)
  end.
  { rewrite click_with_retry_is_probe_loop.
    apply succeeds_probe_loop; [reflexivity | intros s t; apply Hq]. }
  rewrite Hclick in Hadd |- *. cbn [snd] in Hadd.
  apply fed_extends in Hadd. destruct Hadd as [F1 W1].
  unfold bind at 1, sleep at 1.
  unfold bind at 1, query at 1. unfold bind at 1, perform at 1. rewrite Hq.
  cbn [now record at_time]. rewrite (proj1 (proj2 (Hr _))). cbn [negb].
  unfold bind at 1.
  match goal with
  | |- context [Selenium.feed_files E paths ?w0] =>
      destruct (se_feed_files_feeds E (fun s p t => Hq _ t) paths w0)
        as (w2 & -> & Hfed & Hwarn)
  end.
  exists w2. split; [reflexivity|].
  rewrite Hfed, Hwarn. unfold fed, warned in *. cbn [log at_time record] in *.
  rewrite !flat_map_app. cbn. rewrite !app_nil_r.
  cbn [flat_map app] in F1, W1. rewrite F1, W1.
  rewrite !flat_map_app. cbn. rewrite !app_nil_r. now split.
Qed.

Lemma se_post_with_missing_file E message bad good w :
  quiet E -> se_page_ready E ->
  path_exists E (path_resolve E bad) = false ->
  path_exists E (path_resolve E good) = true ->
  exists w',
    Selenium.create_post E message (Some [bad; good]) w = (Ok true, w')
    /\ fed (log w') = fed (log w) ++ [path_resolve E good]
    /\ warned (log w') = warned (log w) ++ [path_resolve E bad].
Proof.
  intros Hq Hr Hbad Hgood.
  destruct (se_open_composer_ok E w Hq Hr) as (w1 & Hopen).
  pose proof (se_adds_open_composer no_files plain_no_files E w) as H1.
  rewrite Hopen in H1. apply fed_extends in H1. destruct H1 as [F1 W1].
  destruct (se_upload_media_ok E [bad; good] (snd (sleep 2000 w1)) Hq Hr)
    as (w2 & Hup & F2 & W2).
  destruct (se_write_and_publish_ok E message w2 Hq Hr) as (w3 & Hpub).
  pose proof (se_adds_write_and_publish no_files plain_no_files E message w2) as H3.
  rewrite Hpub in H3. apply fed_extends in H3. destruct H3 as [F3 W3].
  exists w3. split.
  - rewrite (se_create_post_after_upload E message [bad; good] true w w1 w2);
      [now rewrite Hpub | discriminate | exact Hopen | exact Hup].
  - cbn [snd] in F3, W3. rewrite F3, W3, F2, W2.
    cbn [map filter]. rewrite Hbad, Hgood. cbn [negb].
    assert (fed (log (snd (sleep 2000 w1))) = fed (log w1)
            /\ warned (log (snd (sleep 2000 w1))) = warned (log w1)) as [-> ->].
    { unfold sleep. cbn [snd log at_time record]. unfold fed, warned.
      rewrite !flat_map_app. cbn. now rewrite !app_nil_r. }
    cbn [snd] in F1, W1. now rewrite F1, W1.
Qed.

(** A page where every selector resolves and one file input is present, over
    a disk that holds [files]. *)
Definition ready_page (files : list string) : Env :=
  {| poll := 500;
     url_at := url_at blank;
     located := fun _ _ _ => true;
     nodes_at := fun q _ =>
       if String.eqb q Selenium.file_input
       then [ {| node_text := EmptyString; node_in_button := false |} ]
       else [];
     raises := raises blank;
     path_resolve := fun p => p;
     path_exists := fun p => Py.mem p files |}.

(** C3, as stated, fails: a file that exists is fed to the file input
    whatever its extension. *)
Lemma attachment_filter_counterexample :
  let E := ready_page ["/tmp/notes.txt"] in
  path_exists E "/tmp/notes.txt" = true
  /\ supported "/tmp/notes.txt" = false
  /\ fed (log (snd (Playwright._upload_images E ["/tmp/notes.txt"] w0)))
     = ["/tmp/notes.txt"]
  /\ fed (log (snd (Selenium._upload_media E ["/tmp/notes.txt"] w0)))
     = ["/tmp/notes.txt"].
Proof. vm_compute. repeat split; reflexivity. Qed.

(** C3, amended: a path is fed to the file input exactly when the file
    exists, the extension not being looked at; a path that does not exist is
    warned about and skipped, the loop going on.  So with one missing and one
    existing attachment, on a page where the elements resolve and no library
    call raises, the existing one is uploaded and [create_post] returns
    [True].  Both drivers. *)
Theorem attachment_filter_amended (E : Env) :
  quiet E ->
  feeds E (Playwright.feed_files E)
  /\ feeds E (Selenium.feed_files E)
  /\ (forall message bad good w,
         pw_page_ready E ->
         path_exists E (path_resolve E bad) = false ->
         path_exists E (path_resolve E good) = true ->
         exists w',
           Playwright.create_post E message (Some [bad; good]) w = (Ok true, w')
           /\ fed (log w') = fed (log w) ++ [path_resolve E good]
           /\ warned (log w') = warned (log w) ++ [path_resolve E bad])
  /\ (forall message bad good w,
         se_page_ready E ->
         path_exists E (path_resolve E bad) = false ->
         path_exists E (path_resolve E good) = true ->
         exists w',
           Selenium.create_post E message (Some [bad; good]) w = (Ok true, w')
           /\ fed (log w') = fed (log w) ++ [path_resolve E good]
           /\ warned (log w') = warned (log w) ++ [path_resolve E bad]).
Proof.
  intros Hq. split; [|split; [|split]].
  - apply pw_feed_files_feeds. intros s p t. apply Hq.
  - apply se_feed_files_feeds. intros s p t. apply Hq.
  - intros message bad good w Hr Hbad Hgood.
    now apply pw_post_with_missing_file.
  - intros message bad good w Hr Hbad Hgood.
    now apply se_post_with_missing_file.
Qed.

Lemma attachment_filter_amended_witness :
  let E := ready_page ["/tmp/cat.png"] in
  (fst (Playwright.create_post E "hello" (Some ["/tmp/missing.png"; "/tmp/cat.png"]) w0)
   = Ok true
   /\ fed (log (snd (Playwright.create_post E "hello"
                       (Some ["/tmp/missing.png"; "/tmp/cat.png"]) w0)))
      = ["/tmp/cat.png"]
   /\ warned (log (snd (Playwright.create_post E "hello"
                          (Some ["/tmp/missing.png"; "/tmp/cat.png"]) w0)))
      = ["/tmp/missing.png"])
  /\
  (fst (Selenium.create_post E "hello" (Some ["/tmp/missing.png"; "/tmp/cat.png"]) w0)
   = Ok true
   /\ fed (log (snd (Selenium.create_post E "hello"
                       (Some ["/tmp/missing.png"; "/tmp/cat.png"]) w0)))
      = ["/tmp/cat.png"]).
Proof.
  intros E.
  destruct (attachment_filter_amended E (fun a t => eq_refl)) as (_ & _ & Hp & Hs).
  split.
  - destruct (Hp "hello" "/tmp/missing.png" "/tmp/cat.png" w0)
      as (w' & Hrun & Hfed & Hwarn).
    + intros t. split; [|split; [|split; [|split]]]; reflexivity.
    + reflexivity.
    + reflexivity.
    + rewrite Hrun. cbn [fst snd]. rewrite Hfed, Hwarn. split; [|split]; reflexivity.
  - destruct (Hs "hello" "/tmp/missing.png" "/tmp/cat.png" w0)
      as (w' & Hrun & Hfed & _).
    + intros t. split; [|split; [|split]]; reflexivity.
    + reflexivity.
    + reflexivity.
    + rewrite Hrun. cbn [fst snd]. rewrite Hfed. split; reflexivity.
Defined.

(** * The save-login sweep *)

(** [starts_with es m]: whatever else [m] does, the first events it logs
    are [es]. *)
Definition grows {A} (m : M A) : Prop := adds (fun _ => True) m.

Definition starts_with (es : list event) {A} (m : M A) : Prop :=
  forall w, exists l, log (snd (m w)) = log w ++ es ++ l.

Lemma starts_nil {A} (m : M A) : grows m -> starts_with [] m.
Proof. intros H w. destruct (H w) as (l & Hl & _). now exists l. Qed.

Lemma starts_emit {A} e es (k : M A) :
  starts_with es k -> starts_with (e :: es) (emit e ;; k).
Proof.
  intros H w. unfold bind, emit. destruct (H (record e w)) as (l & Hl).
  exists l. rewrite Hl. cbn [log record]. now rewrite <- app_assoc.
Qed.

Lemma starts_sleep {A} ms es (k : M A) :
  starts_with es k -> starts_with (EvSleep ms :: es) (sleep ms ;; k).
Proof.
  intros H w. unfold bind, sleep.
  destruct (H (at_time (now w + ms) (record (EvSleep ms) w))) as (l & Hl).
  exists l. rewrite Hl. cbn [log record at_time]. now rewrite <- app_assoc.
Qed.

Lemma starts_perform E a : starts_with [EvAct a] (perform E a).
Proof.
  intros w. unfold perform. exists [].
  destruct (raises E a (now w)); reflexivity.
Qed.

Lemma starts_bind {A B} es (m : M A) (k : A -> M B) :
  starts_with es m -> (forall a, grows (k a)) -> starts_with es (bind m k).
Proof.
  intros Hm Hk w. unfold bind. destruct (Hm w) as (l & Hl).
  destruct (m w) as [[a|e] w1]; cbn [snd] in *.
  - destruct (Hk a w1) as (l' & Hl' & _). exists (l ++ l').
    now rewrite Hl', Hl, <- !app_assoc.
  - now exists l.
Qed.

Lemma starts_try {A} es (m : M A) handled (h : exn -> M A) :
  starts_with es m -> (forall e, grows (h e)) -> starts_with es (try_except m handled h).
Proof.
  intros Hm Hh w. unfold try_except. destruct (Hm w) as (l & Hl).
  destruct (m w) as [[a|e] w1]; cbn [snd] in *.
  - now exists l.
  - destruct (handled e); [|now exists l].
    destruct (Hh e w1) as (l' & Hl' & _). exists (l ++ l').
    now rewrite Hl', Hl, <- !app_assoc.
Qed.

Lemma starts_in {A} es (m : M A) e w :
  starts_with es m -> In e es ->
  exists l, log (snd (m w)) = log w ++ l /\ In e l.
Proof.
  intros H Hin. destruct (H w) as (l & Hl). exists (es ++ l).
  split; [exact Hl | apply in_or_app; now left].
Qed.

Definition sweep_call : event := EvCall "_dismiss_save_login_popup".

Lemma pw_sweep_starts E :
  starts_with [sweep_call; EvSleep 1000] (Playwright._dismiss_save_login_popup E).
Proof.
  unfold Playwright._dismiss_save_login_popup.
  apply starts_emit, starts_sleep, starts_nil.
  apply adds_bind; [now apply pw_adds_try_click|]. intros b.
  apply adds_if; [now apply adds_print|].
  apply adds_try_except; [|intros; apply adds_ret].
  apply adds_bind; [now apply adds_query|]. intros l.
  now apply pw_adds_scan_buttons.
Qed.

(** In the selenium bot the sweep opens with the text tier. *)
Lemma se_sweep_starts E :
  starts_with [sweep_call; EvPrint MsgSaveLoginChecking; EvAct (Query Selenium.button_query)]
              (Selenium._dismiss_save_login_popup E).
Proof.
  unfold Selenium._dismiss_save_login_popup.
  apply starts_emit. unfold print at 1. apply starts_emit.
  apply starts_bind.
  - apply starts_try; [|intros; apply adds_ret].
    unfold query. apply starts_bind.
    + apply starts_bind; [apply starts_perform|]. intros _ w. apply extends_refl.
    + intros l. now apply se_adds_scan_buttons.
  - intros d1. apply adds_if; [apply adds_ret|].
    apply adds_bind.
    { apply adds_try_except; [|intros; apply adds_ret].
      apply adds_bind; [now apply adds_query|]. intros l.
      now apply se_adds_scan_spans. }
    intros d2. apply adds_if; [apply adds_ret|].
    apply adds_bind; [now apply se_adds_scan_selectors|].
    intros d3. apply adds_if; [apply adds_ret | now apply adds_print].
Qed.

(** A login that answers [True] has gone through the sweep. *)
Lemma pw_login_true_swept E email password T w w' :
  Playwright.login E email password T w = (Ok true, w') ->
  exists l, log w' = log w ++ l /\ In sweep_call l.
Proof.
  unfold Playwright.login, try_except. unfold bind at 1.
  pose proof (pw_adds_login_submit (fun _ => True) (fun _ _ => I) E email password w)
    as (l1 & Hl1 & _).
  destruct (Playwright.login_submit E email password w) as [[[]|e] w1];
    cbn [snd] in Hl1; [|cbn; discriminate].
  unfold bind at 1.
  pose proof (pw_adds_login_checkpoint (fun _ => True) (fun _ _ => I) E T w1)
    as (l2 & Hl2 & _).
  destruct (Playwright.login_checkpoint E T w1) as [[[]|e] w2];
    cbn [snd] in Hl2; [|cbn; discriminate].
  unfold Playwright.login_confirm. unfold bind at 1, page_url.
  destruct (Playwright.logged_in (url_at E (now w2))); [|cbn; discriminate].
  unfold bind at 1, print at 1, emit. unfold bind at 1, sleep at 1.
  unfold bind at 1.
  match goal with
  | |- context [Playwright._dismiss_save_login_popup E ?w3] =>
      destruct (starts_in _ _ sweep_call w3 (pw_sweep_starts E) (or_introl eq_refl))
        as (l3 & Hl3 & Hin);
      destruct (Playwright._dismiss_save_login_popup E w3) as [[[]|e] w4];
      cbn [snd log record at_time] in Hl3; [|cbn; discriminate]
  end.
  unfold bind at 1.
  pose proof (pw_adds_dismiss_popups (fun _ => True) (fun _ _ => I) E w4)
    as (l4 & Hl4 & _).
  destruct (Playwright._dismiss_popups E w4) as [[[]|e] w5];
    cbn [snd] in Hl4; [|cbn; discriminate].
  unfold ret. intros H. injection H as <-.
  exists (l1 ++ l2 ++ [EvPrint MsgLoginSuccess; EvSleep 2000] ++ l3 ++ l4).
  split.
  - rewrite Hl4, Hl3, Hl2, Hl1. now rewrite <- !app_assoc.
  - rewrite !in_app_iff. auto.
Qed.

Lemma se_login_true_swept E email password w w' :
  Selenium.login E email password w = (Ok true, w') ->
  exists l, log w' = log w ++ l /\ In sweep_call l.
Proof.
  unfold Selenium.login, try_except. unfold bind at 1.
  pose proof (se_adds_login_submit (fun _ => True) (fun _ _ => I) E email password w)
    as (l1 & Hl1 & _).
  destruct (Selenium.login_submit E email password w) as [[[]|e] w1];
    cbn [snd] in Hl1; [|cbn; discriminate].
  unfold bind at 1.
  pose proof (se_adds_login_checkpoint (fun _ => True) (fun _ _ => I) E w1)
    as (l2 & Hl2 & _).
  destruct (Selenium.login_checkpoint E w1) as [[[]|e] w2];
    cbn [snd] in Hl2; [|cbn; discriminate].
  unfold Selenium.login_confirm. unfold bind at 1, page_url. unfold bind at 1.
  destruct (Py.str_in "facebook.com" (url_at E (now w2))
            && negb (Py.str_in "login" (url_at E (now w2))))%bool;
    [|cbn; discriminate].
  unfold bind at 1, print at 1, emit. unfold bind at 1, sleep at 1.
  unfold bind at 1.
  match goal with
  | |- context [Selenium._dismiss_save_login_popup E ?w3] =>
      destruct (starts_in _ _ sweep_call w3 (se_sweep_starts E) (or_introl eq_refl))
        as (l3 & Hl3 & Hin);
      destruct (Selenium._dismiss_save_login_popup E w3) as [[[]|e] w4];
      cbn [snd log record at_time] in Hl3; [|cbn; discriminate]
  end.
  unfold bind at 1.
  pose proof (se_adds_dismiss_popups (fun _ => True) (fun _ _ => I) E w4)
    as (l4 & Hl4 & _).
  destruct (Selenium._dismiss_popups E w4) as [[[]|e] w5];
    cbn [snd] in Hl4; [|cbn; discriminate].
  unfold ret. intros H. injection H as <-.
  exists (l1 ++ l2 ++ [EvPrint MsgLoginSuccess; EvSleep 2000] ++ l3 ++ l4).
  split.
  - rewrite Hl4, Hl3, Hl2, Hl1. now rewrite <- !app_assoc.
  - rewrite !in_app_iff. auto.
Qed.

(** The events of a text tier: the enumeration of the buttons and the click
    on one of them. *)
Definition text_tier (e : event) : bool :=
  match e with
  | EvAct (Query _) | EvAct (ClickNth _ _) | EvAct (ScriptClickNth _ _) => true
  | _ => false
  end.

(** A candidate loop that answers [False] has waited for every candidate. *)
Lemma probe_loop_false E c handled sels T w w' :
  handled TimeoutError = true ->
  probe_loop E c handled sels T w = (Ok false, w') ->
  exists l, log w' = log w ++ l
            /\ (forall s, In s sels -> In (EvWait c s T) l)
            /\ Forall (fun e => text_tier e = false) l.
Proof.
  intros Hh. revert w. induction sels as [|s rest IH]; intros w.
  - cbn. intros H. injection H as <-. exists []. rewrite app_nil_r.
    split; [reflexivity|]. split; [intros s []| constructor].
  - cbn [probe_loop]. unfold bind. rewrite probe_run by exact Hh. cbv zeta.
    destruct (fst (poll_n _ _ _ _)).
    + destruct (raises E (Click s) _) as [e|]; [destruct (handled e)|];
        [|discriminate|cbn; discriminate].
      intros H. destruct (IH _ H) as (l & Hl & Hall & Hf).
      exists ([EvWait c s T; EvAct (Click s)] ++ l).
      split; [rewrite Hl; cbn [log record at_time]; now rewrite <- !app_assoc|].
      split.
      * intros s' [<-|Hs']; [now left | right; right; now apply Hall].
      * repeat constructor. exact Hf.
    + intros H. destruct (IH _ H) as (l & Hl & Hall & Hf).
      exists ([EvWait c s T] ++ l).
      split; [rewrite Hl; cbn [log record at_time]; now rewrite <- !app_assoc|].
      split.
      * intros s' [<-|Hs']; [now left | right; now apply Hall].
      * repeat constructor. exact Hf.
Qed.

(** In the Playwright bot the text tier is a fallback: when it runs, every
    structured selector has been waited for before it. *)
Lemma pw_sweep_order E w :
  exists l,
    log (snd (Playwright._dismiss_save_login_popup E w)) = log w ++ l
    /\ (Forall (fun e => text_tier e = false) l
        \/ exists l1 l2,
            l = l1 ++ EvAct (Query Playwright.button_query) :: l2
            /\ Forall (fun e => text_tier e = false) l1
            /\ forall s, In s Playwright.save_login_cancel ->
                         In (EvWait Visible s 3000) l1).
Proof.
  unfold Playwright._dismiss_save_login_popup.
  unfold bind at 1, emit. unfold bind at 1, sleep at 1. unfold bind at 1.
  rewrite try_click_is_probe_loop.
  match goal with
  | |- context [probe_loop E Visible ?h ?sels 3000 ?w2] =>
      pose proof (adds_probe_loop (fun e => text_tier e = false) E Visible h sels 3000
                    (fun _ _ => eq_refl) (fun _ _ => eq_refl) w2) as (l & Hl & Hf);
      pose proof (probe_loop_false E Visible h sels 3000 w2) as Hfalse;
      destruct (probe_loop E Visible h sels 3000 w2) as [[[|]|e] w3]
  end; cbn [snd log record at_time] in Hl.
  - exists ([sweep_call; EvSleep 1000] ++ l ++ [EvPrint MsgSaveLoginCancelled]).
    split.
    + unfold print, emit. cbn [snd log record]. rewrite Hl. now rewrite <- !app_assoc.
    + left. repeat constructor. apply Forall_app. split; [exact Hf | repeat constructor].
  - destruct (Hfalse w3 eq_refl eq_refl) as (l' & Hl' & Hall & _).
    cbn [log record at_time] in Hl'.
    assert (l' = l) as -> by (rewrite Hl in Hl'; now apply app_inv_head in Hl').
    assert (starts_with [EvAct (Query Playwright.button_query)]
              (try_except
                 (buttons <- query E Playwright.button_query ;;
                  Playwright.scan_buttons E buttons 0)
                 any_exn (fun _ => ret tt))) as Hs.
    { apply starts_try; [|intros; apply adds_ret].
      unfold query. apply starts_bind.
      - apply starts_bind; [apply starts_perform|]. intros _ w'. apply extends_refl.
      - intros bs. now apply pw_adds_scan_buttons. }
    destruct (Hs w3) as (l2 & Hl2).
    exists (([sweep_call; EvSleep 1000] ++ l) ++ EvAct (Query Playwright.button_query) :: l2).
    split.
    + rewrite Hl2, Hl. cbn. now rewrite <- !app_assoc.
    + right. exists ([sweep_call; EvSleep 1000] ++ l), l2.
      split; [reflexivity|]. split.
      * repeat constructor. exact Hf.
      * intros s Hs'. right. right. now apply Hall.
  - exists ([sweep_call; EvSleep 1000] ++ l).
    split; [cbn [snd]; rewrite Hl; now rewrite <- !app_assoc|].
    left. repeat constructor. exact Hf.
Qed.

(** The text the two bots compare with the labels. *)
Definition pw_label (btn : node) : string :=
  if Py.truthy (node_text btn) then Py.lower (node_text btn) else EmptyString.

Definition se_label (btn : node) : string := Py.lower (Py.strip (node_text btn)).

(** The first button whose text is a label is clicked, and no other. *)
Lemma pw_scan_first_match E pre b post i w :
  (forall x, In x pre -> Py.mem (pw_label x) Playwright.dismiss_labels = false) ->
  Py.mem (pw_label b) Playwright.dismiss_labels = true ->
  raises E (ClickNth Playwright.button_query (i + List.length pre)) (now w) = None ->
  Playwright.scan_buttons E (pre ++ b :: post) i w =
  (Ok tt,
   {| now := now w + 1000;
      log := log w ++ [ EvAct (ClickNth Playwright.button_query (i + List.length pre));
                        EvPrint MsgSaveLoginCancelled; EvSleep 1000 ];
      attrs := attrs w |}).
Proof.
  revert i. induction pre as [|x pre IH]; intros i Hpre Hb Hclick.
  - cbn [app Playwright.scan_buttons]. fold (pw_label b). rewrite Hb.
    cbn [List.length] in Hclick. rewrite Nat.add_0_r in *.
    unfold bind, perform, print, emit, sleep. rewrite Hclick.
    unfold at_time, record. cbn [now log attrs]. f_equal. f_equal.
    now rewrite <- !app_assoc.
  - cbn [app Playwright.scan_buttons]. fold (pw_label x).
    rewrite (Hpre x (or_introl eq_refl)).
    cbn [List.length] in Hclick. rewrite <- Nat.add_succ_comm in Hclick.
    rewrite IH; [|intros y Hy; apply Hpre; now right | exact Hb | exact Hclick].
    cbn [List.length]. now rewrite <- Nat.add_succ_comm.
Qed.

Lemma se_scan_first_match E pre b post i w :
  (forall x, In x pre -> Py.mem (se_label x) Selenium.dismiss_labels = false) ->
  Py.mem (se_label b) Selenium.dismiss_labels = true ->
  raises E (ScriptClickNth Selenium.button_query (i + List.length pre)) (now w) = None ->
  Selenium.scan_buttons E (pre ++ b :: post) i w =
  (Ok true,
   {| now := now w + 1000;
      log := log w ++ [ EvAct (ScriptClickNth Selenium.button_query (i + List.length pre));
                        EvPrint MsgSaveLoginCancelled; EvSleep 1000 ];
      attrs := attrs w |}).
Proof.
  revert i. induction pre as [|x pre IH]; intros i Hpre Hb Hclick.
  - cbn [app Selenium.scan_buttons]. fold (se_label b). rewrite Hb.
    cbn [List.length] in Hclick. rewrite Nat.add_0_r in *.
    unfold bind, try_except, bind, perform, print, emit, sleep. rewrite Hclick.
    unfold ret, at_time, record. cbn [now log attrs]. f_equal. f_equal.
    now rewrite <- !app_assoc.
  - cbn [app Selenium.scan_buttons]. fold (se_label x).
    rewrite (Hpre x (or_introl eq_refl)).
    cbn [List.length] in Hclick. rewrite <- Nat.add_succ_comm in Hclick.
    unfold bind at 1, try_except at 1, ret at 1.
    rewrite IH; [|intros y Hy; apply Hpre; now right | exact Hb | exact Hclick].
    cbn [List.length]. now rewrite <- Nat.add_succ_comm.
Qed.

(** A page whose only elements are the buttons [bs]. *)
Definition with_buttons (bs : list node) : Env :=
  {| poll := 500;
     url_at := url_at blank;
     located := located blank;
     nodes_at := fun q _ =>
       if (String.eqb q Selenium.button_query || String.eqb q Playwright.button_query)%bool
       then bs else [];
     raises := raises blank;
     path_resolve := path_resolve blank;
     path_exists := path_exists blank |}.

Definition button (text : string) : node :=
  {| node_text := text; node_in_button := true |}.

(** C8, as stated, fails.  In the selenium bot the text tier is the first
    tier: a button labelled "Cancel" is clicked before any structured
    selector is tried.  In the Playwright bot the text is lowercased but not
    trimmed: a button whose text is " Cancel " is not clicked. *)
Lemma save_login_sweep_counterexample :
  log (snd (Selenium._dismiss_save_login_popup (with_buttons [button "Cancel"]) w0)) =
    [ sweep_call; EvPrint MsgSaveLoginChecking;
      EvAct (Query Selenium.button_query);
      EvAct (ScriptClickNth Selenium.button_query 0);
      EvPrint MsgSaveLoginCancelled; EvSleep 1000 ]
  /\ Py.mem (Py.lower (Py.strip " Cancel ")) Playwright.dismiss_labels = true
  /\ filter text_tier
       (log (snd (Playwright._dismiss_save_login_popup
                    (with_buttons [button " Cancel "]) w0)))
     = [ EvAct (Query Playwright.button_query) ].
Proof. vm_compute. repeat split; reflexivity. Qed.

(** C8, amended.  A login that reports success has run the save-login sweep
    before returning.  In the Playwright bot the text tier is a fallback: it
    runs only after every structured selector has been waited for, and it
    clicks the first button whose lowercased text (not trimmed) is a
    dismissal label.  In the selenium bot the text tier comes first, before
    any structured selector, and clicks the first button whose trimmed,
    lowercased text is a dismissal label. *)
Theorem save_login_sweep_amended (E : Env) (w : World) :
  (forall email password T w',
      Playwright.login E email password T w = (Ok true, w') ->
      exists l, log w' = log w ++ l /\ In sweep_call l)
  /\ (forall email password w',
      Selenium.login E email password w = (Ok true, w') ->
      exists l, log w' = log w ++ l /\ In sweep_call l)
  /\ (exists l,
      log (snd (Playwright._dismiss_save_login_popup E w)) = log w ++ l
      /\ (Forall (fun e => text_tier e = false) l
          \/ exists l1 l2,
              l = l1 ++ EvAct (Query Playwright.button_query) :: l2
              /\ Forall (fun e => text_tier e = false) l1
              /\ forall s, In s Playwright.save_login_cancel ->
                           In (EvWait Visible s 3000) l1))
  /\ (forall pre b post i,
      (forall x, In x pre -> Py.mem (pw_label x) Playwright.dismiss_labels = false) ->
      Py.mem (pw_label b) Playwright.dismiss_labels = true ->
      raises E (ClickNth Playwright.button_query (i + List.length pre)) (now w) = None ->
      Playwright.scan_buttons E (pre ++ b :: post) i w =
      (Ok tt,
       {| now := now w + 1000;
          log := log w ++ [ EvAct (ClickNth Playwright.button_query (i + List.length pre));
                            EvPrint MsgSaveLoginCancelled; EvSleep 1000 ];
          attrs := attrs w |}))
  /\ (exists l,
      log (snd (Selenium._dismiss_save_login_popup E w))
      = log w ++ [ sweep_call; EvPrint MsgSaveLoginChecking;
                   EvAct (Query Selenium.button_query) ] ++ l)
  /\ (forall pre b post i,
      (forall x, In x pre -> Py.mem (se_label x) Selenium.dismiss_labels = false) ->
      Py.mem (se_label b) Selenium.dismiss_labels = true ->
      raises E (ScriptClickNth Selenium.button_query (i + List.length pre)) (now w) = None ->
      Selenium.scan_buttons E (pre ++ b :: post) i w =
      (Ok true,
       {| now := now w + 1000;
          log := log w ++ [ EvAct (ScriptClickNth Selenium.button_query
                                                  (i + List.length pre));
                            EvPrint MsgSaveLoginCancelled; EvSleep 1000 ];
          attrs := attrs w |})).
Proof.
  split; [|split; [|split; [|split; [|split]]]].
  - intros email password T w'. apply pw_login_true_swept.
  - intros email password w'. apply se_login_true_swept.
  - apply pw_sweep_order.
  - intros pre b post i. apply pw_scan_first_match.
  - apply se_sweep_starts.
  - intros pre b post i. apply se_scan_first_match.
Qed.

Lemma save_login_sweep_amended_witness :
  (exists l, log (snd (Playwright.login (at_location (fun _ => "https://www.facebook.com/"))
                         "user" "secret" 30 w0)) = l
             /\ In sweep_call l)
  /\ Playwright.scan_buttons (with_buttons [button "Save"; button "Not Now"; button "cancel"])
       [button "Save"; button "Not Now"; button "cancel"] 0 w0
     = (Ok tt,
        {| now := 1000;
           log := [ EvAct (ClickNth Playwright.button_query 1);
                    EvPrint MsgSaveLoginCancelled; EvSleep 1000 ];
           attrs := [] |})
  /\ Selenium.scan_buttons (with_buttons [button "Save"; button " Cancel "])
       [button "Save"; button " Cancel "] 0 w0
     = (Ok true,
        {| now := 1000;
           log := [ EvAct (ScriptClickNth Selenium.button_query 1);
                    EvPrint MsgSaveLoginCancelled; EvSleep 1000 ];
           attrs := [] |}).
Proof.
  split; [|split].
  - destruct (save_login_sweep_amended (at_location (fun _ => "https://www.facebook.com/")) w0)
      as (H & _).
    destruct (H "user" "secret" 30
                (snd (Playwright.login (at_location (fun _ => "https://www.facebook.com/"))
                        "user" "secret" 30 w0)))
      as (l & Hl & Hin).
    + vm_compute. reflexivity.
    + exists l. split; [exact Hl | exact Hin].
  - destruct (save_login_sweep_amended
                (with_buttons [button "Save"; button "Not Now"; button "cancel"]) w0)
      as (_ & _ & _ & H & _).
    apply (H [button "Save"] (button "Not Now") [button "cancel"] 0%nat).
    + intros x [<-|[]]. reflexivity.
    + reflexivity.
    + reflexivity.
  - destruct (save_login_sweep_amended (with_buttons [button "Save"; button " Cancel "]) w0)
      as (_ & _ & _ & _ & _ & H).
    apply (H [button "Save"] (button " Cancel ") [] 0%nat).
    + intros x [<-|[]]. reflexivity.
    + reflexivity.
    + reflexivity.
Defined.

(** * Further properties of the bots *)

(** ** [_find_element_with_retry] *)

Lemma find_candidate_run E s secs w :
  Selenium.find_candidate E s secs w =
  let r := poll_n (located E Present s) (step E) (polls (secs * 1000) (step E)) (now w) in
  (Ok (fst r), at_time (snd r) (record (EvWait Present s (secs * 1000)) w)).
Proof.
  unfold Selenium.find_candidate, try_except, bind, Selenium.wait_until, wait_for, ret.
  destruct (poll_n _ _ _ _) as [[|] t]; reflexivity.
Qed.

Lemma find_loop_app_none E pre rest secs w :
  (forall s, In s pre -> forall t, located E Present s t = false) ->
  Selenium.find_loop E (pre ++ rest) secs w
  = Selenium.find_loop E rest secs (timed_out E Present pre (secs * 1000) w).
Proof.
  revert w. induction pre as [|s pre IH]; intros w Hpre.
  - cbn [app]. f_equal. unfold timed_out. destruct w as [t l a]. cbn.
    f_equal; [lia | now rewrite app_nil_r].
  - cbn [app Selenium.find_loop]. unfold bind. rewrite find_candidate_run. cbv zeta.
    rewrite poll_n_never by (apply Hpre; now left). cbn [fst snd].
    rewrite IH by (intros s' Hs'; apply Hpre; now right).
    f_equal. unfold timed_out, at_time, record, span. cbn.
    f_equal; [lia | now rewrite <- app_assoc].
Qed.

(** The find-only resolver returns the first candidate that is present,
    having waited for the candidates before it and for nothing after it; it
    clicks nothing; and when no candidate is ever present it raises a timeout
    after one full wait per candidate. *)
Theorem find_with_retry_first_present
    (E : Env) (pre post : list string) (s : string) (timeout : option Z)
    (t' : Z) (w : World) :
  let T := Selenium.timeout_or_default timeout * 1000 in
  (forall s', In s' pre -> forall t, located E Present s' t = false) ->
  poll_n (located E Present s) (step E) (polls T (step E))
         (now w + Z.of_nat (List.length pre) * span E T) = (true, t') ->
  Selenium._find_element_with_retry E (pre ++ s :: post) timeout w =
    (Ok s,
     {| now := t';
        log := log w ++ map (fun s' => EvWait Present s' T) pre ++ [EvWait Present s T];
        attrs := attrs w |})
  /\ Selenium._find_element_with_retry E pre timeout w =
     (Raise TimeoutError, timed_out E Present pre T w).
Proof.
  intros T Hpre Hs. unfold Selenium._find_element_with_retry, bind. split.
  - rewrite find_loop_app_none by exact Hpre.
    cbn [Selenium.find_loop]. unfold bind. rewrite find_candidate_run. cbv zeta.
    cbn [timed_out now]. fold T. rewrite Hs. cbn [fst snd]. unfold ret.
    f_equal. unfold at_time, record, timed_out. cbn [now log attrs].
    f_equal. now rewrite <- !app_assoc.
  - rewrite <- (app_nil_r pre) at 1. rewrite find_loop_app_none by exact Hpre.
    reflexivity.
Qed.

Lemma find_with_retry_first_present_witness :
  Selenium._find_element_with_retry (showing ["c"]) ["a"; "b"; "c"; "d"] (Some 5) w0 =
    (Ok "c",
     {| now := 11000;
        log := [ EvWait Present "a" 5000; EvWait Present "b" 5000;
                 EvWait Present "c" 5000 ];
        attrs := [] |})
  /\ fst (Selenium._find_element_with_retry (showing ["c"]) ["a"; "b"] (Some 5) w0)
     = Raise TimeoutError.
Proof.
  destruct (find_with_retry_first_present (showing ["c"]) ["a"; "b"] ["d"] "c"
              (Some 5) 11000 w0) as [H1 H2].
  - intros s' [<-|[<-|[]]] t; reflexivity.
  - vm_compute. reflexivity.
  - split; [exact H1 | now rewrite H2].
Defined.

(** ** [timeout or Config.DEFAULT_WAIT_TIME] *)

(** A timeout of 0 is not "do not wait": the retry helpers of the selenium
    bot take it for a missing argument and wait the default 10 s per
    candidate, so a call where nothing matches lasts more than 10 s per
    candidate. *)
Theorem zero_timeout_waits_default (E : Env) (sels : list string) (w : World) :
  (forall s, In s sels -> forall t, located E Clickable s t = false) ->
  Selenium._click_element_with_retry E sels (Some 0) w
  = Selenium._click_element_with_retry E sels None w
  /\ Selenium._click_element_with_retry E sels (Some 0) w
     = (Ok false, timed_out E Clickable sels 10000 w)
  /\ now w + Z.of_nat (List.length sels) * 10000
     <= now (timed_out E Clickable sels 10000 w).
Proof.
  intros Hnone. split; [reflexivity|]. split.
  - rewrite click_with_retry_is_probe_loop. now apply probe_loop_none.
  - cbn [timed_out now]. pose proof (span_bounds E 10000 ltac:(lia)). nia.
Qed.

Lemma zero_timeout_waits_default_witness :
  Selenium._click_element_with_retry blank ["a"; "b"] (Some 0) w0
  = (Ok false,
     {| now := 21000;
        log := [EvWait Clickable "a" 10000; EvWait Clickable "b" 10000];
        attrs := [] |}).
Proof.
  destruct (zero_timeout_waits_default blank ["a"; "b"] w0) as (_ & H & _).
  - intros s _ t. reflexivity.
  - exact H.
Defined.

(** ** The popup sweeps *)

Lemma se_dismiss_each_none E sels w :
  (forall s, In s sels -> forall t, located E Present s t = false) ->
  Selenium.dismiss_each E sels w = (Ok tt, timed_out E Present sels (2 * 1000) w).
Proof.
  revert w. induction sels as [|s rest IH]; intros w Hnone.
  - cbn. unfold ret, timed_out. destruct w as [t l a]. cbn.
    f_equal. f_equal; [lia | now rewrite app_nil_r].
  - cbn [Selenium.dismiss_each]. unfold bind at 1.
    unfold try_except, bind at 1, Selenium.wait_until, wait_for.
    rewrite poll_n_never by (apply Hnone; now left).
    cbn [any_exn]. unfold ret at 1.
    rewrite IH by (intros s' Hs'; apply Hnone; now right).
    f_equal. unfold timed_out, at_time, record, span. cbn [now log attrs List.length map].
    f_equal; [lia | now rewrite <- app_assoc].
Qed.

(** On a page without popups the sweeps click nothing and return normally:
    the Playwright sweep sleeps one second and waits 2 s for each of its seven
    selectors, the selenium sweep waits 2 s for each of its four. *)
Theorem sweep_without_popups (E : Env) (w : World) :
  ((forall s, In s (Playwright.close_buttons ++ Playwright.not_now_buttons) ->
              forall t, located E Visible s t = false) ->
   Playwright._dismiss_popups E w =
   (Ok tt,
    {| now := now w + 1000 + 7 * span E 2000;
       log := log w ++ EvSleep 1000
                    :: map (fun s => EvWait Visible s 2000)
                           (Playwright.close_buttons ++ Playwright.not_now_buttons);
       attrs := attrs w |}))
  /\
  ((forall s, In s [Selenium.close_popup; Selenium.close_popup_en;
                    Selenium.not_now_button; Selenium.not_now_button_en] ->
              forall t, located E Present s t = false) ->
   Selenium._dismiss_popups E w =
   (Ok tt,
    {| now := now w + 4 * span E 2000;
       log := log w ++ map (fun s => EvWait Present s (2 * 1000))
                           [Selenium.close_popup; Selenium.close_popup_en;
                            Selenium.not_now_button; Selenium.not_now_button_en];
       attrs := attrs w |})).
Proof.
  split.
  - intros Hnone. unfold Playwright._dismiss_popups.
    unfold bind at 1, sleep at 1. unfold bind at 1.
    rewrite try_click_is_probe_loop, probe_loop_none
      by (reflexivity || (intros s Hs; apply Hnone, in_or_app; now left)).
    unfold bind at 1.
    rewrite try_click_is_probe_loop, probe_loop_none
      by (reflexivity || (intros s Hs; apply Hnone, in_or_app; now right)).
    unfold ret, timed_out, at_time, record. cbn [now log attrs].
    f_equal. f_equal.
    + change (Z.of_nat (List.length Playwright.close_buttons)) with 4.
      change (Z.of_nat (List.length Playwright.not_now_buttons)) with 3. lia.
    + rewrite map_app, <- !app_assoc. reflexivity.
  - intros Hnone. unfold Selenium._dismiss_popups.
    rewrite se_dismiss_each_none by exact Hnone. reflexivity.
Qed.

Lemma sweep_without_popups_witness :
  Playwright._dismiss_popups blank w0 =
  (Ok tt,
   {| now := 18500;
      log := EvSleep 1000
             :: map (fun s => EvWait Visible s 2000)
                    (Playwright.close_buttons ++ Playwright.not_now_buttons);
      attrs := [] |})
  /\ now (snd (Selenium._dismiss_popups blank w0)) = 10000.
Proof.
  destruct (sweep_without_popups blank w0) as [Hp Hs].
  split.
  - apply Hp. intros s _ t. reflexivity.
  - rewrite Hs; [reflexivity|]. intros s _ t. reflexivity.
Defined.

(** Every popup that is present is clicked by the selenium sweep, one after
    the other (its loop does not stop at the first). *)
Lemma se_dismiss_each_all E sels w :
  quiet E ->
  (forall s, In s sels -> forall t, located E Present s t = true) ->
  Selenium.dismiss_each E sels w =
  (Ok tt,
   {| now := now w + 1000 * Z.of_nat (List.length sels);
      log := log w ++ flat_map (fun s => [ EvWait Present s (2 * 1000);
                                           EvAct (ScriptClick s);
                                           EvPrint MsgPopupClosed; EvSleep 1000 ]) sels;
      attrs := attrs w |}).
Proof.
  intros Hq. revert w. induction sels as [|s rest IH]; intros w Hall.
  - cbn. unfold ret. destruct w as [t l a]. cbn.
    f_equal. f_equal; [lia | now rewrite app_nil_r].
  - cbn [Selenium.dismiss_each]. unfold bind at 1.
    unfold try_except, bind at 1, Selenium.wait_until, wait_for. unfold polls.
    rewrite poll_n_now by (apply Hall; now left).
    unfold bind at 1, perform at 1. rewrite Hq.
    unfold bind at 1, print at 1, emit. unfold sleep at 1.
    rewrite IH by (intros s' Hs'; apply Hall; now right).
    f_equal. unfold at_time, record. cbn [now log attrs List.length flat_map].
    f_equal; [lia | now rewrite <- !app_assoc].
Qed.

Theorem selenium_sweep_clicks_every_popup (E : Env) (w : World) :
  quiet E ->
  (forall s, In s [Selenium.close_popup; Selenium.close_popup_en;
                   Selenium.not_now_button; Selenium.not_now_button_en] ->
             forall t, located E Present s t = true) ->
  Selenium._dismiss_popups E w =
  (Ok tt,
   {| now := now w + 4000;
      log := log w
             ++ flat_map (fun s => [ EvWait Present s (2 * 1000); EvAct (ScriptClick s);
                                     EvPrint MsgPopupClosed; EvSleep 1000 ])
                  [Selenium.close_popup; Selenium.close_popup_en;
                   Selenium.not_now_button; Selenium.not_now_button_en];
      attrs := attrs w |}).
Proof.
  intros Hq Hall. unfold Selenium._dismiss_popups.
  now rewrite se_dismiss_each_all.
Qed.

Lemma selenium_sweep_clicks_every_popup_witness :
  now (snd (Selenium._dismiss_popups (ready_page []) w0)) = 4000
  /\ count (fun e => match e with EvAct (ScriptClick _) => true | _ => false end)
           (log (snd (Selenium._dismiss_popups (ready_page []) w0))) = 4%nat.
Proof.
  rewrite (selenium_sweep_clicks_every_popup (ready_page []) w0).
  - split; reflexivity.
  - intros a t. reflexivity.
  - intros s _ t. reflexivity.
Defined.

(** ** One click per call *)

Definition is_click (e : event) : bool :=
  match e with EvAct (Click _) => true | _ => false end.

Lemma probe_loop_one_click E c handled sels T w :
  handled TimeoutError = true ->
  clicks_land E ->
  exists b w' l,
    probe_loop E c handled sels T w = (Ok b, w')
    /\ log w' = log w ++ l
    /\ count is_click l = (if b then 1 else 0)%nat.
Proof.
  intros Hh Hq. revert w. induction sels as [|s rest IH]; intros w.
  - exists false, w, []. cbn. now rewrite app_nil_r.
  - cbn [probe_loop]. unfold bind. rewrite probe_run by exact Hh. cbv zeta.
    destruct (fst (poll_n _ _ _ _)).
    + rewrite Hq. eexists true, _, [EvWait c s T; EvAct (Click s)].
      split; [reflexivity|]. split; [|reflexivity].
      cbn [log record at_time]. now rewrite <- app_assoc.
    + match goal with
      | |- context [probe_loop E c handled rest T ?w1] =>
          destruct (IH w1) as (b & w' & l & Hrun & Hl & Hc)
      end.
      exists b, w', (EvWait c s T :: l). split; [exact Hrun|]. split.
      * rewrite Hl. cbn [log record at_time]. now rewrite <- app_assoc.
      * exact Hc.
Qed.

(** When no click raises, a call of the click helpers clicks at most one
    element, and it returns [True] exactly when it clicked one.  Both
    drivers. *)
Theorem click_helpers_click_once
    (E : Env) (sels : list string) (T : Z) (timeout : option Z) (w : World) :
  clicks_land E ->
  (exists b w' l,
      Playwright._try_click E sels T w = (Ok b, w')
      /\ log w' = log w ++ l
      /\ count is_click l = (if b then 1 else 0)%nat)
  /\ (exists b w' l,
      Selenium._click_element_with_retry E sels timeout w = (Ok b, w')
      /\ log w' = log w ++ l
      /\ count is_click l = (if b then 1 else 0)%nat).
Proof.
  intros Hq. split.
  - rewrite try_click_is_probe_loop. now apply probe_loop_one_click.
  - rewrite click_with_retry_is_probe_loop. now apply probe_loop_one_click.
Qed.

Lemma click_helpers_click_once_witness :
  count is_click (log (snd (Playwright._try_click (ready_page [])
                              Playwright.post_button 10000 w0))) = 1%nat.
Proof.
  destruct (click_helpers_click_once (ready_page []) Playwright.post_button 10000 None w0)
    as [(b & w' & l & Hrun & Hl & Hc) _].
  - intros s t. reflexivity.
  - rewrite Hrun. cbn [snd]. rewrite Hl. cbn [log w0 app].
    assert (b = true) as ->; [|exact Hc].
    assert (fst (Playwright._try_click (ready_page []) Playwright.post_button 10000 w0)
            = Ok true) as Hb by (vm_compute; reflexivity).
    rewrite Hrun in Hb. now injection Hb.
Defined.

(** ** Exceptions *)

(** [login] and [create_post] turn every exception into [False], and the
    run functions of main.py print it: none of them raises.  Both drivers. *)
Theorem bots_never_raise
    (E : Env) (email password message : string) (media : option (list string)) (T : Z) :
  succeeds (Playwright.login E email password T)
  /\ succeeds (Playwright.create_post E message media)
  /\ succeeds (Playwright.run_playwright_mode E email password message media)
  /\ succeeds (Selenium.login E email password)
  /\ succeeds (Selenium.create_post E message media)
  /\ succeeds (Selenium.run_selenium_mode E email password message media).
Proof.
  repeat split; apply succeeds_try_any; intros e;
    first [ apply succeeds_print
          | apply succeeds_bind; [apply succeeds_print | intros _; apply succeeds_ret] ].
Qed.

(** The sweeps of the selenium bot take every exception themselves. *)
Theorem selenium_sweeps_never_raise (E : Env) :
  succeeds (Selenium._dismiss_popups E)
  /\ succeeds (Selenium._dismiss_save_login_popup E).
Proof.
  split; [apply se_succeeds_dismiss_each | apply se_succeeds_dismiss_save_login_popup].
Qed.

(** The Playwright sweep handles timeouts only: a click on a popup that
    raises anything else leaves the sweep, and a login that had nothing wrong
    with its form ends there, answering [False] before the email field is
    looked for. *)
Theorem playwright_sweep_click_error_fails_login
    (E : Env) (email password : string) (T : Z) (e : exn) (w : World) :
  raises E (Goto Config.FACEBOOK_LOGIN_URL) (now w) = None ->
  raises E WaitLoadState (now w) = None ->
  located E Visible "[aria-label='닫기']" (now w + 1000) = true ->
  raises E (Click "[aria-label='닫기']") (now w + 1000) = Some e ->
  exn_eqb TimeoutError e = false ->
  fst (Playwright._dismiss_popups E w) = Raise e
  /\ Playwright.login E email password T w =
     (Ok false,
      {| now := now w + 1000;
         log := log w ++ [ EvPrint MsgLoginStart;
                           EvAct (Goto Config.FACEBOOK_LOGIN_URL);
                           EvAct WaitLoadState; EvSleep 1000;
                           EvWait Visible "[aria-label='닫기']" 2000;
                           EvAct (Click "[aria-label='닫기']");
                           EvPrint MsgLoginError ];
         attrs := attrs w |}).
Proof.
  intros Hgoto Hload Hshown Hclick Hne.
  assert (forall w1, now w1 = now w ->
            Playwright._dismiss_popups E w1 =
            (Raise e,
             record (EvAct (Click "[aria-label='닫기']"))
               (record (EvWait Visible "[aria-label='닫기']" 2000)
                  (at_time (now w + 1000) (record (EvSleep 1000) w1))))) as Hsweep.
  { intros w1 Hw1. unfold Playwright._dismiss_popups.
    unfold bind at 1, sleep at 1. unfold bind at 1.
    rewrite try_click_is_probe_loop. unfold Playwright.close_buttons.
    cbn [probe_loop]. unfold bind at 1. rewrite probe_run by reflexivity. cbv zeta.
    cbn [now at_time record]. rewrite Hw1. unfold polls.
    rewrite poll_n_now by exact Hshown. cbn [fst snd].
    rewrite Hclick, Hne. reflexivity. }
  split.
  - now rewrite Hsweep.
  - unfold Playwright.login, try_except. unfold bind at 1.
    unfold Playwright.login_submit.
    unfold bind at 1, print at 1, emit.
    unfold bind at 1, perform at 1. cbn [now record]. rewrite Hgoto.
    unfold bind at 1, perform at 1. cbn [now record]. rewrite Hload.
    unfold bind at 1. rewrite Hsweep by reflexivity.
    cbn [any_exn]. rewrite Hne. unfold bind, print, emit, ret.
    f_equal. unfold record, at_time. cbn [now log attrs].
    f_equal. now rewrite <- !app_assoc.
Qed.

(** Every selector resolves and every click is intercepted. *)
Definition all_intercepted : Env :=
  {| poll := 500;
     url_at := url_at blank;
     located := fun _ _ _ => true;
     nodes_at := nodes_at blank;
     raises := fun a _ => match a with Click _ => Some ClickIntercepted | _ => None end;
     path_resolve := path_resolve blank;
     path_exists := path_exists blank |}.

Lemma playwright_sweep_click_error_fails_login_witness :
  fst (Playwright.login all_intercepted "user" "secret" 30 w0) = Ok false
  /\ count (touches Playwright.email_input)
           (log (snd (Playwright.login all_intercepted "user" "secret" 30 w0))) = 0%nat.
Proof.
  destruct (playwright_sweep_click_error_fails_login all_intercepted "user" "secret" 30
              ClickIntercepted w0) as [_ H]; try reflexivity.
  rewrite H. split; reflexivity.
Defined.

(** ** Opening and closing the session *)

(** Without an email or without a password the constructor raises before a
    browser is started: the run prints the error and does nothing else. *)
Theorem missing_credentials_start_nothing
    (E : Env) (email password message : string) (media : option (list string))
    (w : World) :
  email = EmptyString \/ password = EmptyString ->
  Playwright.run_playwright_mode E email password message media w
  = (Ok tt, {| now := now w; log := log w ++ [EvPrint MsgRunError]; attrs := [] |})
  /\ Selenium.run_selenium_mode E email password message media w
     = (Ok tt, {| now := now w; log := log w ++ [EvPrint MsgRunError]; attrs := [] |}).
Proof.
  intros H.
  assert ((negb (Py.truthy email) || negb (Py.truthy password))%bool = true) as Hbad.
  { destruct H as [-> | ->]; cbn; [reflexivity | apply orb_true_r]. }
  split.
  - unfold Playwright.run_playwright_mode, try_except, bind, Playwright.init, bind,
      Playwright._validate_credentials.
    rewrite Hbad. reflexivity.
  - unfold Selenium.run_selenium_mode, try_except, bind, Selenium.init, bind,
      Selenium._validate_credentials.
    rewrite Hbad. reflexivity.
Qed.

Lemma missing_credentials_start_nothing_witness :
  log (snd (Playwright.run_playwright_mode blank "user" EmptyString "hello" None w0))
  = [EvPrint MsgRunError].
Proof.
  destruct (missing_credentials_start_nothing blank "user" EmptyString "hello" None w0)
    as [H _]; [now right|].
  now rewrite H.
Defined.

(** A start that fails half-way is not undone.  When the context cannot be
    created, [__enter__] raises with the driver and the browser held, and the
    [with] block runs neither its body nor [close_browser].  In the selenium
    bot a [WebDriverException] after the driver was created becomes a
    [RuntimeError], the driver staying open. *)
Theorem failed_start_releases_nothing
    (E : Env) (A : Type) (body : M A) (e : exn) (w : World) :
  (raises E StartPlaywright (now w) = None ->
   raises E LaunchBrowser (now w) = None ->
   raises E NewContext (now w) = Some e ->
   with_ (Playwright.__enter__ E) (Playwright.__exit__ E) body w =
   (Raise e,
    {| now := now w;
       log := log w ++ [ EvCall "start_browser"; EvPrint MsgBrowserStarting;
                         EvAct StartPlaywright; EvAct LaunchBrowser; EvAct NewContext ];
       attrs := RBrowser :: RPlaywright :: attrs w |}))
  /\
  (raises E LaunchBrowser (now w) = None ->
   raises E AddInitScript (now w) = Some WebDriverError ->
   with_ (Selenium.__enter__ E) (Selenium.__exit__ E) body w =
   (Raise RuntimeError,
    {| now := now w;
       log := log w ++ [ EvCall "start_browser"; EvPrint MsgBrowserStarting;
                         EvAct LaunchBrowser; EvAct AddInitScript ];
       attrs := RDriver :: attrs w |})).
Proof.
  split.
  - intros H1 H2 H3.
    unfold with_, Playwright.__enter__, Playwright.start_browser.
    unfold bind, emit, print, emit, perform, set_attr.
    cbn [now log attrs record]. rewrite H1. cbn [now log attrs record].
    rewrite H2. cbn [now log attrs record]. rewrite H3.
    f_equal. unfold record. cbn [now log attrs]. f_equal. now rewrite <- !app_assoc.
  - intros H1 H2.
    unfold with_, Selenium.__enter__, Selenium.start_browser.
    unfold bind, try_except, bind, emit, print, emit, perform, set_attr.
    cbn [now log attrs record]. rewrite H1. cbn [now log attrs record].
    rewrite H2. cbn [exn_eqb]. unfold raise.
    f_equal. unfold record. cbn [now log attrs]. f_equal. now rewrite <- !app_assoc.
Qed.

(** No context can be created; the init script makes the driver fail. *)
Definition no_context : Env :=
  {| poll := 500;
     url_at := url_at blank;
     located := located blank;
     nodes_at := nodes_at blank;
     raises := fun a _ =>
       match a with
       | NewContext => Some OtherError
       | AddInitScript => Some WebDriverError
       | _ => None
       end;
     path_resolve := path_resolve blank;
     path_exists := path_exists blank |}.

Lemma failed_start_releases_nothing_witness :
  releases (log (snd (with_ (Playwright.__enter__ no_context) (Playwright.__exit__ no_context)
                        (Playwright.login no_context "user" "secret" 30) w0))) = []
  /\ holds RBrowser (snd (with_ (Playwright.__enter__ no_context)
                            (Playwright.__exit__ no_context)
                            (Playwright.login no_context "user" "secret" 30) w0)) = true
  /\ fst (with_ (Selenium.__enter__ no_context) (Selenium.__exit__ no_context)
            (Selenium.login no_context "user" "secret") w0) = Raise RuntimeError.
Proof.
  destruct (failed_start_releases_nothing no_context bool
              (Playwright.login no_context "user" "secret" 30) OtherError w0) as [Hp _].
  destruct (failed_start_releases_nothing no_context bool
              (Selenium.login no_context "user" "secret") OtherError w0) as [_ Hs].
  rewrite Hp, Hs; try reflexivity.
  split; [|split]; reflexivity.
Defined.

(** Running a primitive followed by the rest. *)
Lemma bind_emit {A} e (k : unit -> M A) w : bind (emit e) k w = k tt (record e w).
Proof. reflexivity. Qed.

Lemma bind_print {A} m (k : unit -> M A) w :
  bind (print m) k w = k tt (record (EvPrint m) w).
Proof. reflexivity. Qed.

Lemma bind_sleep {A} ms (k : unit -> M A) w :
  bind (sleep ms) k w = k tt (at_time (now w + ms) (record (EvSleep ms) w)).
Proof. reflexivity. Qed.

Lemma bind_set_attr {A} r (k : unit -> M A) w :
  bind (set_attr r) k w = k tt {| now := now w; log := log w; attrs := r :: attrs w |}.
Proof. reflexivity. Qed.

Lemma bind_has_attr {A} r (k : bool -> M A) w :
  bind (has_attr r) k w = k (holds r w) w.
Proof. reflexivity. Qed.

Lemma bind_perform_quiet {A} E a (k : unit -> M A) w :
  quiet E -> bind (perform E a) k w = k tt (record (EvAct a) w).
Proof. intros Hq. unfold bind, perform. now rewrite Hq. Qed.

Lemma perform_quiet E a w : quiet E -> perform E a w = (Ok tt, record (EvAct a) w).
Proof. intros Hq. unfold perform. now rewrite Hq. Qed.

Ltac run_quiet Hq :=
  repeat (first [ rewrite bind_emit | rewrite bind_print | rewrite bind_sleep
                | rewrite bind_set_attr | rewrite bind_has_attr
                | rewrite (bind_perform_quiet _ _ _ _ Hq) ];
          cbv beta).

(** When nothing raises, a [with] block acquires the driver, the browser,
    the context and the page, and releases context, browser and driver:
    the reverse order, the page going with its context. *)
Theorem open_close_round_trip (E : Env) (w : World) :
  quiet E ->
  with_ (Playwright.__enter__ E) (Playwright.__exit__ E) (ret tt) w =
  (Ok tt,
   {| now := now w;
      log := log w ++ [ EvCall "start_browser"; EvPrint MsgBrowserStarting;
                        EvAct StartPlaywright; EvAct LaunchBrowser; EvAct NewContext;
                        EvAct NewPage; EvAct AddInitScript; EvPrint MsgBrowserStarted;
                        EvCall "close_browser";
                        EvAct CloseContext; EvAct CloseBrowser; EvAct StopPlaywright;
                        EvPrint MsgBrowserClosed ];
      attrs := RPage :: RContext :: RBrowser :: RPlaywright :: attrs w |})
  /\
  with_ (Selenium.__enter__ E) (Selenium.__exit__ E) (ret tt) w =
  (Ok tt,
   {| now := now w;
      log := log w ++ [ EvCall "start_browser"; EvPrint MsgBrowserStarting;
                        EvAct LaunchBrowser; EvAct AddInitScript; EvPrint MsgBrowserStarted;
                        EvCall "close_browser"; EvAct QuitDriver; EvPrint MsgBrowserClosed ];
      attrs := RDriver :: attrs w |}).
Proof.
  intros Hq. split.
  - assert (Playwright.start_browser E w =
            (Ok tt,
             {| now := now w;
                log := log w ++ [ EvCall "start_browser"; EvPrint MsgBrowserStarting;
                                  EvAct StartPlaywright; EvAct LaunchBrowser;
                                  EvAct NewContext; EvAct NewPage; EvAct AddInitScript;
                                  EvPrint MsgBrowserStarted ];
                attrs := RPage :: RContext :: RBrowser :: RPlaywright :: attrs w |}))
      as Hstart.
    { unfold Playwright.start_browser. run_quiet Hq.
      unfold print, emit, record. cbn [now log attrs].
      f_equal. f_equal. now rewrite <- !app_assoc. }
    unfold with_, Playwright.__enter__, Playwright.__exit__. rewrite Hstart.
    unfold ret at 1. unfold Playwright.close_browser.
    repeat progress (run_quiet Hq; try unfold holds;
                     cbn [attrs record existsb resource_eqb orb when]).
    unfold print, emit, record. cbn [now log attrs].
    f_equal. f_equal. now rewrite <- !app_assoc.
  - assert (Selenium.start_browser E w =
            (Ok tt,
             {| now := now w;
                log := log w ++ [ EvCall "start_browser"; EvPrint MsgBrowserStarting;
                                  EvAct LaunchBrowser; EvAct AddInitScript;
                                  EvPrint MsgBrowserStarted ];
                attrs := RDriver :: attrs w |})) as Hstart.
    { unfold Selenium.start_browser. run_quiet Hq. unfold try_except.
      run_quiet Hq.
      unfold print, emit, record. cbn [now log attrs].
      f_equal. f_equal. now rewrite <- !app_assoc. }
    unfold with_, Selenium.__enter__, Selenium.__exit__. rewrite Hstart.
    unfold ret at 1. unfold Selenium.close_browser.
    repeat progress (run_quiet Hq; try unfold holds;
                     cbn [attrs record existsb resource_eqb orb when]).
    unfold print, emit, record. cbn [now log attrs].
    f_equal. f_equal. now rewrite <- !app_assoc.
Qed.

Lemma open_close_round_trip_witness :
  releases (log (snd (with_ (Playwright.__enter__ blank) (Playwright.__exit__ blank)
                        (ret tt) w0)))
  = [CloseContext; CloseBrowser; StopPlaywright].
Proof.
  destruct (open_close_round_trip blank w0) as [H _].
  - intros a t. reflexivity.
  - now rewrite H.
Defined.

(** ** [create_post] *)

(** Without attachments, [None] or an empty list alike, [create_post] never
    enters the attachment sub-flow: it feeds no file and warns about none.
    Both drivers. *)
Theorem no_attachments_no_upload
    (E : Env) (message : string) (media : option (list string)) (w : World) :
  media = None \/ media = Some [] ->
  extends plain w (snd (Playwright.create_post E message media w))
  /\ extends plain w (snd (Selenium.create_post E message media w)).
Proof.
  intros H.
  assert (Playwright.given media = false /\ Selenium.given media = false) as [Hp Hs]
      by (destruct H as [-> | ->]; split; reflexivity).
  split.
  - revert w. fold (adds plain (Playwright.create_post E message media)).
    unfold Playwright.create_post. rewrite Hp.
    apply adds_try_except; [|intros e; adds_auto ltac:(destruct (exn_eqb _ _); exact I)].
    apply adds_bind; [apply pw_adds_open_composer; auto|]. intros b.
    apply adds_if; [adds_auto ltac:(exact I)|].
    apply adds_bind; [apply adds_sleep; exact I|]. intros _.
    apply adds_bind; [apply adds_ret|]. intros _.
    apply pw_adds_write_and_publish; auto.
  - revert w. fold (adds plain (Selenium.create_post E message media)).
    unfold Selenium.create_post. rewrite Hs.
    apply adds_try_except; [|intros e; adds_auto ltac:(destruct (exn_eqb _ _); exact I)].
    apply adds_bind; [apply se_adds_open_composer; auto|]. intros b.
    apply adds_if; [adds_auto ltac:(exact I)|].
    apply adds_bind; [apply adds_sleep; exact I|]. intros _.
    apply adds_bind; [apply adds_ret|]. intros _.
    apply se_adds_write_and_publish; auto.
Qed.

Lemma no_attachments_no_upload_witness :
  fed (log (snd (Playwright.create_post (ready_page ["/tmp/cat.png"]) "hello" (Some []) w0)))
  = [].
Proof.
  destruct (no_attachments_no_upload (ready_page ["/tmp/cat.png"]) "hello" (Some []) w0)
    as [H _]; [now right|].
  exact (proj1 (fed_extends _ _ (extends_weaken _ _ _ _ plain_no_files H))).
Defined.

(** Events of the composition proper: typing the message, feeding a file,
    entering the attachment sub-flow. *)
Definition composing (e : event) : bool :=
  match e with
  | EvAct (TypeText _ _) | EvAct (SetInputFiles _ _) => true
  | EvAct (Fill s _) => String.eqb s Selenium.post_box
  | EvCall f => (String.eqb f "_upload_images" || String.eqb f "_upload_media")%bool
  | _ => false
  end.

Definition not_composing (e : event) : Prop := composing e = false.

Lemma bind_not_true {A} (m : M A) (k : A -> M bool) w :
  (forall a w1, fst (k a w1) <> Ok true) -> fst (bind m k w) <> Ok true.
Proof.
  intros Hk. unfold bind. destruct (m w) as [[a|e] w1]; [apply Hk | discriminate].
Qed.

Lemma pw_open_composer_not_found E w :
  (forall s, In s Playwright.whats_on_your_mind ->
             forall t, located E Visible s t = false) ->
  fst (Playwright.open_composer E w) <> Ok true
  /\ extends not_composing w (snd (Playwright.open_composer E w)).
Proof.
  intros Hnone. split.
  - unfold Playwright.open_composer.
    do 5 (apply bind_not_true; intros ? ?).
    rewrite try_click_is_probe_loop, probe_loop_none by (reflexivity || exact Hnone).
    discriminate.
  - revert w. fold (adds not_composing (Playwright.open_composer E)).
    unfold Playwright.open_composer.
    do 4 (apply adds_bind; [adds_auto ltac:(reflexivity)|]; intros _).
    apply adds_bind; [|intros _].
    + unfold Playwright._dismiss_popups.
      apply adds_bind; [apply adds_sleep; reflexivity|]. intros _.
      apply adds_bind; [|intros _; apply adds_bind; [|intros; apply adds_ret]];
        rewrite try_click_is_probe_loop; apply adds_probe_loop; intros; reflexivity.
    + rewrite try_click_is_probe_loop. apply adds_probe_loop; intros; reflexivity.
Qed.

Lemma se_open_composer_not_found E w :
  (forall s, In s [Selenium.whats_on_your_mind; Selenium.whats_on_your_mind_en] ->
             forall t, located E Clickable s t = false) ->
  fst (Selenium.open_composer E w) <> Ok true
  /\ extends not_composing w (snd (Selenium.open_composer E w)).
Proof.
  intros Hnone. split.
  - unfold Selenium.open_composer.
    do 4 (apply bind_not_true; intros ? ?).
    rewrite click_with_retry_is_probe_loop, probe_loop_none
      by (reflexivity || exact Hnone).
    discriminate.
  - revert w. fold (adds not_composing (Selenium.open_composer E)).
    unfold Selenium.open_composer.
    do 3 (apply adds_bind; [adds_auto ltac:(reflexivity)|]; intros _).
    apply adds_bind; [|intros _].
    + unfold Selenium._dismiss_popups. cbn [Selenium.dismiss_each].
      unfold Selenium.wait_until. adds_auto ltac:(reflexivity).
    + rewrite click_with_retry_is_probe_loop. apply adds_probe_loop; intros; reflexivity.
Qed.

(** When no candidate of the composer ever resolves, [create_post] answers
    [False] and has typed nothing, fed no file and not entered the attachment
    sub-flow.  Both drivers. *)
Theorem composer_not_found
    (E : Env) (message : string) (media : option (list string)) (w : World) :
  ((forall s, In s Playwright.whats_on_your_mind ->
              forall t, located E Visible s t = false) ->
   exists w' l,
     Playwright.create_post E message media w = (Ok false, w')
     /\ log w' = log w ++ l /\ Forall not_composing l)
  /\
  ((forall s, In s [Selenium.whats_on_your_mind; Selenium.whats_on_your_mind_en] ->
              forall t, located E Clickable s t = false) ->
   exists w' l,
     Selenium.create_post E message media w = (Ok false, w')
     /\ log w' = log w ++ l /\ Forall not_composing l).
Proof.
  split; intros Hnone.
  - destruct (pw_open_composer_not_found E w Hnone) as [Hres (l & Hl & Hf)].
    unfold Playwright.create_post, try_except. unfold bind at 1.
    destruct (Playwright.open_composer E w) as [[[|]|e] w1]; cbn [fst snd] in *.
    + now contradiction Hres.
    + cbn [negb]. unfold bind, print, emit, ret.
      eexists _, (l ++ [EvPrint MsgComposerNotFound]). split; [reflexivity|].
      split; [cbn [log record]; now rewrite Hl, <- app_assoc|].
      apply Forall_app. split; [exact Hf | repeat constructor].
    + cbn [any_exn]. unfold bind, print, emit, ret.
      eexists _, (l ++ [_]). split; [reflexivity|].
      split; [cbn [log record]; now rewrite Hl, <- app_assoc|].
      apply Forall_app. split; [exact Hf|].
      constructor; [|constructor]. now destruct (exn_eqb TimeoutError e).
  - destruct (se_open_composer_not_found E w Hnone) as [Hres (l & Hl & Hf)].
    unfold Selenium.create_post, try_except. unfold bind at 1.
    destruct (Selenium.open_composer E w) as [[[|]|e] w1]; cbn [fst snd] in *.
    + now contradiction Hres.
    + cbn [negb]. unfold bind, print, emit, ret.
      eexists _, (l ++ [EvPrint MsgComposerNotFound]). split; [reflexivity|].
      split; [cbn [log record]; now rewrite Hl, <- app_assoc|].
      apply Forall_app. split; [exact Hf | repeat constructor].
    + cbn [any_exn]. unfold bind, print, emit, ret.
      eexists _, (l ++ [_]). split; [reflexivity|].
      split; [cbn [log record]; now rewrite Hl, <- app_assoc|].
      apply Forall_app. split; [exact Hf|].
      constructor; [|constructor]. now destruct (exn_eqb TimeoutError e).
Qed.

Lemma composer_not_found_witness :
  fst (Playwright.create_post blank "hello" (Some ["/tmp/cat.png"]) w0) = Ok false
  /\ fst (Selenium.create_post blank "hello" (Some ["/tmp/cat.png"]) w0) = Ok false.
Proof.
  destruct (composer_not_found blank "hello" (Some ["/tmp/cat.png"]) w0) as [Hp Hs].
  destruct (Hp (fun s _ t => eq_refl)) as (w1 & l1 & H1 & _).
  destruct (Hs (fun s _ t => eq_refl)) as (w2 & l2 & H2 & _).
  split; [now rewrite H1 | now rewrite H2].
Defined.

(** When the post button never resolves, the text entry has already
    happened: [create_post] answers [False] with the message typed into the
    text box, and nothing takes it back. *)
Theorem post_button_not_found
    (E : Env) (message : string) (w : World) :
  quiet E ->
  (forall t, located E Visible Playwright.post_textbox t = true) ->
  (forall s, In s Playwright.post_button -> forall t, located E Visible s t = false) ->
  Playwright.write_and_publish E message w =
  (Ok false,
   {| now := now w + 500 + 2000 + 4 * span E 10000;
      log := log w ++ [ EvWait Visible Playwright.post_textbox 10000;
                        EvAct (Click Playwright.post_textbox); EvSleep 500;
                        EvAct (TypeText Playwright.post_textbox message);
                        EvPrint MsgMessageDone; EvSleep 2000 ]
                   ++ map (fun s => EvWait Visible s 10000) Playwright.post_button
                   ++ [EvPrint MsgPostButtonNotFound];
      attrs := attrs w |})
  /\ forall w0' w1,
       Playwright.open_composer E w0' = (Ok true, w1) ->
       w = snd (sleep 2000 w1) ->
       fst (Playwright.create_post E message None w0') = Ok false.
Proof.
  intros Hq Hbox Hnone.
  assert (Playwright.write_and_publish E message w =
          (Ok false,
           {| now := now w + 500 + 2000 + 4 * span E 10000;
              log := log w ++ [ EvWait Visible Playwright.post_textbox 10000;
                                EvAct (Click Playwright.post_textbox); EvSleep 500;
                                EvAct (TypeText Playwright.post_textbox message);
                                EvPrint MsgMessageDone; EvSleep 2000 ]
                           ++ map (fun s => EvWait Visible s 10000) Playwright.post_button
                           ++ [EvPrint MsgPostButtonNotFound];
              attrs := attrs w |})) as Hrun.
  { unfold Playwright.write_and_publish.
    unfold bind at 1, wait_for at 1. unfold polls. rewrite poll_n_now by apply Hbox.
    run_quiet Hq. unfold bind at 1.
    rewrite try_click_is_probe_loop, probe_loop_none by (reflexivity || exact Hnone).
    unfold bind, print, emit, ret, timed_out, at_time, record.
    cbn [now log attrs]. f_equal. f_equal.
    cbn [app]. now rewrite <- !app_assoc. }
  split; [exact Hrun|].
  intros w0' w1 Hopen ->.
  unfold Playwright.create_post, try_except. unfold bind at 1. rewrite Hopen.
  cbn [negb Playwright.given]. unfold bind at 1, sleep at 1. unfold bind at 1, ret at 1.
  unfold sleep in Hrun. cbn [snd] in Hrun. now rewrite Hrun.
Qed.

(** The composer and the text box resolve, the post button does not. *)
Definition no_post_button : Env :=
  showing [ "span:has-text('무슨 생각')"; Playwright.post_textbox ].

Lemma post_button_not_found_witness :
  fst (Playwright.create_post no_post_button "hello" None w0) = Ok false
  /\ count (fun e => match e with EvAct (TypeText _ m) => String.eqb m "hello" | _ => false end)
           (log (snd (Playwright.create_post no_post_button "hello" None w0))) = 1%nat.
Proof.
  destruct (post_button_not_found no_post_button "hello"
              (snd (sleep 2000 (snd (Playwright.open_composer no_post_button w0)))))
    as [_ H].
  - intros a t. reflexivity.
  - intros t. reflexivity.
  - intros s Hs t. cbn in Hs.
    repeat destruct Hs as [<-|Hs]; try contradiction; reflexivity.
  - split.
    + apply (H w0 (snd (Playwright.open_composer no_post_button w0)));
        [vm_compute; reflexivity | reflexivity].
    + vm_compute. reflexivity.
Defined.

(** ** The attachment sub-flow *)

(** Without a media picker the Playwright sub-flow warns and answers [False]
    having fed nothing; the selenium sub-flow does not look at the result of
    its click on the picker and answers [False] when the page has no file
    input. *)
Theorem upload_without_picker (E : Env) (paths : list string) (w : World) :
  ((forall s, In s Playwright.photo_video_button ->
              forall t, located E Visible s t = false) ->
   Playwright._upload_images E paths w =
   (Ok false,
    {| now := now w + 4 * span E 5000;
       log := log w ++ EvCall "_upload_images"
                    :: map (fun s => EvWait Visible s 5000) Playwright.photo_video_button
                    ++ [EvPrint WarnPickerNotFound];
       attrs := attrs w |}))
  /\
  (quiet E ->
   (forall t, nodes_at E Selenium.file_input t = []) ->
   exists w',
     Selenium._upload_media E paths w = (Ok false, w')
     /\ fed (log w') = fed (log w)
     /\ In (EvPrint WarnFileInputNotFound) (log w')).
Proof.
  split.
  - intros Hnone. unfold Playwright._upload_images.
    rewrite bind_emit. unfold try_except. unfold bind at 1.
    rewrite try_click_is_probe_loop, probe_loop_none by (reflexivity || exact Hnone).
    cbn [negb]. unfold bind, print, emit, ret, timed_out, record.
    cbn [now log attrs]. f_equal. f_equal.
    cbn [app]. now rewrite <- !app_assoc.
  - intros Hq Hnone. unfold Selenium._upload_media.
    rewrite bind_emit. unfold try_except. unfold bind at 1.
    match goal with
    | |- context [Selenium._click_element_with_retry E ?l None ?w0] =>
        pose proof (se_adds_click_with_retry no_files plain_no_files E l None w0) as Hadd;
        assert (exists b w1, Selenium._click_element_with_retry E l None w0 = (Ok b, w1))
          as (b & w1 & Hclick)
    end.
    { rewrite click_with_retry_is_probe_loop.
      apply succeeds_probe_loop; [reflexivity | intros s t; apply Hq]. }
    rewrite Hclick in Hadd |- *. cbn [snd] in Hadd.
    apply fed_extends in Hadd. destruct Hadd as [F1 _].
    rewrite bind_sleep. unfold bind at 1, query at 1.
    rewrite (bind_perform_quiet _ _ _ _ Hq). rewrite Hnone. cbn [Py.nonempty negb].
    unfold bind, print, emit, ret.
    eexists. split; [reflexivity|]. split.
    + unfold fed in *. cbn [log record at_time] in *.
      rewrite !flat_map_app. cbn. rewrite !app_nil_r.
      rewrite F1. rewrite flat_map_app. cbn. now rewrite app_nil_r.
    + cbn [log record at_time]. apply in_or_app. right. now left.
Qed.

Lemma upload_without_picker_witness :
  fst (Playwright._upload_images blank ["/tmp/cat.png"] w0) = Ok false
  /\ fst (Selenium._upload_media blank ["/tmp/cat.png"] w0) = Ok false.
Proof.
  destruct (upload_without_picker blank ["/tmp/cat.png"] w0) as [Hp Hs].
  split.
  - rewrite Hp; [reflexivity|]. intros s _ t. reflexivity.
  - destruct Hs as (w' & H & _).
    + intros a t. reflexivity.
    + intros t. reflexivity.
    + now rewrite H.
Defined.

(** A file input that refuses a file ends the sub-flow there: the refused
    file is the last one tried, the files after it are never fed, and the
    sub-flow answers [False]. *)
Theorem upload_stops_at_refused_file
    (E : Env) (p : string) (rest : list string) (e : exn) (w : World) :
  (forall a t, (forall s q, a <> SetInputFiles s q) -> raises E a t = None) ->
  (forall t, located E Visible "[aria-label='사진/동영상']" t = true) ->
  (forall t, located E Visible Playwright.file_input t = true) ->
  path_exists E (path_resolve E p) = true ->
  (forall t, raises E (SetInputFiles Playwright.file_input (path_resolve E p)) t = Some e) ->
  Playwright._upload_images E (p :: rest) w =
  (Ok false,
   {| now := now w + 1000;
      log := log w ++ [ EvCall "_upload_images";
                        EvWait Visible "[aria-label='사진/동영상']" 5000;
                        EvAct (Click "[aria-label='사진/동영상']"); EvSleep 1000;
                        EvWait Visible Playwright.file_input 5000;
                        EvAct (SetInputFiles Playwright.file_input (path_resolve E p));
                        EvPrint MsgUploadError ];
      attrs := attrs w |}).
Proof.
  intros Hq Hpick Hinput Hex Hrefuse.
  unfold Playwright._upload_images. rewrite bind_emit. unfold try_except.
  unfold bind at 1.
  rewrite try_click_is_probe_loop. unfold Playwright.photo_video_button.
  rewrite probe_loop_head;
    [| reflexivity | apply Hq; intros; discriminate | apply Hpick].
  cbn [negb]. rewrite bind_sleep.
  unfold bind at 1, wait_for at 1. unfold polls. rewrite poll_n_now by apply Hinput.
  unfold bind at 1. cbn [Playwright.feed_files]. rewrite Hex. cbn [negb].
  unfold bind at 1, perform at 1. rewrite Hrefuse.
  cbn [any_exn]. unfold bind, print, emit, ret, at_time, record.
  cbn [now log attrs]. f_equal. f_equal. now rewrite <- !app_assoc.
Qed.

(** Every selector resolves, the files exist, and the file input refuses
    [refused]. *)
Definition refusing (refused : string) : Env :=
  {| poll := 500;
     url_at := url_at blank;
     located := fun _ _ _ => true;
     nodes_at := nodes_at blank;
     raises := fun a _ =>
       match a with
       | SetInputFiles _ q => if String.eqb q refused then Some OtherError else None
       | _ => None
       end;
     path_resolve := fun q => q;
     path_exists := fun _ => true |}.

Lemma upload_stops_at_refused_file_witness :
  fst (Playwright._upload_images (refusing "/tmp/a.png") ["/tmp/a.png"; "/tmp/b.png"] w0)
  = Ok false
  /\ fed (log (snd (Playwright._upload_images (refusing "/tmp/a.png")
                      ["/tmp/a.png"; "/tmp/b.png"] w0)))
     = ["/tmp/a.png"].
Proof.
  rewrite (upload_stops_at_refused_file (refusing "/tmp/a.png") "/tmp/a.png" ["/tmp/b.png"]
             OtherError w0).
  - split; reflexivity.
  - intros a t Ha. destruct a; try reflexivity. now contradiction (Ha sel path).
  - intros t. reflexivity.
  - intros t. reflexivity.
  - reflexivity.
  - intros t. reflexivity.
Defined.

(** ** The checkpoint wait, at its edges *)

(** Off the checkpoint the wait is skipped altogether, in both bots; and
    with a timeout of zero or less the Playwright bot announces the checkpoint
    and goes straight to the test of the location, without a single poll. *)
Theorem checkpoint_wait_skipped (E : Env) (T : Z) (w : World) :
  (on_checkpoint E (now w) = false ->
   Playwright.login_checkpoint E T w = (Ok tt, w)
   /\ Selenium.login_checkpoint E w = (Ok tt, w))
  /\ (on_checkpoint E (now w) = true -> T <= 0 ->
      Playwright.login_checkpoint E T w = (Ok tt, record (EvPrint Msg2faNeeded) w)).
Proof.
  unfold on_checkpoint. split.
  - intros Hoff.
    unfold Playwright.login_checkpoint, Selenium.login_checkpoint, bind, page_url.
    rewrite Hoff. split; reflexivity.
  - intros Hon HT.
    unfold Playwright.login_checkpoint, bind at 1, page_url. rewrite Hon.
    rewrite bind_print. unfold try_except.
    replace (Z.to_nat T) with 0%nat by lia. reflexivity.
Qed.

Lemma checkpoint_wait_skipped_witness :
  Playwright.login_checkpoint blank 30 w0 = (Ok tt, w0)
  /\ now (snd (Playwright.login_checkpoint stuck_checkpoint 0 w0)) = 0.
Proof.
  destruct (checkpoint_wait_skipped blank 30 w0) as [H _].
  destruct (checkpoint_wait_skipped stuck_checkpoint 0 w0) as [_ H'].
  split.
  - apply H. reflexivity.
  - rewrite H'; [reflexivity | reflexivity | lia].
Defined.

(** * facebook_api_poster.py and [run_api_mode] of main.py *)

Module ApiClient.

(** what the checks of the client raise *)
Inductive error :=
| FileNotFound           (* FileNotFoundError *)
| Unsupported            (* ValueError: unsupported format *)
| Empty.                 (* ValueError: empty message or link *)

(** [post_text], lines 60-61, and [post_link], lines 184-185 *)
Definition post_text_check (message : string) : option error :=
  if negb (Py.truthy message) then Some Empty else None.

Definition post_link_check (link : string) : option error :=
  if negb (Py.truthy link) then Some Empty else None.

(** [post_image], lines 93-99 *)
Definition post_image_check (exists_ : string -> bool) (image_path : string) : option error :=
  if negb (exists_ image_path) then Some FileNotFound
  else if negb (Py.mem (Py.lower (Py.suffix image_path)) Api.image_formats)
       then Some Unsupported
       else None.

(** [post_video], lines 134-141 *)
Definition post_video_check (exists_ : string -> bool) (video_path : string) : option error :=
  if negb (exists_ video_path) then Some FileNotFound
  else if negb (Py.mem (Py.lower (Py.suffix video_path)) Api.supported_formats)
       then Some Unsupported
       else None.

(** The call [run_api_mode] makes, main.py lines 104-117. *)
Inductive call :=
| PostImage (image_path message : string)
| PostVideo (video_path description : string)
| PostText (message : string).

Definition main_image_formats : list string :=
  [ ".jpg"; ".jpeg"; ".png"; ".gif"; ".bmp"; ".webp" ].
Definition main_video_formats : list string :=
  [ ".mp4"; ".mov"; ".avi"; ".wmv"; ".flv" ].

Definition run_api_mode (message : string) (media_paths : option (list string)) : call :=
  match media_paths with
  | Some (first_file :: _) =>
      let suffix := Py.lower (Py.suffix first_file) in
      if Py.mem suffix main_image_formats then PostImage first_file message
      else if Py.mem suffix main_video_formats then PostVideo first_file message
      else PostText message
  | _ => PostText message
  end.

(** the check the chosen call starts with *)
Definition check (exists_ : string -> bool) (c : call) : option error :=
  match c with
  | PostImage p _ => post_image_check exists_ p
  | PostVideo p _ => post_video_check exists_ p
  | PostText m => post_text_check m
  end.

End ApiClient.

Lemma mem_incl s (l1 l2 : list string) :
  incl l1 l2 -> Py.mem s l1 = true -> Py.mem s l2 = true.
Proof.
  intros Hincl H. unfold Py.mem in *. apply existsb_exists in H.
  destruct H as (x & Hx & Heq). apply existsb_exists. exists x. auto.
Qed.

(** [run_api_mode] never sends a file to a call that rejects its format:
    whatever the paths, the chosen call can only fail its checks for a missing
    file or an empty message.  Only the first path is ever looked at. *)
Theorem api_dispatch_formats
    (exists_ : string -> bool) (message : string) (media_paths : option (list string)) :
  ApiClient.check exists_ (ApiClient.run_api_mode message media_paths)
    <> Some ApiClient.Unsupported
  /\ forall p rest,
       ApiClient.run_api_mode message (Some (p :: rest))
       = ApiClient.run_api_mode message (Some [p]).
Proof.
  split; [|reflexivity].
  unfold ApiClient.run_api_mode.
  destruct media_paths as [[|p rest]|];
    try (cbn; unfold ApiClient.post_text_check; destruct (negb _); discriminate).
  cbv zeta.
  destruct (Py.mem (Py.lower (Py.suffix p)) ApiClient.main_image_formats) eqn:Himg.
  - cbn [ApiClient.check]. unfold ApiClient.post_image_check.
    destruct (negb (exists_ p)); [discriminate|].
    change Api.image_formats with ApiClient.main_image_formats.
    rewrite Himg. discriminate.
  - destruct (Py.mem (Py.lower (Py.suffix p)) ApiClient.main_video_formats) eqn:Hvid.
    + cbn [ApiClient.check]. unfold ApiClient.post_video_check.
      destruct (negb (exists_ p)); [discriminate|].
      rewrite (mem_incl _ ApiClient.main_video_formats Api.supported_formats); 
        [discriminate | | exact Hvid].
      intros x Hx. cbn in Hx |- *. intuition.
    + cbn [ApiClient.check]. unfold ApiClient.post_text_check.
      destruct (negb _); discriminate.
Qed.

(** A video in a format that [post_video] accepts but [run_api_mode] does
    not list (.mkv, .webm) is not uploaded: the run posts the text alone. *)
Theorem api_mkv_posted_as_text (message p : string) (rest : list string) :
  Py.lower (Py.suffix p) = ".mkv" \/ Py.lower (Py.suffix p) = ".webm" ->
  ApiClient.run_api_mode message (Some (p :: rest)) = ApiClient.PostText message
  /\ ApiClient.post_video_check (fun _ => true) p = None.
Proof.
  intros H. unfold ApiClient.run_api_mode, ApiClient.post_video_check. cbv zeta.
  destruct H as [-> | ->]; split; reflexivity.
Qed.

Lemma api_mkv_posted_as_text_witness :
  ApiClient.run_api_mode "clip" (Some ["/videos/Holiday.MKV"]) = ApiClient.PostText "clip"
  /\ ApiClient.post_video_check (fun _ => true) "/videos/Holiday.MKV" = None.
Proof.
  apply (api_mkv_posted_as_text "clip" "/videos/Holiday.MKV" []).
  left. reflexivity.
Defined.
